(** * media-transcriber: job manager, event bus, pipeline and orchestration

    A shallow embedding of the Go packages [internal/jobs],
    [internal/transcribe] and [internal/bootstrap], with the properties of
    the specification stated over it.

    Conventions.
    - A Go [string] is a byte sequence: it is a [string] here, one [ascii]
      per byte.
    - [int] and [int64] are [Z]; where the code increments a counter the
      64-bit wrap-around is written out ([wrap64]).
    - A method with a pointer receiver takes the receiver's value and
      returns the result first and the new value second.
    - A Go [error] is a value of [error]; [nil] is [None]. *)

From Stdlib Require Import ZArith List String Ascii Bool Lia Sorted.
From Stdlib Require Import DecimalString.
Import ListNotations.

Open Scope string_scope.
Open Scope list_scope.
Open Scope Z_scope.

(** String concatenation, Go's [+] on strings. *)
Infix "+++" := String.append (at level 60, right associativity).

(** ** Integers *)

(** Two's complement wrap-around of a 64-bit signed integer. *)
Definition wrap64 (z : Z) : Z := (z + 2 ^ 63) mod 2 ^ 64 - 2 ^ 63.

Definition MaxInt64 : Z := 2 ^ 63 - 1.

(** [%d] of [fmt]. *)
Definition itoa (z : Z) : string := NilZero.string_of_int (Z.to_int z).

(** ** The Go standard library functions the program calls

    These are not part of the repository; they are written here from
    their documented behaviour, on byte strings (the platform is taken
    to be Unix: the path separator is [/] and there are no volume
    names). *)

Module strings.

(** The value of a byte. *)
Definition byte (c : ascii) : N := N_of_ascii c.

Fixpoint rev (s : string) (acc : string) : string :=
  match s with
  | EmptyString => acc
  | String c s' => rev s' (String c acc)
  end.

(** [unicode.IsSpace] on the ASCII range: tab, line feed, vertical tab,
    form feed, carriage return, space. *)
Definition isSpace1 (a : ascii) : bool :=
  let a := byte a in
  ((9 <=? a) && (a <=? 13) || (a =? 32))%N.

(** The two-byte UTF-8 encodings of white space: U+0085 and U+00A0. *)
Definition isSpace2 (a b : ascii) : bool :=
  let a := byte a in let b := byte b in
  ((a =? 194) && ((b =? 133) || (b =? 160)))%N.

(** The three-byte UTF-8 encodings of white space: U+1680, U+2000 to
    U+200A, U+2028, U+2029, U+202F, U+205F and U+3000. *)
Definition isSpace3 (a b c : ascii) : bool :=
  let a := byte a in let b := byte b in let c := byte c in
  ((a =? 225) && (b =? 154) && (c =? 128)
   || (a =? 226) && (b =? 128)
      && ((128 <=? c) && (c <=? 138) || (c =? 168) || (c =? 169) || (c =? 175))
   || (a =? 226) && (b =? 129) && (c =? 159)
   || (a =? 227) && (b =? 128) && (c =? 128))%N.

(** [TrimLeftFunc(s, unicode.IsSpace)]: drop leading white-space runes.
    A byte sequence that is not one of the encodings above decodes to a
    rune that is not white space (or to [RuneError]) and stops the
    scan. *)
Fixpoint trimLeftSpace (s : string) : string :=
  match s with
  | EmptyString => EmptyString
  | String a s1 =>
      if isSpace1 a then trimLeftSpace s1
      else
        match s1 with
        | EmptyString => s
        | String b s2 =>
            if isSpace2 a b then trimLeftSpace s2
            else
              match s2 with
              | EmptyString => s
              | String c s3 =>
                  if isSpace3 a b c then trimLeftSpace s3 else s
              end
        end
  end.

(** The same scan on the reversed string, for [TrimRightFunc]: the last
    rune is found by stepping back over continuation bytes to a lead
    byte, so it is white space exactly when the string ends with one of
    the encodings. *)
Fixpoint trimLeftSpaceRev (r : string) : string :=
  match r with
  | EmptyString => EmptyString
  | String a r1 =>
      if isSpace1 a then trimLeftSpaceRev r1
      else
        match r1 with
        | EmptyString => r
        | String b r2 =>
            if isSpace2 b a then trimLeftSpaceRev r2
            else
              match r2 with
              | EmptyString => r
              | String c r3 =>
                  if isSpace3 c b a then trimLeftSpaceRev r3 else r
              end
        end
  end.

Definition trimRightSpace (s : string) : string :=
  rev (trimLeftSpaceRev (rev s "")) "".

(** [strings.TrimSpace]: all leading and trailing white space removed,
    as defined by Unicode. *)
Definition TrimSpace (s : string) : string :=
  trimRightSpace (trimLeftSpace s).

(** ASCII lower case of a byte. *)
Definition lower1 (a : ascii) : ascii :=
  if ((65 <=? byte a) && (byte a <=? 90))%N
  then ascii_of_N (byte a + 32) else a.

(** [strings.EqualFold], byte by byte with ASCII case folding.  This is
    the library's result whenever one argument consists of ASCII
    characters other than [k], [K], [s], [S] (whose Unicode fold orbits
    hold non-ASCII runes); the program calls it with the literal
    ["auto"]. *)
Fixpoint EqualFold (s t : string) : bool :=
  match s, t with
  | EmptyString, EmptyString => true
  | String a s', String b t' =>
      Ascii.eqb (lower1 a) (lower1 b) && EqualFold s' t'
  | _, _ => false
  end.

(** [strings.ToLower]: ASCII letters are lowered; the two non-ASCII
    runes whose lower case is ASCII are mapped to it (U+0130 to [i],
    U+212A to [k]).  Every other non-ASCII rune lowers to a non-ASCII
    rune, which the program never tells apart (it compares the result
    with ASCII literals only): those bytes are kept as they are. *)
Fixpoint ToLower (s : string) : string :=
  match s with
  | EmptyString => EmptyString
  | String a s1 =>
      match s1 with
      | String b s2 =>
          if ((byte a =? 196) && (byte b =? 176))%N
          then String "i" (ToLower s2)
          else
            match s2 with
            | String c s3 =>
                if ((byte a =? 226) && (byte b =? 132) && (byte c =? 170))%N
                then String "k" (ToLower s3)
                else String (lower1 a) (ToLower s1)
            | EmptyString => String (lower1 a) (ToLower s1)
            end
      | EmptyString => String (lower1 a) EmptyString
      end
  end.

(** [strings.HasPrefix] *)
Fixpoint HasPrefix (s prefix : string) : bool :=
  match prefix, s with
  | EmptyString, _ => true
  | String p prefix', String c s' => Ascii.eqb c p && HasPrefix s' prefix'
  | String _ _, EmptyString => false
  end.

(** Removal of a known prefix, for [TrimSuffix] on the reversed
    string. *)
Fixpoint dropPrefix (s prefix : string) : string :=
  match prefix, s with
  | String _ prefix', String _ s' => dropPrefix s' prefix'
  | _, _ => s
  end.

(** [strings.TrimSuffix]: [s] without the trailing [suffix], or [s]
    itself when it does not end with it. *)
Definition TrimSuffix (s suffix : string) : string :=
  if HasPrefix (rev s "") (rev suffix "")
  then rev (dropPrefix (rev s "") (rev suffix "")) ""
  else s.

(** [strings.Join] *)
Fixpoint Join (elems : list string) (sep : string) : string :=
  match elems with
  | [] => ""
  | [e] => e
  | e :: elems' => e +++ sep +++ Join elems' sep
  end.

End strings.

Module filepath.

Definition Separator : ascii := "/"%char.

Definition IsPathSeparator (c : ascii) : bool := Ascii.eqb c Separator.

(** The loop of [filepath.Ext], from the last byte backwards: the
    suffix from the final dot of the final element, or [""]. *)
Fixpoint extRev (r : string) (acc : string) : string :=
  match r with
  | EmptyString => ""
  | String c r' =>
      if IsPathSeparator c then ""
      else if Ascii.eqb c "."%char then String c acc
      else extRev r' (String c acc)
  end.

Definition Ext (path : string) : string := extRev (strings.rev path "") "".

(** Leading separators removed (of the reversed path: trailing ones). *)
Fixpoint dropSeparators (r : string) : string :=
  match r with
  | String c r' => if IsPathSeparator c then dropSeparators r' else r
  | EmptyString => EmptyString
  end.

(** The bytes before the first separator (of the reversed path: the
    last element, reversed). *)
Fixpoint untilSeparator (r : string) : string :=
  match r with
  | String c r' =>
      if IsPathSeparator c then EmptyString else String c (untilSeparator r')
  | EmptyString => EmptyString
  end.

(** [filepath.Base]: the last element of the path, trailing separators
    removed; ["."] for the empty path, ["/"] for a path of separators. *)
Definition Base (path : string) : string :=
  if (path =? "")%string then "."
  else
    let r := dropSeparators (strings.rev path "") in
    let last := strings.rev (untilSeparator r) "" in
    if (last =? "")%string then String Separator EmptyString else last.

(** The elements of a path between separators. *)
Fixpoint split (path : string) (cur : string) : list string :=
  match path with
  | EmptyString => [strings.rev cur ""]
  | String c path' =>
      if IsPathSeparator c then strings.rev cur "" :: split path' ""
      else split path' (String c cur)
  end.

(** One step of [Clean] on the stack of kept elements (last first):
    empty elements and ["."] are skipped; [".."] removes the last kept
    element, or is kept itself when the path is not rooted and nothing
    can be removed. *)
Definition cleanStep (rooted : bool) (stack : list string) (elem : string)
  : list string :=
  if (elem =? "")%string || (elem =? ".")%string then stack
  else if (elem =? "..")%string then
    match stack with
    | top :: stack' =>
        if (top =? "..")%string then elem :: stack else stack'
    | [] => if rooted then [] else [elem]
    end
  else elem :: stack.

(** [filepath.Clean]: the shortest equivalent path by lexical
    processing. *)
Definition Clean (path : string) : string :=
  match path with
  | EmptyString => "."
  | String c _ =>
      let rooted := IsPathSeparator c in
      let stack := fold_left (cleanStep rooted) (split path "") [] in
      let body := strings.Join (List.rev stack) "/" in
      if rooted then "/" +++ body
      else if (body =? "")%string then "." else body
  end.

(** [filepath.Join] of two elements: empty elements are ignored and the
    result is cleaned; two empty elements give [""]. *)
Definition Join (a b : string) : string :=
  if negb (a =? "")%string then Clean (a +++ "/" +++ b)
  else if negb (b =? "")%string then Clean b
  else "".

End filepath.

(** ** Errors *)

(** [transcribe.CommandLog]; declared ahead of [error], whose
    [*PipelineError] case embeds it. *)
Record CommandLog := mkCommandLog {
  Command : string;
  Args : list string;
  ExitCode : Z;
  Stdout : string;
  Stderr : string
}.

(** The zero value [CommandLog{}]. *)
Definition noCommandLog : CommandLog := mkCommandLog "" [] 0 "" "".

(** The dynamic values of Go's [error] interface that this program
    creates or inspects. *)
#[warnings="-register-all"]
Inductive error : Type :=
| errorString (s : string)
    (** [errors.New(s)], [fmt.Errorf] without [%w] *)
| wrapError (msg : string) (err : error)
    (** [fmt.Errorf] with [%w]: [msg] is the formatted text *)
| Canceled
    (** [context.Canceled] *)
| ExitError (state : string) (code : Z)
    (** [*exec.ExitError]: process state text and [ExitCode()] *)
| ErrJobAlreadyRunning
| ErrNoRunningJob
    (** the two sentinels of package [jobs] *)
| PipelineError (Stage Message : string) (log : CommandLog) (Err : option error).
    (** [*transcribe.PipelineError] *)

(** [err.Error()]; for [*PipelineError] this is the method of
    pipeline.go. *)
Definition Error (e : error) : string :=
  match e with
  | errorString s => s
  | wrapError msg _ => msg
  | Canceled => "context canceled"
  | ExitError state _ => state
  | ErrJobAlreadyRunning => "job already running"
  | ErrNoRunningJob => "no running job"
  | PipelineError stage message log _ =>
      if (Command log =? "")%string
      then stage +++ ": " +++ message
      else stage +++ ": " +++ message +++ " (cmd=" +++ Command log
                 +++ " exit=" +++ itoa (ExitCode log) +++ ")"
  end.

(** [errors.Is(err, target)] for a sentinel [target]: follow [Unwrap]
    until the sentinel is met.  [*PipelineError] unwraps to its [Err],
    a [%w] error to the wrapped one; [*exec.ExitError] has no [Unwrap]. *)
Fixpoint errors_Is (target : error -> bool) (e : error) : bool :=
  target e ||
  match e with
  | wrapError _ inner => errors_Is target inner
  | PipelineError _ _ _ (Some inner) => errors_Is target inner
  | _ => false
  end.

Definition isCanceled (e : error) : bool :=
  match e with Canceled => true | _ => false end.

Definition isErrNoRunningJob (e : error) : bool :=
  match e with ErrNoRunningJob => true | _ => false end.

(** ** Package domain *)

Module domain.

(** Package [domain], whose declarations are found in docs/PRD.md
    (lines 169 to 195): [JobStatus] is a string type with seven
    constants. *)
Definition JobStatus : Type := string.

Definition JobStatusIdle : JobStatus := "idle".
Definition JobStatusPreprocessing : JobStatus := "preprocessing".
Definition JobStatusTranscribing : JobStatus := "transcribing".
Definition JobStatusExporting : JobStatus := "exporting".
Definition JobStatusDone : JobStatus := "done".
Definition JobStatusFailed : JobStatus := "failed".
Definition JobStatusCancelled : JobStatus := "cancelled".

(** [Job]: the identity of the current job and its status. *)
Record Job := mkJob { ID : string; Status : JobStatus }.

(** [Settings]: the configuration the user selects. *)
Record Settings := mkSettings {
  ModelPath : string;
  OutputDir : string;
  Language : string
}.

End domain.
Import domain.

(** ** Package jobs: the manager *)

Module jobs.

(** [Manager]: the mutex is the atomicity of the operations below. *)
Record Manager := mkManager { current : Job }.

Definition NewManager : Manager :=
  mkManager (mkJob "" JobStatusIdle).

Definition isRunning (status : JobStatus) : bool :=
  if (status =? JobStatusPreprocessing)%string then true
  else if (status =? JobStatusTranscribing)%string then true
  else if (status =? JobStatusExporting)%string then true
  else false.

Definition isValidTransition (from to : JobStatus) : bool :=
  if (from =? JobStatusIdle)%string then
    (to =? JobStatusPreprocessing)%string
  else if (from =? JobStatusPreprocessing)%string then
    (to =? JobStatusTranscribing)%string || (to =? JobStatusFailed)%string
    || (to =? JobStatusCancelled)%string
  else if (from =? JobStatusTranscribing)%string then
    (to =? JobStatusExporting)%string || (to =? JobStatusFailed)%string
    || (to =? JobStatusCancelled)%string
  else if (from =? JobStatusExporting)%string then
    (to =? JobStatusDone)%string || (to =? JobStatusFailed)%string
    || (to =? JobStatusCancelled)%string
  else if (from =? JobStatusDone)%string || (from =? JobStatusFailed)%string
          || (from =? JobStatusCancelled)%string then
    (to =? JobStatusPreprocessing)%string || (to =? JobStatusIdle)%string
  else false.

Definition Start (jobID : string) (m : Manager) : option error * Manager :=
  if isRunning (Status (current m)) then (Some ErrJobAlreadyRunning, m)
  else (None, mkManager (mkJob jobID JobStatusPreprocessing)).

(** The two errors [Transition] builds with [fmt.Errorf]. *)
Definition errNoActiveJob : error :=
  errorString "cannot transition without an active job".

Definition errInvalidTransition (from to : JobStatus) : error :=
  errorString ("invalid transition: " +++ from +++ " -> " +++ to).

Definition Transition (status : JobStatus) (m : Manager)
  : option error * Manager :=
  if (ID (current m) =? "")%string && negb (status =? JobStatusIdle)%string
  then (Some errNoActiveJob, m)
  else if (status =? Status (current m))%string then (None, m)
  else if negb (isValidTransition (Status (current m)) status)
  then (Some (errInvalidTransition (Status (current m)) status), m)
  else (None, mkManager (mkJob (ID (current m)) status)).

Definition Current (m : Manager) : Job := current m.

Definition Reset (m : Manager) : Manager :=
  mkManager (mkJob "" JobStatusIdle).

Definition IsRunning (m : Manager) : bool := isRunning (Status (current m)).

Definition Cancel (m : Manager) : option error * Manager :=
  if negb (isRunning (Status (current m))) then (Some ErrNoRunningJob, m)
  else (None, mkManager (mkJob (ID (current m)) JobStatusCancelled)).

(** The states a manager can be in: those built from [NewManager] by its
    five mutating methods. *)
Inductive reachable : Manager -> Prop :=
| reach_new : reachable NewManager
| reach_Start jobID m : reachable m -> reachable (snd (Start jobID m))
| reach_Transition status m :
    reachable m -> reachable (snd (Transition status m))
| reach_Cancel m : reachable m -> reachable (snd (Cancel m))
| reach_Reset m : reachable m -> reachable (Reset m).

(** *** The specification's view of the state machine *)

(** The seven statuses of the specification. *)
Definition statuses : list JobStatus :=
  [JobStatusIdle; JobStatusPreprocessing; JobStatusTranscribing;
   JobStatusExporting; JobStatusDone; JobStatusFailed; JobStatusCancelled].

(** The active statuses of the specification. *)
Definition active : list JobStatus :=
  [JobStatusPreprocessing; JobStatusTranscribing; JobStatusExporting].

(** The transition table of spec section 4.1, row by row. *)
Definition table : list (JobStatus * list JobStatus) :=
  [ (JobStatusIdle, [JobStatusPreprocessing]);
    (JobStatusPreprocessing,
       [JobStatusTranscribing; JobStatusFailed; JobStatusCancelled]);
    (JobStatusTranscribing,
       [JobStatusExporting; JobStatusFailed; JobStatusCancelled]);
    (JobStatusExporting,
       [JobStatusDone; JobStatusFailed; JobStatusCancelled]);
    (JobStatusDone, [JobStatusPreprocessing; JobStatusIdle]);
    (JobStatusFailed, [JobStatusPreprocessing; JobStatusIdle]);
    (JobStatusCancelled, [JobStatusPreprocessing; JobStatusIdle]) ].

(** [(from, to)] is an edge of the table. *)
Definition edge (from to : JobStatus) : Prop :=
  exists row, In (from, row) table /\ In to row.

Definition edgeb (from to : JobStatus) : bool :=
  existsb (fun r => (fst r =? from)%string
                    && existsb (String.eqb to) (snd r)) table.

(** ** Package jobs: the event bus *)

(** [EventType] is a string type with four constants. *)
Definition EventType : Type := string.

Definition EventTypeStatus : EventType := "status".
Definition EventTypeLog : EventType := "log".
Definition EventTypeResult : EventType := "result".
Definition EventTypeError : EventType := "error".

(** [time.Time], as the number of nanoseconds since the zero time, so
    that [IsZero] is the test against 0. *)
Definition Time : Type := Z.

Definition IsZero (t : Time) : bool := t =? 0.

Module Event.

Record t := mk {
  Seq : Z;
  Timestamp : Time;
  JobID : string;
  Type_ : EventType;
  Status : JobStatus;
  Message : string;
  Command : string;
  Args : list string;
  ExitCode : Z;
  Stdout : string;
  Stderr : string;
  TextPath : string
}.

(** The zero value [Event{}]. *)
Definition zero : t := mk 0 0 "" "" "" "" "" [] 0 "" "" "".

(** [event.Seq = seq] *)
Definition with_Seq (seq : Z) (e : t) : t :=
  mk seq (Timestamp e) (JobID e) (Type_ e) (Status e) (Message e)
     (Command e) (Args e) (ExitCode e) (Stdout e) (Stderr e) (TextPath e).

(** [event.Timestamp = ts] *)
Definition with_Timestamp (ts : Time) (e : t) : t :=
  mk (Seq e) ts (JobID e) (Type_ e) (Status e) (Message e)
     (Command e) (Args e) (ExitCode e) (Stdout e) (Stderr e) (TextPath e).

End Event.

(** [EventBus]: the read-write mutex is the atomicity of [Publish] and
    [Since]. *)
Record EventBus := mkEventBus {
  nextSeq : Z;
  maxEvents : Z;
  events : list Event.t
}.

(** [len(b.events)], an [int]. *)
Definition len {A} (l : list A) : Z := Z.of_nat (List.length l).

(** [NewEventBus]; the slice is allocated empty with capacity
    [maxEvents] (the allocation is taken to succeed). *)
Definition NewEventBus (maxEvents : Z) : EventBus :=
  let maxEvents := if maxEvents <=? 0 then 500 else maxEvents in
  mkEventBus 0 maxEvents [].

(** [Publish]; [now] is the reading of [time.Now().UTC()], used only
    when the event carries no timestamp. *)
Definition Publish (now : Time) (event : Event.t) (b : EventBus)
  : Event.t * EventBus :=
  let nextSeq := wrap64 (nextSeq b + 1) in
  let event := Event.with_Seq nextSeq event in
  let event :=
    if IsZero (Event.Timestamp event) then Event.with_Timestamp now event
    else event in
  let events := events b ++ [event] in
  let events :=
    if len events >? maxEvents b then
      let trim := len events - maxEvents b in
      skipn (Z.to_nat trim) events
    else events in
  (event, mkEventBus nextSeq (maxEvents b) events).

(** [Since]: the code returns [nil] for an empty buffer and a fresh
    slice otherwise; both are the empty list when nothing qualifies. *)
Definition Since (seq : Z) (b : EventBus) : list Event.t :=
  match events b with
  | [] => []
  | _ => filter (fun event => Event.Seq event >? seq) (events b)
  end.

(** A sequence of [Publish] calls, each with its clock reading; the
    first component is the list of returned (finalized) events, in
    publish order. *)
Fixpoint publishAll (calls : list (Time * Event.t)) (b : EventBus)
  : list Event.t * EventBus :=
  match calls with
  | [] => ([], b)
  | (now, event) :: calls =>
      let (published, b) := Publish now event b in
      let (rest, b) := publishAll calls b in
      (published :: rest, b)
  end.

(** The sequence numbers [1, 2, ..., n]. *)
Definition seqs (n : nat) : list Z := map Z.of_nat (seq 1 n).

(** The last [n] elements of a list. *)
Definition lastn {A} (n : nat) (l : list A) : list A :=
  skipn (List.length l - n) l.

(** The event [Publish] stores and returns for an input event, given
    the sequence number it receives and the clock reading. *)
Definition finalized (seq : Z) (call : Time * Event.t) : Event.t :=
  let event := Event.with_Seq seq (snd call) in
  if IsZero (Event.Timestamp event)
  then Event.with_Timestamp (fst call) event
  else event.

(** The events a sequence of calls publishes when the first of them
    receives the sequence number [seq]. *)
Fixpoint finalizedFrom (seq : Z) (calls : list (Time * Event.t))
  : list Event.t :=
  match calls with
  | [] => []
  | call :: calls => finalized seq call :: finalizedFrom (seq + 1) calls
  end.

(** Strictly ascending sequence numbers. *)
Definition ascending (l : list Event.t) : Prop :=
  StronglySorted (fun e e' => Event.Seq e < Event.Seq e') l.

(** What ties a bus to the history [h] of the events published on it. *)
Record tracks (b : EventBus) (h : list Event.t) : Prop := {
  tracks_cap : 0 < maxEvents b;
  tracks_next : nextSeq b = len h;
  tracks_seqs : map Event.Seq h = seqs (List.length h);
  tracks_events : events b = lastn (Z.to_nat (maxEvents b)) h
}.

End jobs.
(** ** Programs with effects *)

(** A program over an effect signature [E]: it returns, or performs an
    effect [e : E X] and continues with the answer.  The calls a Go
    function makes through injected functions, interfaces and callbacks
    are the effects of its program; a handler supplies their answers. *)
Inductive Prog (E : Type -> Type) (R : Type) : Type :=
| Ret (r : R)
| Vis {X : Type} (e : E X) (k : X -> Prog E R).

Arguments Ret {E R} r.
Arguments Vis {E R X} e k.

Fixpoint bind {E : Type -> Type} {A B : Type}
         (p : Prog E A) (f : A -> Prog E B) : Prog E B :=
  match p with
  | Ret a => f a
  | Vis e k => Vis e (fun x => bind (k x) f)
  end.

(** A single effect as a program. *)
Definition perform {E : Type -> Type} {X : Type} (e : E X) : Prog E X :=
  Vis e Ret.

Notation "x <- p ;; q" := (bind p (fun x => q))
  (at level 61, p at next level, right associativity).
Notation "p ;; q" := (bind p (fun _ => q))
  (at level 61, right associativity).

(** One call of a trace: the effect and its answer. *)
Inductive call (E : Type -> Type) : Type :=
| Call {X : Type} (e : E X) (x : X).

Arguments Call {E X} e x.

(** A handler answers every effect, threading a state of its own (a
    file system, a script of process results, ...). *)
Definition handler (E : Type -> Type) (W : Type) : Type :=
  forall X : Type, E X -> W -> X * W.

(** Running a program against a handler: the calls made, in order, the
    result, and the handler's final state. *)
Fixpoint exec {E : Type -> Type} {W R : Type}
         (h : handler E W) (p : Prog E R) (w : W) : list (call E) * R * W :=
  match p with
  | Ret r => ([], r, w)
  | Vis e k =>
      let (x, w) := h _ e w in
      let '(tr, r, w) := exec h (k x) w in
      (Call e x :: tr, r, w)
  end.


(** ** Package transcribe *)

Module transcribe.

(** [context.Context], by identity: a pipeline only hands it on to the
    command runner. *)
Definition Context : Type := nat.

(** [os.FileInfo], of which the program consults [IsDir()]. *)
Module FileInfo.
Record t := mk { IsDir : bool }.
End FileInfo.

(** [os.DirEntry], of which the program consults [Name()] and
    [IsDir()]. *)
Module DirEntry.
Record t := mk { Name : string; IsDir : bool }.
End DirEntry.

Module commandResult.
Record t := mk { Stdout : string; Stderr : string; ExitCode : Z }.
Definition zero : t := mk "" "" 0.
End commandResult.

(** [Request].  The two callbacks are function values of the caller:
    the record tells whether each is set (non-nil), and calling one is
    the effect [OnStage] or [OnLog] below, whose body is the
    caller's. *)
Module Request.
Record t := mk {
  InputPath : string;
  ModelPath : string;
  Language : string;
  OutputDir : string;
  OnStage : bool;
  OnLog : bool
}.
End Request.

Module Result.
Record t := mk {
  PreprocessedAudioPath : string;
  TextPath : string;
  Transcript : string;
  Logs : list CommandLog;
  tempDir : string
}.
Definition zero : t := mk "" "" "" [] "".
End Result.

(** What a pipeline calls: the six injected file-system functions of
    the [Pipeline] struct, its [commandRunner], the two callbacks of
    the request, and [os.RemoveAll], which [Result.Cleanup] calls
    directly.  A Go function returning [(value, error)] of which only
    one is meaningful answers with a sum; the runner's result is used
    together with its error and answers with a pair. *)
Inductive Eff : Type -> Type :=
| stat (name : string) : Eff (FileInfo.t + error)
| mkdirAll (path : string) (perm : Z) : Eff (option error)
| mkdirTemp (dir pattern : string) : Eff (string + error)
| removeAll (path : string) : Eff (option error)
| readDir (name : string) : Eff (list DirEntry.t + error)
| readFile (name : string) : Eff (string + error)
| runner_Run (ctx : Context) (name : string) (args : list string)
  : Eff (commandResult.t * option error)
| OnStage (stage : string) : Eff unit
| OnLog (log : CommandLog) : Eff unit
| os_RemoveAll (path : string) : Eff (option error).

(** The method [Cleanup] of [Result], on a non-nil receiver. *)
Definition Cleanup (r : Result.t) : Prog Eff (option error * Result.t) :=
  if (Result.tempDir r =? "")%string then Ret (None, r)
  else
    err <- perform (os_RemoveAll (Result.tempDir r)) ;;
    match err with
    | Some err => Ret (Some err, r)
    | None =>
        Ret (None,
             Result.mk (Result.PreprocessedAudioPath r) (Result.TextPath r)
                       (Result.Transcript r) (Result.Logs r) "")
    end.

(** The outcome of [cmd.Run()] of [os/exec], which [execRunner.Run]
    turns into its result: success, a process that ran and did not
    exit successfully ([*exec.ExitError], with its state text and exit
    code), or any other error (the command could not be started, the
    context was already done, ...). *)
Inductive cmdOutcome : Type :=
| cmdOk
| cmdExitError (state : string) (code : Z)
| cmdError (err : error).

(** [execRunner.Run], given what the process wrote and how [cmd.Run()]
    ended. *)
Definition execRunner_Run (stdout stderr : string) (outcome : cmdOutcome)
  : commandResult.t * option error :=
  match outcome with
  | cmdOk => (commandResult.mk stdout stderr 0, None)
  | cmdExitError state code =>
      (commandResult.mk stdout stderr code, Some (ExitError state code))
  | cmdError err => (commandResult.mk stdout stderr (-1), Some err)
  end.

(** [Pipeline]: the two tool paths; its injected functions are the
    effects above. *)
Record Pipeline := mkPipeline {
  ffmpegPath : string;
  whisperPath : string
}.

Definition NewPipeline : Pipeline := mkPipeline "ffmpeg" "whisper.cpp".

Definition NewPipelineForTests (ffmpegPath whisperPath : string) : Pipeline :=
  mkPipeline ffmpegPath whisperPath.

Definition emitStage (cb : bool) (stage : string) : Prog Eff unit :=
  if cb then perform (OnStage stage) else Ret tt.

Definition emitLog (cb : bool) (log : CommandLog) : Prog Eff unit :=
  if cb then perform (OnLog log) else Ret tt.

(** The test of the loop of [resolveModelPath] on one entry. *)
Definition isModelFile (entry : DirEntry.t) : bool :=
  if DirEntry.IsDir entry then false
  else
    let ext := strings.ToLower (filepath.Ext (DirEntry.Name entry)) in
    (ext =? ".bin")%string || (ext =? ".gguf")%string.

(** Byte-wise comparison of strings, the order of [sort.Strings]. *)
Fixpoint string_leb (s t : string) : bool :=
  match s, t with
  | EmptyString, _ => true
  | String _ _, EmptyString => false
  | String a s', String b t' =>
      if (strings.byte a <? strings.byte b)%N then true
      else if (strings.byte b <? strings.byte a)%N then false
      else string_leb s' t'
  end.

Fixpoint insert (x : string) (l : list string) : list string :=
  match l with
  | [] => [x]
  | y :: l' => if string_leb x y then x :: l else y :: insert x l'
  end.

(** [sort.Strings]: the names in increasing order (which sorting
    algorithm the library runs does not show in the result, a list of
    strings having one sorted arrangement). *)
Definition sort_Strings (l : list string) : list string :=
  fold_right insert [] l.

Definition resolveModelPath (rawPath : string) : Prog Eff (string + error) :=
  let modelPath := strings.TrimSpace rawPath in
  if (modelPath =? "")%string then
    Ret (inr (errorString "model path is required"))
  else
    info <- perform (stat modelPath) ;;
    match info with
    | inr _ =>
        Ret (inr (errorString ("cannot access model path: " +++ modelPath)))
    | inl info =>
        if negb (FileInfo.IsDir info) then Ret (inl modelPath)
        else
          entries <- perform (readDir modelPath) ;;
          match entries with
          | inr _ =>
              Ret (inr (errorString
                          ("cannot read model directory: " +++ modelPath)))
          | inl entries =>
              let modelNames :=
                map DirEntry.Name (filter isModelFile entries) in
              match sort_Strings modelNames with
              | [] =>
                  Ret (inr (errorString
                              ("no .bin or .gguf model files found in: "
                                 +++ modelPath)))
              | first :: _ => Ret (inl (filepath.Join modelPath first))
              end
          end
    end.

Definition normalizeLanguage (raw : string) : string :=
  let lang := strings.TrimSpace raw in
  if (lang =? "")%string || strings.EqualFold lang "auto" then "" else lang.

Definition buildFFmpegArgs (inputPath outPath : string) : list string :=
  [ "-hide_banner"; "-nostdin"; "-y"; "-i"; inputPath; "-vn";
    "-ac"; "1"; "-ar"; "16000"; "-c:a"; "pcm_s16le"; outPath ].

Definition buildWhisperArgs (modelPath audioPath textBase language : string)
  : list string :=
  let args := [ "-m"; modelPath; "-f"; audioPath; "-of"; textBase; "-otxt" ] in
  let lang := normalizeLanguage language in
  if negb (lang =? "")%string then args ++ [ "-l"; lang ] else args.

(** The seven arguments every transcription command starts with. *)
Definition whisperBase (modelPath audioPath textBase : string) : list string :=
  [ "-m"; modelPath; "-f"; audioPath; "-of"; textBase; "-otxt" ].

Definition transcriptFileName (inputPath : string) : string :=
  let base := filepath.Base inputPath in
  let name :=
    strings.TrimSpace (strings.TrimSuffix base (filepath.Ext base)) in
  let name :=
    if (name =? "")%string || (name =? ".")%string
       || (name =? String filepath.Separator "")%string
    then "transcript" else name in
  name +++ ".txt".

(** A failed [Run]: the zero [Result] and a [*PipelineError]. *)
Definition fail (stage message : string) (log : CommandLog)
           (cause : option error) : Prog Eff (Result.t * option error) :=
  Ret (Result.zero, Some (PipelineError stage message log cause)).

Definition Run (p : Pipeline) (ctx : Context) (req : Request.t)
  : Prog Eff (Result.t * option error) :=
  if (strings.TrimSpace (Request.InputPath req) =? "")%string then
    fail "preprocessing" "input media path is required" noCommandLog None
  else
  info <- perform (stat (Request.InputPath req)) ;;
  match info with
  | inr err =>
      fail "preprocessing"
           ("cannot access input media: " +++ Request.InputPath req)
           noCommandLog (Some err)
  | inl _ =>
  resolved <- resolveModelPath (Request.ModelPath req) ;;
  match resolved with
  | inr err => fail "transcribing" (Error err) noCommandLog (Some err)
  | inl modelPath =>
  if (strings.TrimSpace (Request.OutputDir req) =? "")%string then
    fail "exporting" "output directory is required" noCommandLog None
  else
  err <- perform (mkdirAll (Request.OutputDir req) 493) ;;
  match err with
  | Some err =>
      fail "exporting"
           ("cannot create output directory: " +++ Request.OutputDir req)
           noCommandLog (Some err)
  | None =>
  created <- perform (mkdirTemp "" "media-transcriber-*") ;;
  match created with
  | inr err =>
      fail "preprocessing" "failed to create temporary workspace"
           noCommandLog (Some err)
  | inl tempDir =>
  let outPath := filepath.Join tempDir "preprocessed-16k-mono.wav" in
  emitStage (Request.OnStage req) "preprocessing" ;;
  let args := buildFFmpegArgs (Request.InputPath req) outPath in
  ran <- perform (runner_Run ctx (ffmpegPath p) args) ;;
  let (cmdResult, runErr) := ran : commandResult.t * option error in
  let log :=
    mkCommandLog (ffmpegPath p) args (commandResult.ExitCode cmdResult)
                 (commandResult.Stdout cmdResult)
                 (commandResult.Stderr cmdResult) in
  emitLog (Request.OnLog req) log ;;
  match runErr with
  | Some runErr =>
      perform (removeAll tempDir) ;;
      fail "preprocessing" "ffmpeg audio conversion failed" log (Some runErr)
  | None =>
  info <- perform (stat outPath) ;;
  match info with
  | inr err =>
      perform (removeAll tempDir) ;;
      fail "preprocessing" "ffmpeg completed but output file is missing"
           log (Some err)
  | inl _ =>
  let textPath :=
    filepath.Join (Request.OutputDir req)
                  (transcriptFileName (Request.InputPath req)) in
  let textBase := strings.TrimSuffix textPath (filepath.Ext textPath) in
  emitStage (Request.OnStage req) "transcribing" ;;
  let whisperArgs :=
    buildWhisperArgs modelPath outPath textBase (Request.Language req) in
  ran <- perform (runner_Run ctx (whisperPath p) whisperArgs) ;;
  let (whisperResult, runErr) := ran : commandResult.t * option error in
  let whisperLog :=
    mkCommandLog (whisperPath p) whisperArgs
                 (commandResult.ExitCode whisperResult)
                 (commandResult.Stdout whisperResult)
                 (commandResult.Stderr whisperResult) in
  emitLog (Request.OnLog req) whisperLog ;;
  match runErr with
  | Some runErr =>
      perform (removeAll tempDir) ;;
      fail "transcribing" "whisper.cpp transcription failed"
           whisperLog (Some runErr)
  | None =>
  info <- perform (stat textPath) ;;
  match info with
  | inr err =>
      perform (removeAll tempDir) ;;
      fail "exporting"
           "whisper.cpp completed but transcript .txt file is missing"
           whisperLog (Some err)
  | inl _ =>
  emitStage (Request.OnStage req) "exporting" ;;
  content <- perform (readFile textPath) ;;
  match content with
  | inr err =>
      perform (removeAll tempDir) ;;
      fail "exporting" ("failed to read transcript file: " +++ textPath)
           whisperLog (Some err)
  | inl content =>
      Ret (Result.mk outPath textPath (strings.TrimSpace content)
                     [log; whisperLog] tempDir,
           None)
  end end end end end end end end end.

(** *** Observations on a trace of a pipeline *)

(** The directories the successful [mkdirTemp] calls returned. *)
Fixpoint created (tr : list (call Eff)) : list string :=
  match tr with
  | [] => []
  | Call e x :: tr' =>
      match e in Eff X return X -> list string with
      | mkdirTemp _ _ => fun x =>
          match x with
          | inl dir => dir :: created tr'
          | inr _ => created tr'
          end
      | _ => fun _ => created tr'
      end x
  end.

(** The paths [removeAll] was called on. *)
Fixpoint removed (tr : list (call Eff)) : list string :=
  match tr with
  | [] => []
  | Call e _ :: tr' =>
      match e with
      | removeAll path => path :: removed tr'
      | _ => removed tr'
      end
  end.

(** The commands run, each with its arguments and the runner's
    answer. *)
Fixpoint ran (tr : list (call Eff))
  : list (string * list string * commandResult.t * option error) :=
  match tr with
  | [] => []
  | Call e x :: tr' =>
      match e in Eff X
            return X -> list (string * list string * commandResult.t
                              * option error) with
      | runner_Run _ name args => fun x =>
          (name, args, fst x, snd x) :: ran tr'
      | _ => fun _ => ran tr'
      end x
  end.

(** The [CommandLog] that [Run] builds from a runner's result. *)
Definition logOf (command : string) (args : list string)
           (result : commandResult.t) : CommandLog :=
  mkCommandLog command args (commandResult.ExitCode result)
               (commandResult.Stdout result) (commandResult.Stderr result).

End transcribe.

(** ** A test double for the pipeline's dependencies

    The tests of the repository run the pipeline against a temporary
    directory and a scripted command runner.  [World] is that set-up as
    a value: the files and directories that exist, what a directory
    lists, what the next runner calls answer (and which files the tool
    leaves behind), and the name the next temporary directory gets. *)

Module fake.

Import transcribe.

Record World := mkWorld {
  files : list (string * string);
  dirs : list string;
  listing : list (string * list DirEntry.t);
  script : list (commandResult.t * option error * list (string * string));
  temp : string
}.

Fixpoint lookup {A} (key : string) (l : list (string * A)) : option A :=
  match l with
  | [] => None
  | (k, v) :: l' => if (k =? key)%string then Some v else lookup key l'
  end.

Definition notExist : error := errorString "no such file or directory".

(** [path] is [root] or lies below it. *)
Definition below (root path : string) : bool :=
  (path =? root)%string || strings.HasPrefix path (root +++ "/").

Definition remove (root : string) (w : World) : World :=
  mkWorld (filter (fun f => negb (below root (fst f))) (files w))
          (filter (fun d => negb (below root d)) (dirs w))
          (listing w) (script w) (temp w).

Definition handle : handler Eff World :=
  fun X e =>
    match e in Eff X return World -> X * World with
    | stat name => fun w =>
        if existsb (String.eqb name) (dirs w)
        then (inl (FileInfo.mk true), w)
        else match lookup name (files w) with
             | Some _ => (inl (FileInfo.mk false), w)
             | None => (inr notExist, w)
             end
    | mkdirAll path _ => fun w =>
        (None, mkWorld (files w) (path :: dirs w) (listing w) (script w)
                       (temp w))
    | mkdirTemp _ _ => fun w =>
        (inl (temp w),
         mkWorld (files w) (temp w :: dirs w) (listing w) (script w)
                 (temp w +++ "+"))
    | removeAll path => fun w => (None, remove path w)
    | os_RemoveAll path => fun w => (None, remove path w)
    | readDir name => fun w =>
        match lookup name (listing w) with
        | Some entries => (inl entries, w)
        | None => (inr notExist, w)
        end
    | readFile name => fun w =>
        match lookup name (files w) with
        | Some content => (inl content, w)
        | None => (inr notExist, w)
        end
    | runner_Run _ _ _ => fun w =>
        match script w with
        | [] => ((commandResult.zero, None), w)
        | (result, err, written) :: rest =>
            ((result, err),
             mkWorld (written ++ files w) (dirs w) (listing w) rest (temp w))
        end
    | OnStage _ => fun w => (tt, w)
    | OnLog _ => fun w => (tt, w)
    end.



End fake.

(** ** Package bootstrap: the orchestration *)

Module bootstrap.

Import jobs.
Import transcribe.

(** Replacing the callback effects of a program by programs over
    another signature. *)
Fixpoint interp {E F : Type -> Type} {R : Type}
         (f : forall X, E X -> Prog F X) (p : Prog E R) : Prog F R :=
  match p with
  | Ret r => Ret r
  | Vis e k => bind (f _ e) (fun x => interp f (k x))
  end.

(** What the methods of [App] do to the state they share, one effect
    per critical section, and what they ask of the outside: the
    settings store, the clock, the Wails runtime, and the dependencies
    of the pipeline. *)
Inductive Eff : Type -> Type :=
| Jobs_Start (jobID : string) : Eff (option error)
| Jobs_Transition (status : JobStatus) : Eff (option error)
| Jobs_Cancel : Eff (option error)
| Jobs_Current : Eff Job
| events_Publish (event : Event.t) : Eff Event.t
| events_Since (seq : Z) : Eff (list Event.t)
| lockSetActive (jobID : string) (cancel : Context) : Eff unit
    (** [a.activeJobID = jobID; a.cancel = cancel] under [a.mu] *)
| lockGetActive : Eff (option Context * string)
    (** [cancel := a.cancel; activeJobID := a.activeJobID] under [a.mu] *)
| lockClearActive (jobID : string) : Eff unit
    (** the body of [clearActiveJob] *)
| setSettings (settings : Settings) : Eff unit
| lockSetRuntimeCtx (set : bool) : Eff unit
| lockGetRuntimeCtx : Eff bool
    (** [ctx := a.runtimeCtx] under [a.mu]; the answer is [ctx != nil] *)
| EventsEmit (event : Event.t) : Eff unit
    (** [wailsruntime.EventsEmit(ctx, "job:event", event)] *)
| Store_Load : Eff (Settings * option error)
| time_Now : Eff Z
    (** [time.Now().UnixNano()] *)
| context_WithCancel : Eff Context
| cancel (ctx : Context) : Eff unit
| go_runTranscriptionJob (ctx : Context) (jobID inputPath : string)
                         (settings : Settings) : Eff unit
    (** the [go] statement of [StartTranscription] *)
| Dep {X : Type} (e : transcribe.Eff X) : Eff X.
    (** a call of the pipeline to one of its dependencies *)

Definition mapStageToStatus (stage : string) : JobStatus * bool :=
  if (stage =? "preprocessing")%string then (JobStatusPreprocessing, true)
  else if (stage =? "transcribing")%string then (JobStatusTranscribing, true)
  else if (stage =? "exporting")%string then (JobStatusExporting, true)
  else ("", false).

Definition publishEvent (event : Event.t) : Prog Eff unit :=
  published <- perform (events_Publish event) ;;
  ctx <- perform lockGetRuntimeCtx ;;
  if ctx : bool then perform (EventsEmit published) else Ret tt.

Definition publishStatus (jobID : string) (status : JobStatus)
           (message : string) : Prog Eff unit :=
  publishEvent
    (Event.mk 0 0 jobID EventTypeStatus status message "" [] 0 "" "" "").

Definition clearActiveJob (jobID : string) : Prog Eff unit :=
  perform (lockClearActive jobID).

(** [errors.As(err, &pipelineErr)]: the first [*PipelineError] on the
    [Unwrap] chain, as its command log. *)
Fixpoint errors_As_PipelineError (e : error) : option CommandLog :=
  match e with
  | PipelineError _ _ log _ => Some log
  | wrapError _ inner => errors_As_PipelineError inner
  | _ => None
  end.

(** The event [OnLog] and the failure branch publish for a command. *)
Definition logEvent (jobID message : string) (log : CommandLog) : Event.t :=
  Event.mk 0 0 jobID EventTypeLog "" message (Command log) (Args log)
           (ExitCode log) (Stdout log) (Stderr log) "".

(** The two closures [runTranscriptionJob] puts in the request, and
    the pipeline's other calls handed on as they are. *)
Definition callbacks (jobID : string)
  : forall X, transcribe.Eff X -> Prog Eff X :=
  fun X e =>
    match e in transcribe.Eff X return Prog Eff X with
    | OnStage stage =>
        let (status, ok) := mapStageToStatus stage in
        if negb ok then Ret tt
        else
          err <- perform (Jobs_Transition status) ;;
          match err with
          | None => publishStatus jobID status ("Running " +++ stage +++ " stage")
          | Some _ => Ret tt
          end
    | OnLog log => publishEvent (logEvent jobID "Command completed" log)
    | e => perform (Dep e)
    end.

Section WithPipeline.

(** [a.Pipeline], the [pipelineRunner] of the application: any program
    over the dependencies and the two callbacks. *)
Variable Pipeline_Run :
  Context -> Request.t -> Prog transcribe.Eff (Result.t * option error).

Definition runTranscriptionJob (ctx : Context) (jobID inputPath : string)
           (settings : Settings) : Prog Eff unit :=
  let req :=
    Request.mk inputPath (ModelPath settings) (Language settings)
               (OutputDir settings) true true in
  ran <- interp (callbacks jobID) (Pipeline_Run ctx req) ;;
  let (result, err) := ran : Result.t * option error in
  match err with
  | Some err =>
      if errors_Is isCanceled err then
        perform (Jobs_Transition JobStatusCancelled) ;;
        publishStatus jobID JobStatusCancelled "Job cancelled" ;;
        clearActiveJob jobID
      else
        perform (Jobs_Transition JobStatusFailed) ;;
        publishStatus jobID JobStatusFailed "Job failed" ;;
        publishEvent
          (Event.mk 0 0 jobID EventTypeError JobStatusFailed (Error err)
                    "" [] 0 "" "" "") ;;
        match errors_As_PipelineError err with
        | Some log =>
            if negb (Command log =? "")%string
            then publishEvent (logEvent jobID "Failed command" log)
            else Ret tt
        | None => Ret tt
        end ;;
        clearActiveJob jobID
  | None =>
      cleaned <- interp (callbacks jobID) (Cleanup result) ;;
      match fst cleaned with
      | Some cleanupErr =>
          publishEvent
            (Event.mk 0 0 jobID EventTypeError ""
                      ("cleanup temporary files: " +++ Error cleanupErr)
                      "" [] 0 "" "" "")
      | None => Ret tt
      end ;;
      err <- perform (Jobs_Transition JobStatusDone) ;;
      match err with
      | None => publishStatus jobID JobStatusDone "Job completed"
      | Some _ => Ret tt
      end ;;
      publishEvent
        (Event.mk 0 0 jobID EventTypeResult JobStatusDone
                  "Transcript exported" "" [] 0 "" "" (Result.TextPath result)) ;;
      clearActiveJob jobID
  end.

End WithPipeline.

(** The zero value [domain.Job{}]. *)
Definition noJob : Job := mkJob "" "".

Definition StartTranscription (inputPath : string)
  : Prog Eff (Job * option error) :=
  loaded <- perform Store_Load ;;
  let (settings, err) := loaded : Settings * option error in
  match err with
  | Some err =>
      Ret (noJob, Some (wrapError ("load settings: " +++ Error err) err))
  | None =>
      now <- perform time_Now ;;
      let jobID := "job-" +++ itoa now in
      err <- perform (Jobs_Start jobID) ;;
      match err with
      | Some err => Ret (noJob, Some err)
      | None =>
          ctx <- perform context_WithCancel ;;
          perform (lockSetActive jobID ctx) ;;
          perform (setSettings settings) ;;
          publishStatus jobID JobStatusPreprocessing "Job started" ;;
          perform (go_runTranscriptionJob ctx jobID inputPath settings) ;;
          job <- perform Jobs_Current ;;
          Ret (job, None)
      end
  end.

Definition CancelTranscription : Prog Eff (option error) :=
  active <- perform lockGetActive ;;
  let (cancelFn, activeJobID) := active : option Context * string in
  match cancelFn with
  | None => Ret (Some ErrNoRunningJob)
  | Some ctx =>
      perform (cancel ctx) ;;
      err <- perform Jobs_Cancel ;;
      let published :=
        (if negb (activeJobID =? "")%string
         then publishStatus activeJobID JobStatusCancelled
                            "Cancellation requested"
         else Ret tt) ;;
        Ret None in
      match err with
      | Some err =>
          if negb (errors_Is isErrNoRunningJob err) then Ret (Some err)
          else published
      | None => published
      end
  end.

Definition CurrentJob : Prog Eff Job := perform Jobs_Current.

Definition JobEvents (sinceSeq : Z) : Prog Eff (list Event.t) :=
  perform (events_Since sinceSeq).

Definition Startup : Prog Eff unit := perform (lockSetRuntimeCtx true).

(** The [OnShutdown] hook. *)
Definition Shutdown : Prog Eff unit := perform (lockSetRuntimeCtx false).

(** *** The running application *)

(** The fields of [App] that the operations above share. *)
Record App := mkApp {
  Settings_ : Settings;
  Jobs : Manager;
  activeJobID : string;
  cancelFn : option Context;
  events : EventBus;
  runtimeCtx : bool
}.

(** A thread of control with the rest of its program. *)
Inductive thread : Type :=
| Thread {R : Type} (p : Prog Eff R).

(** The application at some instant: the shared fields, the contexts
    created and cancelled so far, the caller-facing task with the
    operation it is in (if any), and the goroutines started by
    [StartTranscription], each labelled with its job id.  [published]
    and [started] are history variables: every event [Publish]
    returned, in order, and every job id [Jobs.Start] accepted;
    [emitted] is what was pushed to the Wails runtime. *)
Record State := mkState {
  app : App;
  nextCtx : Context;
  cancelled : list Context;
  published : list Event.t;
  emitted : list Event.t;
  started : list string;
  caller : option thread;
  tasks : list (string * Prog Eff unit)
}.

Definition init (maxEvents : Z) : State :=
  mkState (mkApp (mkSettings "" "" "") NewManager "" None
                 (NewEventBus maxEvents) false)
          1%nat [] [] [] [] None [].

Definition with_app (a : App) (s : State) : State :=
  mkState a (nextCtx s) (cancelled s) (published s) (emitted s) (started s)
          (caller s) (tasks s).

Definition with_Jobs (m : Manager) (a : App) : App :=
  mkApp (Settings_ a) m (activeJobID a) (cancelFn a) (events a)
        (runtimeCtx a).

Definition with_active (jobID : string) (c : option Context) (a : App) : App :=
  mkApp (Settings_ a) (Jobs a) jobID c (events a) (runtimeCtx a).

(** The answers of the outside world at one step: of the pipeline's
    dependencies, of the settings store, and of the clock (as
    [UnixNano] and as a [time.Time]). *)
Record Oracle := mkOracle {
  dep : forall X, transcribe.Eff X -> X;
  load : Settings * option error;
  unixNano : Z;
  now : Time
}.

Section WithPipeline.

Variable Pipeline_Run :
  Context -> Request.t -> Prog transcribe.Eff (Result.t * option error).

(** The effect of one critical section or outside call on the state,
    and its answer. *)
Definition handle (o : Oracle) {X : Type} (e : Eff X) (s : State)
  : X * State :=
  let a := app s in
  match e in Eff X return X * State with
  | Jobs_Start jobID =>
      let (err, m) := Start jobID (Jobs a) in
      (err,
       mkState (with_Jobs m a) (nextCtx s) (cancelled s) (published s)
               (emitted s)
               (match err with
                | None => started s ++ [jobID]
                | Some _ => started s
                end)
               (caller s) (tasks s))
  | Jobs_Transition status =>
      let (err, m) := Transition status (Jobs a) in
      (err, with_app (with_Jobs m a) s)
  | Jobs_Cancel =>
      let (err, m) := Cancel (Jobs a) in
      (err, with_app (with_Jobs m a) s)
  | Jobs_Current => (Current (Jobs a), s)
  | events_Publish event =>
      let (event, b) := Publish (now o) event (events a) in
      (event,
       mkState (mkApp (Settings_ a) (Jobs a) (activeJobID a) (cancelFn a) b
                      (runtimeCtx a))
               (nextCtx s) (cancelled s) (published s ++ [event])
               (emitted s) (started s) (caller s) (tasks s))
  | events_Since seq => (Since seq (events a), s)
  | lockSetActive jobID c => (tt, with_app (with_active jobID (Some c) a) s)
  | lockGetActive => ((cancelFn a, activeJobID a), s)
  | lockClearActive jobID =>
      (tt,
       if (activeJobID a =? jobID)%string
       then with_app (with_active "" None a) s
       else s)
  | setSettings settings =>
      (tt,
       with_app (mkApp settings (Jobs a) (activeJobID a) (cancelFn a)
                       (events a) (runtimeCtx a)) s)
  | lockSetRuntimeCtx set =>
      (tt,
       with_app (mkApp (Settings_ a) (Jobs a) (activeJobID a) (cancelFn a)
                       (events a) set) s)
  | lockGetRuntimeCtx => (runtimeCtx a, s)
  | EventsEmit event =>
      (tt,
       mkState a (nextCtx s) (cancelled s) (published s)
               (emitted s ++ [event]) (started s) (caller s) (tasks s))
  | Store_Load => (load o, s)
  | time_Now => (unixNano o, s)
  | context_WithCancel =>
      (nextCtx s,
       mkState a (S (nextCtx s)) (cancelled s) (published s) (emitted s)
               (started s) (caller s) (tasks s))
  | cancel ctx =>
      (tt,
       mkState a (nextCtx s) (ctx :: cancelled s) (published s) (emitted s)
               (started s) (caller s) (tasks s))
  | go_runTranscriptionJob ctx jobID inputPath settings =>
      (tt,
       mkState a (nextCtx s) (cancelled s) (published s) (emitted s)
               (started s) (caller s)
               (tasks s
                ++ [(jobID,
                     runTranscriptionJob Pipeline_Run ctx jobID inputPath
                                         settings)]))
  | Dep e => (dep o _ e, s)
  end.

(** The operations the caller-facing task can begin. *)
Inductive Api : Type :=
| apiStartTranscription (inputPath : string)
| apiCancelTranscription
| apiCurrentJob
| apiJobEvents (sinceSeq : Z)
| apiStartup
| apiShutdown.

Definition program (api : Api) : thread :=
  match api with
  | apiStartTranscription inputPath => Thread (StartTranscription inputPath)
  | apiCancelTranscription => Thread CancelTranscription
  | apiCurrentJob => Thread CurrentJob
  | apiJobEvents sinceSeq => Thread (JobEvents sinceSeq)
  | apiStartup => Thread Startup
  | apiShutdown => Thread Shutdown
  end.

(** The caller-facing task is between two operations. *)
Definition idle (s : State) : bool :=
  match caller s with
  | None => true
  | Some (Thread (Ret _)) => true
  | Some (Thread (Vis _ _)) => false
  end.

Definition with_caller (t : thread) (s : State) : State :=
  mkState (app s) (nextCtx s) (cancelled s) (published s) (emitted s)
          (started s) (Some t) (tasks s).

Fixpoint replace {A} (i : nat) (x : A) (l : list A) : list A :=
  match l, i with
  | [], _ => []
  | _ :: l', O => x :: l'
  | y :: l', S i' => y :: replace i' x l'
  end.

Definition with_task (i : nat) (t : string * Prog Eff unit) (s : State)
  : State :=
  mkState (app s) (nextCtx s) (cancelled s) (published s) (emitted s)
          (started s) (caller s) (replace i t (tasks s)).

(** What happens next: the caller-facing task begins an operation (it
    runs one operation at a time), or it or one of the goroutines
    takes its next step, with the outside world's answers.  The
    methods of [App] are not serialised by the code: runs in which one
    call begins before another has returned are not among these
    schedules. *)
Inductive Choice : Type :=
| begin (api : Api)
| callerStep (o : Oracle)
| taskStep (i : nat) (o : Oracle).

Definition step (c : Choice) (s : State) : option State :=
  match c with
  | begin api =>
      if idle s then Some (with_caller (program api) s) else None
  | callerStep o =>
      match caller s with
      | Some (Thread (Vis e k)) =>
          let (x, s) := handle o e s in
          Some (with_caller (Thread (k x)) s)
      | _ => None
      end
  | taskStep i o =>
      match nth_error (tasks s) i with
      | Some (jobID, Vis e k) =>
          let (x, s) := handle o e s in
          Some (with_task i (jobID, k x) s)
      | _ => None
      end
  end.

Fixpoint run (cs : list Choice) (s : State) : option State :=
  match cs with
  | [] => Some s
  | c :: cs' =>
      match step c s with
      | Some s' => run cs' s'
      | None => None
      end
  end.

(** The states of an application created with an event bus of
    [maxEvents]. *)
Inductive reachable (maxEvents : Z) : State -> Prop :=
| reach_init : reachable maxEvents (init maxEvents)
| reach_step c s s' :
    reachable maxEvents s -> step c s = Some s' -> reachable maxEvents s'.

End WithPipeline.

(** *** What a thread may still do *)

(** The event that announces a job: the status event of
    [StartTranscription]. *)
Definition isStart (jobID : string) (e : Event.t) : Prop :=
  Event.JobID e = jobID
  /\ Event.Type_ e = EventTypeStatus
  /\ Event.Status e = JobStatusPreprocessing
  /\ Event.Message e = "Job started".

(** The events of a history that carry a job id. *)
Definition eventsOf (jobID : string) (h : list Event.t) : list Event.t :=
  filter (fun e => (Event.JobID e =? jobID)%string) h.

(** The job has been announced in the history [h]: the first event
    that carries its id is its start event. *)
Definition announced (h : list Event.t) (jobID : string) : Prop :=
  exists e0 rest, eventsOf jobID h = e0 :: rest /\ isStart jobID e0.

(** Where a thread stands: a goroutine of job [jobID]; the
    caller-facing task, in general; or the caller-facing task inside
    [StartTranscription], between the success of [Jobs.Start jobID]
    and the publication of the start event. *)
Inductive mode : Type :=
| Task (jobID : string)
| Caller
| Pending (jobID : string).

(** What one effect requires in a mode, given what the continuation
    requires ([c], for each mode, set of announced jobs and answer).
    [S] is the set of job ids known to be announced.  A goroutine
    publishes only events of its own job and starts nothing; the
    caller publishes only for announced jobs (the active job id it
    reads is one, or empty) and starts a goroutine only for an
    announced job; after [Jobs.Start] succeeds it may only create the
    context, record the active job and store the settings before it
    publishes the start event. *)
Definition okEff {X : Type} (m : mode) (S : string -> Prop) (e : Eff X)
           (c : mode -> (string -> Prop) -> X -> Prop) : Prop :=
  match m with
  | Task j =>
      match e in Eff X return (X -> Prop) -> Prop with
      | events_Publish ev => fun c => Event.JobID ev = j /\ forall x, c x
      | Jobs_Start _ => fun _ => False
      | lockSetActive _ _ => fun _ => False
      | lockGetActive => fun _ => False
      | go_runTranscriptionJob _ _ _ _ => fun _ => False
      | _ => fun c => forall x, c x
      end (c (Task j) S)
  | Caller =>
      match e in Eff X
            return (mode -> (string -> Prop) -> X -> Prop) -> Prop with
      | events_Publish ev => fun c =>
          S (Event.JobID ev) /\ forall x, c Caller S x
      | Jobs_Start j => fun c =>
          (forall err, c Caller S (Some err)) /\ c (Pending j) S None
      | lockSetActive _ _ => fun _ => False
      | lockGetActive => fun c =>
          forall cf id,
            c Caller (fun i => S i \/ (i = id /\ id <> "")) (cf, id)
      | go_runTranscriptionJob _ j _ _ => fun c =>
          S j /\ forall x, c Caller S x
      | _ => fun c => forall x, c Caller S x
      end c
  | Pending j =>
      match e in Eff X
            return (mode -> (string -> Prop) -> X -> Prop) -> Prop with
      | events_Publish ev => fun c =>
          isStart j ev /\ forall x, c Caller (fun i => S i \/ i = j) x
      | lockSetActive j' _ => fun c => j' = j /\ forall x, c (Pending j) S x
      | context_WithCancel => fun c => forall x, c (Pending j) S x
      | setSettings _ => fun c => forall x, c (Pending j) S x
      | _ => fun _ => False
      end c
  end.

(** The rest of a thread's program keeps to its mode. *)
Fixpoint ok {R : Type} (m : mode) (S : string -> Prop) (p : Prog Eff R)
  : Prop :=
  match p with
  | Ret _ => match m with Pending _ => False | _ => True end
  | Vis e k => okEff m S e (fun m' S' x => ok m' S' (k x))
  end.




(** The bus holds the end of the history, and every event of the
    history carries the id of an announced job that [Jobs.Start]
    accepted. *)
Definition histOk (s : State) : Prop :=
  tracks (events (app s)) (published s)
  /\ forall e, In e (published s) ->
     announced (published s) (Event.JobID e)
     /\ In (Event.JobID e) (started s).


End bootstrap.

(** ** A run of the application

    The run the repository's tests drive by hand: a job is started on
    the production pipeline, the conversion succeeds, and while the
    transcription command is running the caller cancels. *)

Module scenario.

Import jobs.

Import transcribe.
Import bootstrap.

(** Dependencies that succeed: every path exists as a file, the
    commands exit with status 0. *)
Definition okDep : forall X, transcribe.Eff X -> X :=
  fun X e =>
    match e in transcribe.Eff X return X with
    | stat _ => inl (FileInfo.mk false)
    | mkdirAll _ _ => None
    | mkdirTemp _ _ => inl "/tmp/media-transcriber-1"
    | removeAll _ => None
    | readDir _ => inl []
    | readFile _ => inl "hello"
    | runner_Run _ _ _ => (commandResult.zero, None)
    | OnStage _ => tt
    | OnLog _ => tt
    | os_RemoveAll _ => None
    end.

(** The same, with the command runner answering as [execRunner.Run]
    does for the given end of [cmd.Run()]. *)
Definition runnerDep (outcome : cmdOutcome) : forall X, transcribe.Eff X -> X :=
  fun X e =>
    match e in transcribe.Eff X return X with
    | runner_Run _ _ _ => execRunner_Run "" "" outcome
    | e => okDep _ e
    end.

Definition settings : Settings := mkSettings "/m/model.bin" "/out" "auto".

Definition world : Oracle := mkOracle okDep (settings, None) 1 1700.

Definition worldWhere (outcome : cmdOutcome) : Oracle :=
  mkOracle (runnerDep outcome) (settings, None) 1 1700.

(** The application with the production pipeline. *)
Definition production :
  Context -> Request.t -> Prog transcribe.Eff (Result.t * option error) :=
  Run NewPipeline.

(** [StartTranscription] runs to its return; the goroutine runs until
    the transcription command has been started. *)
Definition untilTranscribing : list Choice :=
  [begin (apiStartTranscription "/in/clip.mp4")]
  ++ repeat (callerStep world) 10
  ++ repeat (taskStep 0 world) 14.

(** [CancelTranscription] runs to its return. *)
Definition cancelling : list Choice :=
  [begin apiCancelTranscription] ++ repeat (callerStep world) 5.

(** The transcription command ends with [outcome] and the goroutine
    takes [n] more steps. *)
Definition afterwards (outcome : cmdOutcome) (n : nat) : list Choice :=
  [taskStep 0 (worldWhere outcome)] ++ repeat (taskStep 0 world) n.

(** The goroutine of the job has run to its end. *)
Definition finished (s : State) : bool :=
  forallb (fun t => match snd t with Ret _ => true | Vis _ _ => false end)
          (tasks s).

(** The state after a schedule, from a new application whose bus holds
    100 events (as in the tests); the initial state if the schedule
    cannot be run. *)
Definition after (cs : list Choice) : State :=
  match run production cs (init 100) with
  | Some s => s
  | None => init 100
  end.

(** What an event says, without its timestamp and command output. *)
Definition brief (e : Event.t) : Z * string * EventType * JobStatus * string :=
  (Event.Seq e, Event.JobID e, Event.Type_ e, Event.Status e,
   Event.Message e).

(** The next call of each goroutine: the command it is about to run,
    if that is what it waits for. *)
Definition waitingFor (s : State) : list (string * option string) :=
  map (fun t =>
         (fst t,
          match snd t with
          | Vis (Dep (runner_Run _ name _)) _ => Some name
          | _ => None
          end)) (tasks s).

End scenario.


(** ** Further observations *)

Module observe.

Import jobs.
Import transcribe.
Import bootstrap.

(** The stages a pipeline announced through the [OnStage] callback, in
    order. *)
Fixpoint stages (tr : list (call transcribe.Eff)) : list string :=
  match tr with
  | [] => []
  | Call e _ :: tr' =>
      match e with
      | OnStage stage => stage :: stages tr'
      | _ => stages tr'
      end
  end.

(** The command logs a pipeline handed to the [OnLog] callback, in
    order. *)
Fixpoint logged (tr : list (call transcribe.Eff)) : list CommandLog :=
  match tr with
  | [] => []
  | Call e _ :: tr' =>
      match e with
      | OnLog log => log :: logged tr'
      | _ => logged tr'
      end
  end.

(** The paths [os.RemoveAll] was called on. *)
Fixpoint cleaned (tr : list (call transcribe.Eff)) : list string :=
  match tr with
  | [] => []
  | Call e _ :: tr' =>
      match e with
      | os_RemoveAll path => path :: cleaned tr'
      | _ => cleaned tr'
      end
  end.

(** The context each command was run under. *)
Fixpoint contexts (tr : list (call transcribe.Eff)) : list Context :=
  match tr with
  | [] => []
  | Call e _ :: tr' =>
      match e with
      | runner_Run ctx _ _ => ctx :: contexts tr'
      | _ => contexts tr'
      end
  end.

(** The errors the dependencies answered with, in order. *)
Fixpoint failures (tr : list (call transcribe.Eff)) : list error :=
  match tr with
  | [] => []
  | Call e x :: tr' =>
      match e in transcribe.Eff X return X -> list error with
      | stat _ => fun x =>
          match x with inr err => [err] | inl _ => [] end
      | mkdirAll _ _ => fun x =>
          match x with Some err => [err] | None => [] end
      | mkdirTemp _ _ => fun x =>
          match x with inr err => [err] | inl _ => [] end
      | removeAll _ => fun x =>
          match x with Some err => [err] | None => [] end
      | readDir _ => fun x =>
          match x with inr err => [err] | inl _ => [] end
      | readFile _ => fun x =>
          match x with inr err => [err] | inl _ => [] end
      | runner_Run _ _ _ => fun x =>
          match snd x with Some err => [err] | None => [] end
      | OnStage _ => fun _ => []
      | OnLog _ => fun _ => []
      | os_RemoveAll _ => fun x =>
          match x with Some err => [err] | None => [] end
      end x ++ failures tr'
  end.

(** The logs of the commands run, as [Run] builds them. *)
Definition logs (tr : list (call transcribe.Eff)) : list CommandLog :=
  map (fun c : string * list string * commandResult.t * option error =>
         let '(name, args, result, _) := c in logOf name args result)
      (ran tr).

(** What a pipeline lets the outside see of its progress: a stage
    handed to [OnStage], a command handed to the runner, a log handed
    to [OnLog]. *)
Inductive mark : Type :=
| Stage (stage : string)
| Command_ (name : string)
| Logged (log : CommandLog).

(** The marks of a trace, in the order of the calls. *)
Fixpoint marks (tr : list (call transcribe.Eff)) : list mark :=
  match tr with
  | [] => []
  | Call e _ :: tr' =>
      match e with
      | OnStage stage => Stage stage :: marks tr'
      | runner_Run _ name _ => Command_ name :: marks tr'
      | OnLog log => Logged log :: marks tr'
      | _ => marks tr'
      end
  end.

(** The marks a request lets through: stages when [OnStage] is set,
    logs when [OnLog] is set, commands always. *)
Definition visible (req : Request.t) (m : mark) : bool :=
  match m with
  | Stage _ => Request.OnStage req
  | Command_ _ => true
  | Logged _ => Request.OnLog req
  end.

(** The stages of a pipeline, in the order it goes through them. *)
Definition allStages : list string :=
  ["preprocessing"; "transcribing"; "exporting"].

(** A byte of the string is a path separator. *)
Fixpoint hasSeparator (s : string) : bool :=
  match s with
  | EmptyString => false
  | String c s' => filepath.IsPathSeparator c || hasSeparator s'
  end.

(** An event as its publisher built it: without the sequence number
    and the timestamp that [Publish] assigns. *)
Definition payload (e : Event.t) : Event.t :=
  Event.with_Timestamp 0 (Event.with_Seq 0 e).

(** The events published between two states. *)
Definition news (s s' : State) : list Event.t :=
  skipn (List.length (published s)) (published s').

(** The events pushed to the Wails runtime between two states. *)
Definition pushed (s s' : State) : list Event.t :=
  skipn (List.length (emitted s)) (emitted s').

(** What the callbacks of the goroutine of job [jobID] may have done
    between two states: they published events of that job only, log
    events and status events of active statuses, each pushed to the
    runtime when a runtime context is set; the manager kept its job
    id; nothing else of the application changed. *)
Definition during (jobID : string) (s s' : State) : Prop :=
  (exists l,
     published s' = published s ++ l
     /\ emitted s' = emitted s ++ (if runtimeCtx (app s) then l else [])
     /\ Forall (fun e =>
                 Event.JobID e = jobID
                 /\ (Event.Type_ e = EventTypeLog
                     \/ Event.Type_ e = EventTypeStatus
                        /\ In (Event.Status e) active)) l)
  /\ ID (current (Jobs (app s'))) = ID (current (Jobs (app s)))
  /\ activeJobID (app s') = activeJobID (app s)
  /\ cancelFn (app s') = cancelFn (app s)
  /\ Settings_ (app s') = Settings_ (app s)
  /\ runtimeCtx (app s') = runtimeCtx (app s)
  /\ maxEvents (events (app s')) = maxEvents (events (app s))
  /\ nextCtx s' = nextCtx s
  /\ cancelled s' = cancelled s
  /\ started s' = started s
  /\ caller s' = caller s
  /\ tasks s' = tasks s.

Section WithPipeline.

Variable Pipeline_Run :
  Context -> Request.t -> Prog transcribe.Eff (Result.t * option error).

(** A thread running with no other thread in between: every effect
    acts on the state at once, the outside world answering the n-th
    call with its n-th answer. *)
Definition alone : handler bootstrap.Eff ((nat -> Oracle) * State) :=
  fun X e w =>
    let (x, s) := handle Pipeline_Run (fst w 0%nat) e (snd w) in
    (x, (fun n => fst w (S n), s)).


End WithPipeline.

End observe.
(** * Properties *)

Import jobs.

(** ** The job manager *)

Section ManagerFacts.

Local Open Scope string_scope.

Lemma statuses_cases (s : JobStatus) :
  In s statuses ->
  s = JobStatusIdle \/ s = JobStatusPreprocessing \/ s = JobStatusTranscribing
  \/ s = JobStatusExporting \/ s = JobStatusDone \/ s = JobStatusFailed
  \/ s = JobStatusCancelled.
Proof. simpl; intuition auto. Qed.

Lemma edge_edgeb (from to : JobStatus) : edge from to <-> edgeb from to = true.
Proof.
  unfold edge, edgeb. rewrite existsb_exists. split.
  - intros (row & Hin & Hto). exists (from, row). split; [exact Hin|].
    simpl. rewrite String.eqb_refl. simpl. apply existsb_exists.
    exists to. split; [exact Hto | apply String.eqb_refl].
  - intros ([f row] & Hin & H). simpl in H.
    apply andb_true_iff in H as [Hf Hrow]. apply String.eqb_eq in Hf. subst f.
    apply existsb_exists in Hrow as (t & Ht & Heq).
    apply String.eqb_eq in Heq. subst t. exists row. split; assumption.
Qed.

(** On the seven statuses, the code's [isValidTransition] is the table. *)
Lemma isValidTransition_table (from to : JobStatus) :
  In from statuses -> In to statuses ->
  isValidTransition from to = edgeb from to.
Proof.
  intros Hf Ht.
  apply statuses_cases in Hf. apply statuses_cases in Ht.
  repeat (destruct Hf as [Hf | Hf]); subst from;
    repeat (destruct Ht as [Ht | Ht]); subst to; reflexivity.
Qed.

(** Only the seven statuses are ever stored in a manager. *)
Lemma isValidTransition_status (from to : JobStatus) :
  isValidTransition from to = true -> In to statuses.
Proof.
  unfold isValidTransition, statuses.
  repeat match goal with
         | |- context [if ?b then _ else _] => destruct b
         end;
    intros H; try discriminate;
    repeat (apply orb_true_iff in H as [H | H]);
    apply String.eqb_eq in H; subst to; simpl; tauto.
Qed.

Lemma reachable_status (m : Manager) :
  reachable m -> In (Status (current m)) statuses.
Proof.
  induction 1 as [| jobID m _ IH | status m _ IH | m _ IH | m _ IH].
  - simpl; tauto.
  - unfold Start. destruct (isRunning _); simpl; [exact IH | tauto].
  - unfold Transition.
    destruct (_ && _); [exact IH|].
    destruct (status =? _); [exact IH|].
    destruct (isValidTransition _ status) eqn:Hv; simpl; [|exact IH].
    apply isValidTransition_status in Hv. exact Hv.
  - unfold Cancel. destruct (negb _); simpl; [exact IH | tauto].
  - simpl; tauto.
Qed.

Lemma isRunning_active (s : JobStatus) : isRunning s = true <-> In s active.
Proof.
  unfold isRunning, active. simpl.
  destruct (s =? JobStatusPreprocessing) eqn:E1;
    [apply String.eqb_eq in E1; subst; tauto|].
  destruct (s =? JobStatusTranscribing) eqn:E2;
    [apply String.eqb_eq in E2; subst; tauto|].
  destruct (s =? JobStatusExporting) eqn:E3;
    [apply String.eqb_eq in E3; subst; tauto|].
  apply String.eqb_neq in E1. apply String.eqb_neq in E2.
  apply String.eqb_neq in E3.
  split; [discriminate|]. intros [H | [H | [H | []]]]; congruence.
Qed.

End ManagerFacts.

Section ManagerClaims.

Local Open Scope string_scope.

(** C1, as stated, fails: in the initial state the table's edge
    idle -> preprocessing is refused, and the error is not the
    invalid-transition one but the guard for a missing job id. *)
Lemma Transition_edge_refused_without_job_id :
  reachable NewManager
  /\ Status (current NewManager) = JobStatusIdle
  /\ edge JobStatusIdle JobStatusPreprocessing
  /\ Transition JobStatusPreprocessing NewManager
     = (Some errNoActiveJob, NewManager)
  /\ errNoActiveJob
     <> errInvalidTransition JobStatusIdle JobStatusPreprocessing.
Proof.
  split; [constructor|]. split; [reflexivity|].
  split; [apply edge_edgeb; reflexivity|].
  split; [reflexivity | discriminate].
Qed.

(** C1 (amended): in every reachable state and for every status [to] of
    the seven: if no job id is set and [to] is not idle, [Transition]
    fails with the missing-job usage error and changes nothing;
    otherwise [Transition (current status)] succeeds and changes
    nothing, a pair outside the table (other than the current status
    itself) fails with the invalid-transition error carrying both
    statuses and changes nothing, and a pair of the table succeeds and
    sets the status to [to], keeping the job id. *)
Theorem Transition_table (m : Manager) (to : JobStatus) :
  reachable m -> In to statuses ->
  (ID (current m) = "" /\ to <> JobStatusIdle ->
     Transition to m = (Some errNoActiveJob, m))
  /\ (ID (current m) <> "" \/ to = JobStatusIdle ->
      (to = Status (current m) -> Transition to m = (None, m))
      /\ (to <> Status (current m) -> ~ edge (Status (current m)) to ->
          Transition to m
          = (Some (errInvalidTransition (Status (current m)) to), m))
      /\ (to <> Status (current m) -> edge (Status (current m)) to ->
          Transition to m = (None, mkManager (mkJob (ID (current m)) to)))).
Proof.
  intros Hm Hto. apply reachable_status in Hm.
  pose proof (isValidTransition_table _ _ Hm Hto) as Hv.
  unfold Transition. split.
  - intros [Hid Hne]. rewrite Hid. apply String.eqb_neq in Hne.
    rewrite Hne. reflexivity.
  - intros Hguard.
    assert (Hg : (ID (current m) =? "") && negb (to =? JobStatusIdle) = false).
    { destruct Hguard as [Hid | Hidle].
      - apply String.eqb_neq in Hid. rewrite Hid. reflexivity.
      - subst to. rewrite andb_false_r. reflexivity. }
    rewrite Hg. repeat split.
    + intros ->. rewrite String.eqb_refl. reflexivity.
    + intros Hne Hnedge. apply String.eqb_neq in Hne. rewrite Hne.
      rewrite Hv. destruct (edgeb _ to) eqn:He; [|reflexivity].
      exfalso. apply Hnedge, edge_edgeb, He.
    + intros Hne Hedge. apply String.eqb_neq in Hne. rewrite Hne.
      rewrite Hv. apply edge_edgeb in Hedge. rewrite Hedge. reflexivity.
Qed.

Lemma Transition_table_witness :
  reachable (snd (Start "job-1" NewManager))
  /\ In JobStatusTranscribing statuses
  /\ Transition JobStatusTranscribing (snd (Start "job-1" NewManager))
     = (None, mkManager (mkJob "job-1" JobStatusTranscribing)).
Proof.
  split; [apply reach_Start, reach_new|].
  split; [simpl; tauto|].
  apply (Transition_table (snd (Start "job-1" NewManager))
           JobStatusTranscribing).
  - apply reach_Start, reach_new.
  - simpl; tauto.
  - left. discriminate.
  - discriminate.
  - apply edge_edgeb. reflexivity.
Defined.

(** C8: [Start jobID] fails with [ErrJobAlreadyRunning] exactly when the
    current status is preprocessing, transcribing or exporting (and then
    changes nothing); in every other state it succeeds and the job
    record becomes [{id: jobID, status: preprocessing}]. *)
Theorem Start_exclusive (jobID : string) (m : Manager) :
  (fst (Start jobID m) = Some ErrJobAlreadyRunning
   <-> In (Status (current m)) active)
  /\ (In (Status (current m)) active ->
      Start jobID m = (Some ErrJobAlreadyRunning, m))
  /\ (~ In (Status (current m)) active ->
      Start jobID m
      = (None, mkManager (mkJob jobID JobStatusPreprocessing))).
Proof.
  unfold Start. pose proof (isRunning_active (Status (current m))) as H.
  destruct (isRunning _); simpl.
  - assert (In (Status (current m)) active) by (apply H; reflexivity).
    repeat split; auto. intros Hn. contradiction.
  - assert (~ In (Status (current m)) active)
      by (intros Hin; apply H in Hin; discriminate).
    repeat split; auto; try discriminate; intros; contradiction.
Qed.

Lemma Start_exclusive_witness :
  In (Status (current (snd (Start "job-1" NewManager)))) active
  /\ Start "job-2" (snd (Start "job-1" NewManager))
     = (Some ErrJobAlreadyRunning, snd (Start "job-1" NewManager))
  /\ ~ In (Status (current NewManager)) active
  /\ Start "job-1" NewManager
     = (None, mkManager (mkJob "job-1" JobStatusPreprocessing)).
Proof.
  assert (Ha : In (Status (current (snd (Start "job-1" NewManager)))) active)
    by (simpl; tauto).
  assert (Hn : ~ In (Status (current NewManager)) active)
    by (simpl; intros [H | [H | [H | []]]]; discriminate).
  split; [exact Ha|]. split.
  - apply (Start_exclusive "job-2" (snd (Start "job-1" NewManager))).
    exact Ha.
  - split; [exact Hn|]. apply (Start_exclusive "job-1" NewManager). exact Hn.
Defined.

(** C9: [Cancel] fails with [ErrNoRunningJob] exactly when the current
    status is none of preprocessing, transcribing, exporting (and then
    changes nothing); otherwise it succeeds and sets the status to
    cancelled; the second of two consecutive [Cancel] calls always fails
    with [ErrNoRunningJob]. *)
Theorem Cancel_contract (m : Manager) :
  (fst (Cancel m) = Some ErrNoRunningJob
   <-> ~ In (Status (current m)) active)
  /\ (~ In (Status (current m)) active ->
      Cancel m = (Some ErrNoRunningJob, m))
  /\ (In (Status (current m)) active ->
      Cancel m
      = (None, mkManager (mkJob (ID (current m)) JobStatusCancelled)))
  /\ fst (Cancel (snd (Cancel m))) = Some ErrNoRunningJob.
Proof.
  unfold Cancel. pose proof (isRunning_active (Status (current m))) as H.
  destruct (isRunning (Status (current m))) eqn:E; simpl.
  - assert (In (Status (current m)) active) by (apply H; reflexivity).
    repeat split; auto; try discriminate; intros; try contradiction.
  - assert (~ In (Status (current m)) active)
      by (intros Hin; apply H in Hin; discriminate).
    rewrite E. simpl.
    repeat split; auto; try discriminate; intros; contradiction.
Qed.

Lemma Cancel_contract_witness :
  In (Status (current (snd (Start "job-1" NewManager)))) active
  /\ Cancel (snd (Start "job-1" NewManager))
     = (None, mkManager (mkJob "job-1" JobStatusCancelled))
  /\ fst (Cancel (snd (Cancel (snd (Start "job-1" NewManager)))))
     = Some ErrNoRunningJob.
Proof.
  assert (Ha : In (Status (current (snd (Start "job-1" NewManager)))) active)
    by (simpl; tauto).
  split; [exact Ha|]. split.
  - apply (Cancel_contract (snd (Start "job-1" NewManager))). exact Ha.
  - apply (Cancel_contract (snd (Start "job-1" NewManager))).
Defined.

End ManagerClaims.

(** ** The event bus *)

Section ListFacts.

Context {A : Type}.

Lemma lastn_nil (n : nat) : lastn n (@nil A) = [].
Proof. unfold lastn. apply skipn_nil. Qed.

Lemma lastn_length (n : nat) (l : list A) :
  List.length (lastn n l) = Nat.min n (List.length l).
Proof. unfold lastn. rewrite length_skipn. lia. Qed.

Lemma lastn_all (n : nat) (l : list A) :
  (List.length l <= n)%nat -> lastn n l = l.
Proof.
  intros H. unfold lastn.
  replace (List.length l - n)%nat with 0%nat by lia. reflexivity.
Qed.

Lemma lastn_suffix (n : nat) (l : list A) :
  exists dropped, l = dropped ++ lastn n l.
Proof.
  exists (firstn (List.length l - n) l). unfold lastn.
  symmetry. apply firstn_skipn.
Qed.

(** Appending one element to the last [cap] elements and dropping what
    exceeds [cap] gives the last [cap] elements of the longer list. *)
Lemma lastn_snoc_trim (cap : nat) (h : list A) (p : A) :
  (0 < cap)%nat ->
  let ev := lastn cap h ++ [p] in
  (if (cap <? List.length ev)%nat
   then skipn (List.length ev - cap) ev else ev)
  = lastn cap (h ++ [p]).
Proof.
  intros Hcap ev. subst ev.
  rewrite length_app, lastn_length. simpl List.length.
  unfold lastn at 3. rewrite length_app. simpl List.length.
  destruct (Nat.ltb_spec cap (Nat.min cap (List.length h) + 1)) as [Hlt | Hge].
  - assert (Hh : (cap <= List.length h)%nat) by lia.
    replace (Nat.min cap (List.length h) + 1 - cap)%nat with 1%nat by lia.
    unfold lastn. rewrite !skipn_app, !length_skipn.
    replace (1 - (List.length h - (List.length h - cap)))%nat with 0%nat by lia.
    replace (List.length h + 1 - cap - List.length h)%nat with 0%nat by lia.
    rewrite skipn_skipn.
    replace (1 + (List.length h - cap))%nat
      with (List.length h + 1 - cap)%nat by lia.
    reflexivity.
  - assert (Hh : (List.length h < cap)%nat) by lia.
    rewrite (lastn_all cap h) by lia.
    replace (List.length h + 1 - cap)%nat with 0%nat by lia. reflexivity.
Qed.

Lemma StronglySorted_filter (R : A -> A -> Prop) (f : A -> bool) (l : list A) :
  StronglySorted R l -> StronglySorted R (filter f l).
Proof.
  induction 1 as [| a l _ IH Hall]; simpl; [constructor|].
  destruct (f a); [|exact IH]. constructor; [exact IH|].
  rewrite Forall_forall in *. intros x Hx.
  apply filter_In in Hx as [Hx _]. auto.
Qed.

Lemma StronglySorted_skipn (R : A -> A -> Prop) (n : nat) (l : list A) :
  StronglySorted R l -> StronglySorted R (skipn n l).
Proof.
  intros H. revert n. induction H as [| a l Hs IH Hall]; intros [| n]; simpl;
    try constructor; auto.
Qed.

End ListFacts.

Section EventBusFacts.

Lemma wrap64_small (z : Z) : - 2 ^ 63 <= z < 2 ^ 63 -> wrap64 z = z.
Proof. intros H. unfold wrap64. rewrite Z.mod_small; lia. Qed.

Lemma Since_filter (s : Z) (b : EventBus) :
  Since s b = filter (fun event => Event.Seq event >? s) (events b).
Proof. unfold Since. destruct (events b); reflexivity. Qed.

Lemma tracks_new (n : Z) : tracks (NewEventBus n) [].
Proof.
  split; try reflexivity. unfold NewEventBus. simpl.
  destruct (Z.leb_spec n 0); lia.
Qed.

Lemma Seq_finalized (seq : Z) (call : Time * Event.t) :
  Event.Seq (finalized seq call) = seq.
Proof. unfold finalized. destruct (IsZero _); reflexivity. Qed.

Lemma seqs_snoc (n : nat) : seqs (S n) = seqs n ++ [Z.of_nat (S n)].
Proof. unfold seqs. rewrite seq_S, map_app. reflexivity. Qed.

Lemma Publish_tracks (now : Time) (event : Event.t) (b : EventBus)
      (h : list Event.t) :
  tracks b h -> len h < MaxInt64 ->
  fst (Publish now event b) = finalized (len h + 1) (now, event)
  /\ maxEvents (snd (Publish now event b)) = maxEvents b
  /\ tracks (snd (Publish now event b)) (h ++ [fst (Publish now event b)]).
Proof.
  intros [Hcap Hnext Hseqs Hev] Hlen. unfold MaxInt64, len in *.
  unfold Publish. rewrite Hnext. unfold len.
  rewrite wrap64_small by lia.
  change (if IsZero (Event.Timestamp
                       (Event.with_Seq (Z.of_nat (List.length h) + 1) event))
          then Event.with_Timestamp now
                 (Event.with_Seq (Z.of_nat (List.length h) + 1) event)
          else Event.with_Seq (Z.of_nat (List.length h) + 1) event)
    with (finalized (Z.of_nat (List.length h) + 1) (now, event)).
  set (p := finalized _ _). simpl fst. simpl snd.
  split; [reflexivity|]. split.
  - destruct (_ >? _); reflexivity.
  - assert (Hmax : forall evs, maxEvents
               (mkEventBus (Z.of_nat (List.length h) + 1) (maxEvents b) evs)
               = maxEvents b) by reflexivity.
    split.
    + destruct (_ >? _); simpl; exact Hcap.
    + destruct (_ >? _); simpl; unfold len; rewrite length_app; simpl; lia.
    + rewrite map_app, length_app, Hseqs. simpl.
      replace (List.length h + 1)%nat with (S (List.length h)) by lia.
      rewrite seqs_snoc. subst p. rewrite Seq_finalized.
      do 2 f_equal. lia.
    + assert (Hc : (0 < Z.to_nat (maxEvents b))%nat) by lia.
      pose proof (lastn_snoc_trim (Z.to_nat (maxEvents b)) h p Hc) as Ht.
      simpl in Ht. rewrite <- Hev in Ht.
      assert (Hgt : (Z.of_nat (List.length (events b ++ [p])) >? maxEvents b)
                    = (Z.to_nat (maxEvents b)
                       <? List.length (events b ++ [p]))%nat).
      { rewrite Z.gtb_ltb.
        destruct (Nat.ltb_spec (Z.to_nat (maxEvents b))
                               (List.length (events b ++ [p])));
          [apply Z.ltb_lt | apply Z.ltb_ge]; lia. }
      rewrite Hgt.
      replace (Z.to_nat (Z.of_nat (List.length (events b ++ [p]))
                         - maxEvents b))
        with (List.length (events b ++ [p]) - Z.to_nat (maxEvents b))%nat
        by lia.
      destruct (_ <? _)%nat; simpl; exact Ht.
Qed.

Lemma publishAll_tracks (calls : list (Time * Event.t)) :
  forall (b : EventBus) (h : list Event.t),
  tracks b h -> len h + len calls <= MaxInt64 ->
  fst (publishAll calls b) = finalizedFrom (len h + 1) calls
  /\ maxEvents (snd (publishAll calls b)) = maxEvents b
  /\ tracks (snd (publishAll calls b)) (h ++ fst (publishAll calls b)).
Proof.
  induction calls as [| [now event] calls IH]; intros b h Ht Hlen.
  - simpl. rewrite app_nil_r. auto.
  - unfold len in Hlen. simpl List.length in Hlen.
    destruct (Publish_tracks now event b h Ht) as (Hp & Hmax & Ht');
      [unfold len; lia|].
    cbn [publishAll].
    destruct (Publish now event b) as [p b1]. simpl in Hp, Hmax, Ht'.
    destruct (IH b1 (h ++ [p]) Ht') as (Hps & Hmax' & Ht'');
      [unfold len; rewrite length_app; simpl; lia|].
    destruct (publishAll calls b1) as [ps b2]. simpl in *.
    rewrite <- app_assoc in Ht''. simpl in Ht''.
    split; [|split; [congruence | exact Ht'']].
    rewrite Hp, Hps. do 2 f_equal.
    unfold len. rewrite length_app. simpl. lia.
Qed.

Lemma publishAll_app (c1 c2 : list (Time * Event.t)) (b : EventBus) :
  publishAll (c1 ++ c2) b
  = (fst (publishAll c1 b) ++ fst (publishAll c2 (snd (publishAll c1 b))),
     snd (publishAll c2 (snd (publishAll c1 b)))).
Proof.
  revert b. induction c1 as [| [now event] c1 IH]; intros b;
    cbn [publishAll app fst snd].
  - destruct (publishAll c2 b); reflexivity.
  - destruct (Publish now event b) as [p b1]. rewrite IH.
    destruct (publishAll c1 b1) as [ps b2]. reflexivity.
Qed.

Lemma publishAll_firstn (k : nat) (calls : list (Time * Event.t)) :
  forall b : EventBus,
  fst (publishAll (firstn k calls) b) = firstn k (fst (publishAll calls b)).
Proof.
  revert k. induction calls as [| [now event] calls IH]; intros [| k] b;
    try reflexivity.
  cbn [publishAll firstn]. destruct (Publish now event b) as [p b1].
  specialize (IH k b1).
  destruct (publishAll (firstn k calls) b1), (publishAll calls b1).
  simpl in *. congruence.
Qed.

Lemma publishAll_length (calls : list (Time * Event.t)) (b : EventBus) :
  List.length (fst (publishAll calls b)) = List.length calls.
Proof.
  revert b. induction calls as [| [now event] calls IH]; intros b;
    cbn [publishAll]; [reflexivity|].
  destruct (Publish now event b) as [p b1]. specialize (IH b1).
  destruct (publishAll calls b1). simpl in *. congruence.
Qed.

Lemma seqs_ascending (l : list Event.t) (a : nat) :
  map Event.Seq l = map Z.of_nat (seq a (List.length l)) -> ascending l.
Proof.
  revert a. induction l as [| e l IH]; intros a H; [constructor|].
  simpl in H. injection H as He Hl. constructor; [apply (IH (S a)), Hl|].
  apply Forall_forall. intros x Hx.
  assert (Hin : In (Event.Seq x) (map Event.Seq l)) by (apply in_map, Hx).
  rewrite Hl in Hin. apply in_map_iff in Hin as (k & Hk & Hin).
  apply in_seq in Hin. lia.
Qed.

Lemma tracks_ascending (b : EventBus) (h : list Event.t) :
  tracks b h -> ascending h /\ ascending (events b)
                /\ forall e, In e h -> 1 <= Event.Seq e <= len h.
Proof.
  intros [_ _ Hseqs Hev]. split; [|split].
  - apply (seqs_ascending h 1). exact Hseqs.
  - rewrite Hev. apply StronglySorted_skipn, (seqs_ascending h 1), Hseqs.
  - intros e He.
    assert (Hin : In (Event.Seq e) (map Event.Seq h)) by (apply in_map, He).
    rewrite Hseqs in Hin. apply in_map_iff in Hin as (k & Hk & Hin).
    apply in_seq in Hin. unfold len. lia.
Qed.

End EventBusFacts.

Section EventBusClaims.

(** C4: on a new bus, a sequence of [Publish] calls (of at most
    [MaxInt64] calls, the range of the [int64] counter) assigns the
    sequence numbers 1, 2, 3, ... in publish order: the returned events
    are the inputs finalized with these numbers, strictly ascending and
    without gaps; and after every prefix of the calls the retained
    events are the last [maxEvents] events of the history published so
    far, a contiguous suffix of it. *)
Theorem Publish_sequence_numbers (n : Z) (calls : list (Time * Event.t)) :
  len calls <= MaxInt64 ->
  let history := fst (publishAll calls (NewEventBus n)) in
  let b := snd (publishAll calls (NewEventBus n)) in
  history = finalizedFrom 1 calls
  /\ map Event.Seq history = seqs (List.length calls)
  /\ ascending history
  /\ nextSeq b = len calls
  /\ forall k : nat,
       let bk := snd (publishAll (firstn k calls) (NewEventBus n)) in
       let hk := firstn k history in
       fst (publishAll (firstn k calls) (NewEventBus n)) = hk
       /\ events bk = lastn (Z.to_nat (maxEvents bk)) hk
       /\ exists dropped, hk = dropped ++ events bk.
Proof.
  intros Hlen history b.
  destruct (publishAll_tracks calls (NewEventBus n) [] (tracks_new n))
    as (Hh & Hmax & Ht); [unfold len in *; simpl; lia|].
  simpl in Hh, Ht. fold history in Hh, Ht. fold b in Ht, Hmax.
  pose proof (publishAll_length calls (NewEventBus n)) as Hl.
  fold history in Hl.
  split; [exact Hh|]. split; [|split; [|split]].
  - rewrite <- Hl. apply Ht.
  - apply (tracks_ascending b history Ht).
  - rewrite (tracks_next _ _ Ht). unfold len. congruence.
  - intros k bk hk.
    assert (Hk : fst (publishAll (firstn k calls) (NewEventBus n)) = hk).
    { apply publishAll_firstn. }
    destruct (publishAll_tracks (firstn k calls) (NewEventBus n) []
                                (tracks_new n)) as (_ & _ & Htk).
    { unfold len in *. simpl. rewrite length_firstn. lia. }
    simpl in Htk. rewrite Hk in Htk. fold bk in Htk.
    split; [exact Hk|]. split; [apply Htk|].
    rewrite (tracks_events _ _ Htk). apply lastn_suffix.
Qed.

Lemma Publish_sequence_numbers_witness :
  let calls := [(5, Event.zero); (6, Event.zero); (7, Event.zero)] in
  len calls <= MaxInt64
  /\ map Event.Seq (fst (publishAll calls (NewEventBus 2))) = [1; 2; 3].
Proof.
  intros calls. split; [unfold len, MaxInt64; simpl; lia|].
  apply (Publish_sequence_numbers 2 calls).
  unfold len, MaxInt64; simpl; lia.
Defined.

(** C3: on a bus that has received at most [MaxInt64] [Publish] calls,
    for every [s >= 0], [Since s] returns exactly the retained events
    whose sequence number is greater than [s], in the order they are
    retained, which is strictly ascending (the empty list when none
    qualifies); the capacity of [NewEventBus n] is [n] when [n > 0];
    and when more events have been published than the capacity,
    [Since 0] returns exactly the last [capacity] published events,
    oldest first. *)
Theorem Since_reads (n : Z) (calls : list (Time * Event.t)) (s : Z) :
  len calls <= MaxInt64 -> 0 <= s ->
  let history := fst (publishAll calls (NewEventBus n)) in
  let b := snd (publishAll calls (NewEventBus n)) in
  let retained := lastn (Z.to_nat (maxEvents b)) history in
  events b = retained
  /\ Since s b = filter (fun e => Event.Seq e >? s) retained
  /\ (forall e, In e (Since s b) <-> In e retained /\ s < Event.Seq e)
  /\ ascending (Since s b)
  /\ ((forall e, In e retained -> Event.Seq e <= s) -> Since s b = [])
  /\ maxEvents b = (if n <=? 0 then 500 else n)
  /\ (maxEvents b < len calls ->
      Since 0 b = retained /\ len (Since 0 b) = maxEvents b).
Proof.
  intros Hlen Hs history b retained.
  destruct (publishAll_tracks calls (NewEventBus n) [] (tracks_new n))
    as (Hh & Hmax & Ht); [unfold len in *; simpl; lia|].
  simpl in Hh, Ht. fold history in Hh, Ht. fold b in Ht, Hmax.
  pose proof (publishAll_length calls (NewEventBus n)) as Hl.
  fold history in Hl.
  destruct (tracks_ascending b history Ht) as (_ & Hasc & Hrange).
  pose proof (tracks_events _ _ Ht) as Hev. fold retained in Hev.
  rewrite Since_filter, Hev.
  split; [reflexivity|]. split; [reflexivity|]. split; [|split; [|split]].
  - intros e. rewrite filter_In, Z.gtb_ltb, Z.ltb_lt. reflexivity.
  - apply StronglySorted_filter. rewrite <- Hev. exact Hasc.
  - clear. generalize retained as l.
    induction l as [| e l IH]; intros Hnone; [reflexivity|].
    simpl. destruct (Z.gtb_spec (Event.Seq e) s) as [Hgt | _].
    + specialize (Hnone e (or_introl eq_refl)). lia.
    + apply IH. intros x Hx. apply Hnone. right. exact Hx.
  - split; [exact Hmax|]. intros Hmore.
    rewrite Since_filter, Hev. split.
    + apply forallb_filter_id. apply forallb_forall. intros e He.
      apply Z.gtb_lt. subst retained.
      destruct (lastn_suffix (Z.to_nat (maxEvents b)) history) as [d Hd].
      assert (In e history) by (rewrite Hd; apply in_or_app; now right).
      apply Hrange in H. lia.
    + rewrite forallb_filter_id.
      * unfold len. subst retained. rewrite lastn_length.
        pose proof (tracks_cap _ _ Ht). unfold len in Hmore. lia.
      * apply forallb_forall. intros e He. apply Z.gtb_lt. subst retained.
        destruct (lastn_suffix (Z.to_nat (maxEvents b)) history) as [d Hd].
        assert (In e history) by (rewrite Hd; apply in_or_app; now right).
        apply Hrange in H. lia.
Qed.

Lemma Since_reads_witness :
  let calls := [(5, Event.zero); (6, Event.zero); (7, Event.zero)] in
  len calls <= MaxInt64 /\ 0 <= 0
  /\ map Event.Seq (Since 0 (snd (publishAll calls (NewEventBus 2)))) = [2; 3].
Proof.
  intros calls. split; [unfold len, MaxInt64; simpl; lia|].
  split; [lia|].
  destruct (Since_reads 2 calls 0) as (_ & H & _).
  - unfold len, MaxInt64; simpl; lia.
  - lia.
  - rewrite H. reflexivity.
Defined.

End EventBusClaims.

(** ** The pipeline *)

Import transcribe.

Section LanguageFlag.

(** C5, as stated, fails: for the language value [" en"], which is
    neither empty, nor white space, nor "auto", the flag is passed with
    the value ["en"], not with the value as given. *)
Lemma language_flag_value_is_trimmed :
  strings.TrimSpace " en" <> ""
  /\ strings.EqualFold (strings.TrimSpace " en") "auto" = false
  /\ buildWhisperArgs "/m.bin" "/audio.wav" "/out/base" " en"
     = whisperBase "/m.bin" "/audio.wav" "/out/base" ++ ["-l"; "en"]
  /\ ~ In " en" (buildWhisperArgs "/m.bin" "/audio.wav" "/out/base" " en").
Proof.
  split; [discriminate|]. split; [reflexivity|]. split; [reflexivity|].
  simpl. intuition discriminate.
Qed.

(** C5 (amended): for every model path, audio path and output base, if
    the language value trimmed of surrounding white space is empty or
    equal to "auto" up to case, the argument list is the seven base
    arguments, without a language flag; otherwise it is the base
    arguments followed by the flag [-l] and the trimmed value, which is
    the value itself when it has no surrounding white space. *)
Theorem buildWhisperArgs_language
        (modelPath audioPath textBase language : string) :
  let lang := strings.TrimSpace language in
  (lang = "" \/ strings.EqualFold lang "auto" = true ->
   buildWhisperArgs modelPath audioPath textBase language
   = whisperBase modelPath audioPath textBase)
  /\ (lang <> "" -> strings.EqualFold lang "auto" = false ->
      buildWhisperArgs modelPath audioPath textBase language
      = whisperBase modelPath audioPath textBase ++ ["-l"; lang])
  /\ (lang <> "" -> strings.EqualFold lang "auto" = false ->
      lang = language ->
      buildWhisperArgs modelPath audioPath textBase language
      = whisperBase modelPath audioPath textBase ++ ["-l"; language]).
Proof.
  intros lang. unfold buildWhisperArgs, normalizeLanguage. fold lang.
  split; [|split].
  - intros [H | H].
    + rewrite H. reflexivity.
    + rewrite H, orb_true_r. reflexivity.
  - intros Hne Hfold. apply String.eqb_neq in Hne.
    rewrite Hne, Hfold. simpl. rewrite Hne. reflexivity.
  - intros Hne Hfold Heq. apply String.eqb_neq in Hne.
    rewrite Hne, Hfold. simpl. rewrite Hne, Heq. reflexivity.
Qed.

Lemma buildWhisperArgs_language_witness :
  (strings.TrimSpace "  " = ""
   /\ buildWhisperArgs "/m.bin" "/audio.wav" "/out/base" "  "
      = whisperBase "/m.bin" "/audio.wav" "/out/base")
  /\ (strings.EqualFold (strings.TrimSpace "Auto") "auto" = true
      /\ buildWhisperArgs "/m.bin" "/audio.wav" "/out/base" "Auto"
         = whisperBase "/m.bin" "/audio.wav" "/out/base")
  /\ (strings.TrimSpace "ru" <> ""
      /\ strings.EqualFold (strings.TrimSpace "ru") "auto" = false
      /\ strings.TrimSpace "ru" = "ru"
      /\ buildWhisperArgs "/m.bin" "/audio.wav" "/out/base" "ru"
         = whisperBase "/m.bin" "/audio.wav" "/out/base" ++ ["-l"; "ru"]).
Proof.
  split; [|split].
  - split; [reflexivity|].
    apply (buildWhisperArgs_language "/m.bin" "/audio.wav" "/out/base" "  ").
    left. reflexivity.
  - split; [reflexivity|].
    apply (buildWhisperArgs_language "/m.bin" "/audio.wav" "/out/base" "Auto").
    right. reflexivity.
  - split; [discriminate|]. split; [reflexivity|]. split; [reflexivity|].
    apply (buildWhisperArgs_language "/m.bin" "/audio.wav" "/out/base" "ru").
    + discriminate.
    + reflexivity.
    + reflexivity.
Defined.

End LanguageFlag.

Section ExecFacts.

Context {E : Type -> Type} {W : Type} (h : handler E W).

Lemma exec_bind {A B : Type} (p : Prog E A) (f : A -> Prog E B) (w : W) :
  exec h (bind p f) w
  = let '(tr1, a, w1) := exec h p w in
    let '(tr2, b, w2) := exec h (f a) w1 in
    (tr1 ++ tr2, b, w2).
Proof.
  revert w. induction p as [a | X e k IH]; intros w; simpl.
  - destruct (exec h (f a) w) as [[tr2 b] w2]. reflexivity.
  - destruct (h X e w) as [x w1]. rewrite IH.
    destruct (exec h (k x) w1) as [[tr1 a] w1'].
    destruct (exec h (f a) w1') as [[tr2 b] w2]. reflexivity.
Qed.

End ExecFacts.

Section StringOrder.

Lemma string_leb_refl (s : string) : string_leb s s = true.
Proof.
  induction s as [| a s IH]; simpl; [reflexivity|].
  rewrite N.ltb_irrefl. exact IH.
Qed.

Lemma string_leb_total (s t : string) :
  string_leb s t = false -> string_leb t s = true.
Proof.
  revert t. induction s as [| a s IH]; intros [| b t]; simpl;
    try discriminate; try reflexivity.
  destruct (N.ltb_spec (strings.byte a) (strings.byte b)) as [Hab | Hab];
    [discriminate|].
  destruct (N.ltb_spec (strings.byte b) (strings.byte a)) as [Hba | Hba];
    [reflexivity|]. apply IH.
Qed.

Lemma string_leb_trans (s t u : string) :
  string_leb s t = true -> string_leb t u = true -> string_leb s u = true.
Proof.
  revert t u. induction s as [| a s IH]; intros [| b t] [| c u]; simpl;
    try discriminate; try reflexivity.
  destruct (N.ltb_spec (strings.byte a) (strings.byte b)) as [Hab | Hab];
    destruct (N.ltb_spec (strings.byte b) (strings.byte c)) as [Hbc | Hbc];
    destruct (N.ltb_spec (strings.byte a) (strings.byte c)) as [Hac | Hac];
    destruct (N.ltb_spec (strings.byte b) (strings.byte a)) as [Hba | Hba];
    destruct (N.ltb_spec (strings.byte c) (strings.byte b)) as [Hcb | Hcb];
    destruct (N.ltb_spec (strings.byte c) (strings.byte a)) as [Hca | Hca];
    try discriminate; try reflexivity; try lia.
  apply IH.
Qed.

(** The first element of the sorted list is an element of the list and
    precedes every other. *)
Lemma sort_Strings_first (l : list string) :
  match sort_Strings l with
  | [] => l = []
  | first :: _ =>
      In first l /\ forall x, In x l -> string_leb first x = true
  end.
Proof.
  induction l as [| a l IH]; [reflexivity|].
  simpl. destruct (sort_Strings l) as [| y s] eqn:Hs; simpl.
  - subst l. split; [now left|]. intros x [<- | []]. apply string_leb_refl.
  - destruct IH as [Hin Hmin].
    destruct (string_leb a y) eqn:Hay.
    + split; [now left|]. intros x [<- | Hx]; [apply string_leb_refl|].
      apply (string_leb_trans a y x Hay). apply Hmin, Hx.
    + split; [now right|]. intros x [<- | Hx].
      * apply string_leb_total, Hay.
      * apply Hmin, Hx.
Qed.

End StringOrder.

Section ModelResolution.

Context {W : Type} (h : handler Eff W).

(** The file names the loop of [resolveModelPath] keeps. *)
Lemma isModelFile_iff (entry : DirEntry.t) :
  isModelFile entry = true
  <-> DirEntry.IsDir entry = false
      /\ (strings.ToLower (filepath.Ext (DirEntry.Name entry)) = ".bin"
          \/ strings.ToLower (filepath.Ext (DirEntry.Name entry)) = ".gguf").
Proof.
  unfold isModelFile. destruct (DirEntry.IsDir entry).
  - split; [discriminate | intros [H _]; discriminate].
  - rewrite orb_true_iff, !String.eqb_eq. tauto.
Qed.

(** C6, as stated, fails: a model path with a trailing space that
    names a regular file is not returned unchanged.  Where only the
    path as given exists, resolution fails; where the trimmed path
    exists too, the trimmed path is returned. *)
Lemma resolveModelPath_trims_the_path :
  let w1 := fake.mkWorld [("/models/base.bin ", "model")] [] [] [] "/tmp/t" in
  let w2 := fake.mkWorld [("/models/base.bin ", "model");
                          ("/models/base.bin", "model")] [] [] [] "/tmp/t" in
  fst (fake.handle _ (stat "/models/base.bin ") w1)
  = inl (FileInfo.mk false)
  /\ snd (fst (exec fake.handle (resolveModelPath "/models/base.bin ") w1))
     = inr (errorString "cannot access model path: /models/base.bin")
  /\ fst (fake.handle _ (stat "/models/base.bin ") w2)
     = inl (FileInfo.mk false)
  /\ snd (fst (exec fake.handle (resolveModelPath "/models/base.bin ") w2))
     = inl "/models/base.bin".
Proof. repeat split. Qed.

(** C6 (amended): resolution works on the model path trimmed of
    surrounding white space.  If the trimmed path is empty it fails;
    if [stat] fails on it, it fails; if it names a file that is not a
    directory, the trimmed path is returned; if it names a directory,
    resolution fails when the directory cannot be read or holds no
    non-directory entry whose extension is .bin or .gguf up to case,
    and otherwise returns the directory joined with the smallest such
    name in byte-wise lexicographic order.  Inside [Run], after the
    input path has been accepted, each of these failures is returned
    as a [PipelineError] of stage transcribing.  A directory listing
    exactly a-small.gguf and z-large.bin resolves to a-small.gguf. *)
Theorem resolveModelPath_spec (w : W) (rawPath : string) :
  let modelPath := strings.TrimSpace rawPath in
  let result := snd (fst (exec h (resolveModelPath rawPath) w)) in
  (modelPath = "" -> result = inr (errorString "model path is required"))
  /\ (modelPath <> "" ->
      forall err w1, h _ (stat modelPath) w = (inr err, w1) ->
      result = inr (errorString ("cannot access model path: " +++ modelPath)))
  /\ (modelPath <> "" ->
      forall info w1, h _ (stat modelPath) w = (inl info, w1) ->
      FileInfo.IsDir info = false -> result = inl modelPath)
  /\ (modelPath <> "" ->
      forall info w1, h _ (stat modelPath) w = (inl info, w1) ->
      FileInfo.IsDir info = true ->
      (forall err w2, h _ (readDir modelPath) w1 = (inr err, w2) ->
       result
       = inr (errorString ("cannot read model directory: " +++ modelPath)))
      /\ (forall entries w2,
          h _ (readDir modelPath) w1 = (inl entries, w2) ->
          let names := map DirEntry.Name (filter isModelFile entries) in
          (names = [] ->
           result
           = inr (errorString ("no .bin or .gguf model files found in: "
                                 +++ modelPath)))
          /\ (names <> [] ->
              exists first,
                In first names
                /\ (forall name, In name names -> string_leb first name = true)
                /\ result = inl (filepath.Join modelPath first))
          /\ (names = ["a-small.gguf"; "z-large.bin"]
              \/ names = ["z-large.bin"; "a-small.gguf"] ->
              result = inl (filepath.Join modelPath "a-small.gguf"))))
  /\ (forall (p : Pipeline) (ctx : Context) (req : Request.t) info w1 err,
      rawPath = Request.ModelPath req ->
      strings.TrimSpace (Request.InputPath req) <> "" ->
      h _ (stat (Request.InputPath req)) w = (inl info, w1) ->
      snd (fst (exec h (resolveModelPath rawPath) w1)) = inr err ->
      snd (fst (exec h (Run p ctx req) w))
      = (Result.zero,
         Some (PipelineError "transcribing" (Error err) noCommandLog
                             (Some err)))).
Proof.
  intros modelPath result. subst result.
  split; [|split; [|split; [|split]]];
    [unfold resolveModelPath; fold modelPath .. |].
  - intros ->. reflexivity.
  - intros Hne err w1 Hstat. apply String.eqb_neq in Hne. rewrite Hne.
    cbn [bind perform exec]. rewrite Hstat. reflexivity.
  - intros Hne info w1 Hstat Hfile. apply String.eqb_neq in Hne.
    rewrite Hne. cbn [bind perform exec]. rewrite Hstat, Hfile. reflexivity.
  - intros Hne info w1 Hstat Hdir. apply String.eqb_neq in Hne.
    rewrite Hne. cbn [bind perform exec]. rewrite Hstat, Hdir.
    cbn [negb bind perform exec]. split.
    + intros err w2 Hread. rewrite Hread. reflexivity.
    + intros entries w2 Hread. rewrite Hread.
      set (names := map DirEntry.Name (filter isModelFile entries)).
      pose proof (sort_Strings_first names) as Hsort.
      destruct (sort_Strings names) as [| first rest] eqn:Hs.
      * split; [reflexivity|]. split; [congruence|].
        rewrite Hsort. intros [H | H]; discriminate.
      * split; [intros Hnil; rewrite Hnil in Hs; discriminate|].
        split.
        -- intros _. exists first. destruct Hsort. auto.
        -- intros [Hn | Hn]; rewrite Hn in Hs; injection Hs as <- _;
             reflexivity.
  - intros p ctx req info w1 err -> Hin Hstat Hres.
    unfold Run. apply String.eqb_neq in Hin. rewrite Hin.
    cbn [bind perform exec]. rewrite Hstat.
    rewrite exec_bind.
    destruct (exec h (resolveModelPath (Request.ModelPath req)) w1)
      as [[tr1 res] w2].
    simpl in Hres. subst res. reflexivity.
Qed.

End ModelResolution.

Lemma resolveModelPath_spec_witness :
  let w := fake.mkWorld [] ["/models"]
            [("/models", [DirEntry.mk "z-large.bin" false;
                          DirEntry.mk "notes.txt" false;
                          DirEntry.mk "a-small.gguf" false])] [] "/tmp/t" in
  strings.TrimSpace " /models " <> ""
  /\ fake.handle _ (stat "/models") w = (inl (FileInfo.mk true), w)
  /\ fake.handle _ (readDir "/models") w
     = (inl [DirEntry.mk "z-large.bin" false; DirEntry.mk "notes.txt" false;
             DirEntry.mk "a-small.gguf" false], w)
  /\ snd (fst (exec fake.handle (resolveModelPath " /models ") w))
     = inl "/models/a-small.gguf".
Proof.
  intros w. split; [discriminate|]. split; [reflexivity|].
  split; [reflexivity|].
  destruct (resolveModelPath_spec fake.handle w " /models ")
    as (_ & _ & _ & Hdir & _).
  destruct (Hdir ltac:(discriminate) (FileInfo.mk true) w eq_refl eq_refl)
    as [_ Hentries].
  destruct (Hentries [DirEntry.mk "z-large.bin" false;
                      DirEntry.mk "notes.txt" false;
                      DirEntry.mk "a-small.gguf" false] w eq_refl)
    as (_ & _ & Hexample).
  apply Hexample. right. reflexivity.
Defined.


Section FailureCleanup.

Context {W : Type} (h : handler Eff W).





End FailureCleanup.


(** ** The orchestration *)

Import bootstrap.

Section Announced.



Lemma announced_In (h : list Event.t) (j : string) :
  announced h j -> exists e0, In e0 h /\ isStart j e0.
Proof.
  intros (e0 & rest & Hf & Hs). exists e0. split; [|exact Hs].
  assert (Hin : In e0 (eventsOf j h)) by (rewrite Hf; now left).
  apply filter_In in Hin. apply Hin.
Qed.


End Announced.

Section ThreadModes.










End ThreadModes.

Section StepFacts.

Variable P : Context -> Request.t -> Prog transcribe.Eff (Result.t * option error).



Lemma finalized_fields (seq : Z) (call : Time * Event.t) :
  Event.JobID (finalized seq call) = Event.JobID (snd call)
  /\ Event.Type_ (finalized seq call) = Event.Type_ (snd call)
  /\ Event.Status (finalized seq call) = Event.Status (snd call)
  /\ Event.Message (finalized seq call) = Event.Message (snd call).
Proof. unfold finalized. destruct (IsZero _); simpl; auto. Qed.

Lemma Publish_finalized (now : Time) (ev : Event.t) (b : EventBus) :
  fst (Publish now ev b) = finalized (wrap64 (nextSeq b + 1)) (now, ev).
Proof. reflexivity. Qed.




Lemma announced_started (s : State) (j : string) :
  histOk s -> announced (published s) j -> In j (started s).
Proof.
  intros [_ Hids] Ha. apply announced_In in Ha as (e0 & Hin & Hs).
  destruct Hs as [Hid _]. rewrite <- Hid. apply Hids, Hin.
Qed.





















End StepFacts.

Section Reachability.

Variable P : Context -> Request.t -> Prog transcribe.Eff (Result.t * option error).



Lemma run_reachable (maxEvents : Z) (cs : list Choice) :
  forall s s', reachable P maxEvents s -> run P cs s = Some s' ->
               reachable P maxEvents s'.
Proof.
  induction cs as [| c cs IH]; intros s s' Hs; simpl.
  - intros [= <-]. exact Hs.
  - destruct (step P c s) as [s1|] eqn:Hstep; [|discriminate].
    apply IH. apply (reach_step P maxEvents c s s1 Hs Hstep).
Qed.


End Reachability.

Section Scenario.

Import scenario.

Lemma after_run (cs : list Choice) :
  run production cs (init 100) <> None ->
  run production cs (init 100) = Some (after cs).
Proof.
  unfold after. destruct (run production cs (init 100)); congruence.
Qed.



(** C2, on the code: a job is started on the production pipeline and
    its transcription command is running (status transcribing) when
    [CancelTranscription] is called.  The context is cancelled, the
    child process is killed, and [cmd.Run()] ends with an
    [*exec.ExitError], which [execRunner.Run] returns as it is: the
    pipeline fails with stage transcribing, [errors.Is(err,
    context.Canceled)] is false, and the goroutine takes the failure
    branch.  The final status is cancelled and a cancellation event
    was published, but a status event "failed" and an error event
    with the job's id are published too.  Had the runner returned
    [context.Canceled] (as it does when the command is not started
    because the context is already done), no error event would have
    been published. *)
Theorem cancel_while_transcribing_publishes_error :
  let killed := untilTranscribing ++ cancelling
                  ++ afterwards (cmdExitError "signal: killed" (-1)) 11 in
  let notStarted := untilTranscribing ++ cancelling
                      ++ afterwards (cmdError Canceled) 7 in
  Status (Current (Jobs (app (after untilTranscribing))))
  = JobStatusTranscribing
  /\ waitingFor (after untilTranscribing) = [("job-1", Some "whisper.cpp")]
  /\ run production killed (init 100) <> None
  /\ finished (after killed) = true
  /\ Status (Current (Jobs (app (after killed)))) = JobStatusCancelled
  /\ map brief (published (after killed))
     = [ (1, "job-1", "status", "preprocessing", "Job started");
         (2, "job-1", "status", "preprocessing",
          "Running preprocessing stage");
         (3, "job-1", "log", "", "Command completed");
         (4, "job-1", "status", "transcribing", "Running transcribing stage");
         (5, "job-1", "status", "cancelled", "Cancellation requested");
         (6, "job-1", "log", "", "Command completed");
         (7, "job-1", "status", "failed", "Job failed");
         (8, "job-1", "error", "failed",
          "transcribing: whisper.cpp transcription failed (cmd=whisper.cpp exit=-1)");
         (9, "job-1", "log", "", "Failed command") ]
  /\ (exists e, In e (published (after killed))
                /\ Event.JobID e = "job-1"
                /\ Event.Type_ e = EventTypeError)
  /\ run production notStarted (init 100) <> None
  /\ finished (after notStarted) = true
  /\ Status (Current (Jobs (app (after notStarted)))) = JobStatusCancelled
  /\ map brief (published (after notStarted))
     = [ (1, "job-1", "status", "preprocessing", "Job started");
         (2, "job-1", "status", "preprocessing",
          "Running preprocessing stage");
         (3, "job-1", "log", "", "Command completed");
         (4, "job-1", "status", "transcribing", "Running transcribing stage");
         (5, "job-1", "status", "cancelled", "Cancellation requested");
         (6, "job-1", "log", "", "Command completed");
         (7, "job-1", "status", "cancelled", "Job cancelled") ].
Proof.
  intros killed notStarted.
  split; [vm_compute; reflexivity|]. split; [vm_compute; reflexivity|].
  split; [vm_compute; discriminate|]. split; [vm_compute; reflexivity|].
  split; [vm_compute; reflexivity|]. split; [vm_compute; reflexivity|].
  split.
  { exists (nth 7 (published (after killed)) Event.zero).
    split; [|split; vm_compute; reflexivity].
    vm_compute. do 7 right. left. reflexivity. }
  split; [vm_compute; discriminate|]. split; [vm_compute; reflexivity|].
  split; vm_compute; reflexivity.
Qed.

End Scenario.

(** * Further properties *)

(** ** The job manager *)

Section ManagerMore.

Local Open Scope string_scope.

(** X1: a manager only ever holds one of the seven statuses, although
    [Transition] accepts any string: in a reachable state a status
    outside the seven is refused and the manager is left as it is. *)
Theorem Manager_status_valid (m : Manager) :
  jobs.reachable m ->
  In (Status (current m)) statuses
  /\ forall status, ~ In status statuses ->
     fst (Transition status m) <> None /\ snd (Transition status m) = m.
Proof.
  intros Hm. pose proof (reachable_status m Hm) as Hin.
  split; [exact Hin|]. intros status Hout. unfold Transition.
  destruct ((ID (current m) =? "") && negb (status =? JobStatusIdle));
    [split; [discriminate | reflexivity]|].
  destruct (String.eqb_spec status (Status (current m))) as [-> | _];
    [contradiction|].
  destruct (isValidTransition (Status (current m)) status) eqn:Hv; simpl;
    [|split; [discriminate | reflexivity]].
  apply isValidTransition_status in Hv. contradiction.
Qed.

Lemma Manager_status_valid_witness :
  jobs.reachable (snd (Start "job-1" NewManager))
  /\ ~ In "paused" statuses
  /\ fst (Transition "paused" (snd (Start "job-1" NewManager))) <> None.
Proof.
  assert (Hr : jobs.reachable (snd (Start "job-1" NewManager)))
    by apply reach_Start, reach_new.
  assert (Hout : ~ In "paused" statuses)
    by (simpl; intuition discriminate).
  split; [exact Hr|]. split; [exact Hout|].
  apply (Manager_status_valid (snd (Start "job-1" NewManager)) Hr).
  exact Hout.
Defined.

(** X2: an operation of the manager that returns an error changes
    nothing, and neither [Transition] nor [Cancel] ever changes the job
    id: only [Start] and [Reset] replace it. *)
Theorem Manager_errors_change_nothing (m : Manager) (jobID : string)
        (status : JobStatus) :
  (fst (Start jobID m) <> None -> snd (Start jobID m) = m)
  /\ (fst (Transition status m) <> None -> snd (Transition status m) = m)
  /\ (fst (Cancel m) <> None -> snd (Cancel m) = m)
  /\ ID (current (snd (Transition status m))) = ID (current m)
  /\ ID (current (snd (Cancel m))) = ID (current m).
Proof.
  unfold Start, Transition, Cancel.
  destruct (isRunning (Status (current m))); simpl;
    destruct ((ID (current m) =? "") && negb (status =? JobStatusIdle));
    destruct (status =? Status (current m));
    destruct (isValidTransition (Status (current m)) status); simpl;
    repeat split; auto; intros H; exfalso; apply H; reflexivity.
Qed.

Lemma Manager_errors_change_nothing_witness :
  fst (Transition JobStatusDone (snd (Start "job-1" NewManager))) <> None
  /\ snd (Transition JobStatusDone (snd (Start "job-1" NewManager)))
     = snd (Start "job-1" NewManager).
Proof.
  assert (H : fst (Transition JobStatusDone (snd (Start "job-1" NewManager)))
              <> None) by discriminate.
  split; [exact H|].
  apply (Manager_errors_change_nothing (snd (Start "job-1" NewManager))
           "job-1" JobStatusDone).
  exact H.
Defined.

(** X3: the life of a job.  From any state that is not running, a job
    started with a non-empty id can be taken through transcribing and
    exporting to done, each step succeeding, the manager running until
    the last one; the manager then holds the job as done, and a new job
    can be started at once, without [Reset]. *)
Theorem Manager_lifecycle (m : Manager) (jobID next : string) :
  jobID <> "" -> IsRunning m = false ->
  let m1 := snd (Start jobID m) in
  let m2 := snd (Transition JobStatusTranscribing m1) in
  let m3 := snd (Transition JobStatusExporting m2) in
  let m4 := snd (Transition JobStatusDone m3) in
  fst (Start jobID m) = None
  /\ fst (Transition JobStatusTranscribing m1) = None
  /\ fst (Transition JobStatusExporting m2) = None
  /\ fst (Transition JobStatusDone m3) = None
  /\ IsRunning m1 = true /\ IsRunning m2 = true /\ IsRunning m3 = true
  /\ IsRunning m4 = false
  /\ Current m4 = mkJob jobID JobStatusDone
  /\ Start next m4 = (None, mkManager (mkJob next JobStatusPreprocessing)).
Proof.
  intros Hid Hidle. unfold IsRunning in Hidle. apply String.eqb_neq in Hid.
  cbv zeta. unfold Start, IsRunning. rewrite Hidle.
  unfold Transition. simpl. rewrite Hid. simpl. rewrite Hid. simpl.
  rewrite Hid. simpl. repeat split.
Qed.

Lemma Manager_lifecycle_witness :
  "job-1" <> "" /\ IsRunning NewManager = false
  /\ Current (snd (Transition JobStatusDone
              (snd (Transition JobStatusExporting
                 (snd (Transition JobStatusTranscribing
                    (snd (Start "job-1" NewManager))))))))
     = mkJob "job-1" JobStatusDone.
Proof.
  assert (Hid : "job-1" <> "") by discriminate.
  split; [exact Hid|]. split; [reflexivity|].
  apply (Manager_lifecycle NewManager "job-1" "job-2" Hid eq_refl).
Defined.

(** X4: [Start] and [Cancel] are complementary: in every state exactly
    one of them succeeds, [Cancel] exactly when [IsRunning] holds; and
    each makes the other possible. *)
Theorem Start_Cancel_complementary (m : Manager) (jobID : string) :
  (fst (Start jobID m) = None <-> fst (Cancel m) <> None)
  /\ (IsRunning m = true <-> fst (Cancel m) = None)
  /\ (fst (Start jobID m) = None -> fst (Cancel (snd (Start jobID m))) = None)
  /\ (fst (Cancel m) = None ->
      fst (Start jobID (snd (Cancel m))) = None).
Proof.
  unfold Start, Cancel, IsRunning.
  destruct (isRunning (Status (current m))); simpl; repeat split;
    try discriminate; auto; intros H; try (exfalso; apply H; reflexivity).
Qed.

Lemma Start_Cancel_complementary_witness :
  fst (Start "job-1" NewManager) = None
  /\ fst (Cancel (snd (Start "job-1" NewManager))) = None.
Proof.
  split; [reflexivity|].
  exact (proj1 (proj2 (proj2 (Start_Cancel_complementary NewManager "job-1")))
           eq_refl).
Defined.

End ManagerMore.

(** ** The event bus, continued *)

Section EventBusMore.

Lemma lastn_app_short {A} (c : nat) (l1 l2 : list A) :
  (List.length l2 <= c)%nat ->
  lastn c (l1 ++ l2) = lastn (c - List.length l2) l1 ++ l2.
Proof.
  intros H. unfold lastn. rewrite skipn_app, length_app.
  replace (List.length l1 + List.length l2 - c - List.length l1)%nat
    with 0%nat by lia.
  simpl. f_equal. f_equal. lia.
Qed.

Lemma lastn_In {A} (c : nat) (l : list A) (x : A) :
  In x (lastn c l) -> In x l.
Proof.
  intros H. destruct (lastn_suffix c l) as [d Hd]. rewrite Hd.
  apply in_or_app. right. exact H.
Qed.

Lemma filter_none {A} (f : A -> bool) (l : list A) :
  (forall x, In x l -> f x = false) -> filter f l = [].
Proof.
  induction l as [| a l IH]; intros H; simpl; [reflexivity|].
  rewrite (H a) by (left; reflexivity). apply IH.
  intros x Hx. apply H. right. exact Hx.
Qed.

Lemma filter_all {A} (f : A -> bool) (l : list A) :
  (forall x, In x l -> f x = true) -> filter f l = l.
Proof.
  induction l as [| a l IH]; intros H; simpl; [reflexivity|].
  rewrite (H a) by (left; reflexivity). f_equal. apply IH.
  intros x Hx. apply H. right. exact Hx.
Qed.

Lemma finalizedFrom_Seq (calls : list (Time * Event.t)) :
  forall (k : Z) (e : Event.t), In e (finalizedFrom k calls) ->
  k <= Event.Seq e.
Proof.
  induction calls as [| call calls IH]; intros k e; simpl; [tauto|].
  intros [<- | H].
  - rewrite Seq_finalized. lia.
  - apply IH in H. lia.
Qed.

(** The buffer after one [Publish], whatever the sequence counter
    does. *)
Lemma Publish_retains (now : Time) (event : Event.t) (b : EventBus)
      (h : list Event.t) :
  0 < maxEvents b ->
  jobs.events b = lastn (Z.to_nat (maxEvents b)) h ->
  maxEvents (snd (Publish now event b)) = maxEvents b
  /\ jobs.events (snd (Publish now event b))
     = lastn (Z.to_nat (maxEvents b)) (h ++ [fst (Publish now event b)]).
Proof.
  intros Hcap Hev. unfold Publish. set (p := if IsZero _ then _ else _).
  simpl fst. simpl snd. split; [reflexivity|]. cbn [jobs.events].
  assert (Hc : (0 < Z.to_nat (maxEvents b))%nat) by lia.
  pose proof (lastn_snoc_trim (Z.to_nat (maxEvents b)) h p Hc) as Ht.
  simpl in Ht. rewrite <- Hev in Ht. unfold len.
  assert (Hgt : (Z.of_nat (List.length (jobs.events b ++ [p])) >? maxEvents b)
                = (Z.to_nat (maxEvents b)
                   <? List.length (jobs.events b ++ [p]))%nat).
  { rewrite Z.gtb_ltb.
    destruct (Nat.ltb_spec (Z.to_nat (maxEvents b))
                           (List.length (jobs.events b ++ [p])));
      [apply Z.ltb_lt | apply Z.ltb_ge]; lia. }
  rewrite Hgt.
  replace (Z.to_nat (Z.of_nat (List.length (jobs.events b ++ [p]))
                     - maxEvents b))
    with (List.length (jobs.events b ++ [p]) - Z.to_nat (maxEvents b))%nat
    by lia.
  destruct (_ <? _)%nat; exact Ht.
Qed.

Lemma publishAll_retains (calls : list (Time * Event.t)) :
  forall (b : EventBus) (h : list Event.t),
  0 < maxEvents b ->
  jobs.events b = lastn (Z.to_nat (maxEvents b)) h ->
  maxEvents (snd (publishAll calls b)) = maxEvents b
  /\ jobs.events (snd (publishAll calls b))
     = lastn (Z.to_nat (maxEvents b)) (h ++ fst (publishAll calls b)).
Proof.
  induction calls as [| [now event] calls IH]; intros b h Hcap Hev.
  - simpl. rewrite app_nil_r. auto.
  - destruct (Publish_retains now event b h Hcap Hev) as (Hmax & Hev').
    cbn [publishAll].
    destruct (Publish now event b) as [p b1]. simpl in Hmax, Hev'.
    rewrite <- Hmax in Hev', Hcap.
    destruct (IH b1 (h ++ [p]) Hcap Hev') as (Hmax' & Hev'').
    destruct (publishAll calls b1) as [ps b2]. simpl in *.
    rewrite <- app_assoc in Hev''. simpl in Hev''.
    split; congruence.
Qed.

(** X5: the buffer is bounded, however many events are published and
    whatever the sequence counter does: after any sequence of [Publish]
    calls on a new bus it holds exactly the last [maxEvents] returned
    jobs.events (all of them while there are fewer), so its length is the
    smaller of the number of calls and the capacity. *)
Theorem EventBus_bounded (n : Z) (calls : list (Time * Event.t)) :
  let history := fst (publishAll calls (NewEventBus n)) in
  let b := snd (publishAll calls (NewEventBus n)) in
  maxEvents b = (if n <=? 0 then 500 else n)
  /\ jobs.events b = lastn (Z.to_nat (maxEvents b)) history
  /\ len (jobs.events b) = Z.min (len calls) (maxEvents b)
  /\ len (jobs.events b) <= maxEvents b.
Proof.
  intros history b.
  assert (Hcap : 0 < maxEvents (NewEventBus n))
    by (unfold NewEventBus; simpl; destruct (Z.leb_spec n 0); lia).
  destruct (publishAll_retains calls (NewEventBus n) [] Hcap eq_refl)
    as (Hmax & Hev).
  change ([] ++ ?l) with l in Hev. fold history in Hev. fold b in Hmax, Hev.
  rewrite <- Hmax in Hev, Hcap.
  assert (Hlen : len (jobs.events b) = Z.min (len calls) (maxEvents b)).
  { rewrite Hev. unfold len. rewrite lastn_length.
    unfold history. rewrite publishAll_length. lia. }
  split; [rewrite Hmax; reflexivity|].
  split; [exact Hev|]. split; [exact Hlen | lia].
Qed.

(** X6: what [Publish] returns.  On a bus of positive capacity the
    returned event is the input with the next sequence number, its own
    timestamp if it has one and the clock reading otherwise, and every
    other field untouched; it is the newest event of the buffer, and
    the bus remembers its sequence number. *)
Theorem Publish_returns_newest (now : Time) (event : Event.t)
        (b : EventBus) :
  0 < maxEvents b ->
  let p := fst (Publish now event b) in
  let b' := snd (Publish now event b) in
  Event.Seq p = wrap64 (nextSeq b + 1)
  /\ nextSeq b' = Event.Seq p
  /\ Event.Timestamp p
     = (if Event.Timestamp event =? 0 then now else Event.Timestamp event)
  /\ Event.with_Timestamp 0 (Event.with_Seq 0 p)
     = Event.with_Timestamp 0 (Event.with_Seq 0 event)
  /\ exists older, jobs.events b' = older ++ [p].
Proof.
  intros Hcap p b'. unfold Publish in p, b'. simpl in p, b'.
  unfold IsZero in p, b'. simpl in p, b'.
  assert (Hfields : Event.Seq p = wrap64 (nextSeq b + 1)
    /\ Event.Timestamp p
       = (if Event.Timestamp event =? 0 then now else Event.Timestamp event)
    /\ Event.with_Timestamp 0 (Event.with_Seq 0 p)
       = Event.with_Timestamp 0 (Event.with_Seq 0 event)).
  { subst p. destruct (Event.Timestamp event =? 0); repeat split. }
  destruct Hfields as (Hseq & Hts & Hrest).
  split; [exact Hseq|]. split; [subst b'; simpl; symmetry; exact Hseq|].
  split; [exact Hts|]. split; [exact Hrest|].
  subst b'. cbn [jobs.events]. fold p. unfold IsZero. simpl. fold p.
  destruct (len (jobs.events b ++ [p]) >? maxEvents b) eqn:Hgt.
  - set (k := Z.to_nat (len (jobs.events b ++ [p]) - maxEvents b)).
    assert (Hk : (k <= List.length (jobs.events b))%nat).
    { subst k. unfold len. rewrite length_app. simpl. lia. }
    exists (skipn k (jobs.events b)). rewrite skipn_app.
    replace (k - List.length (jobs.events b))%nat with 0%nat by lia.
    reflexivity.
  - exists (jobs.events b). reflexivity.
Qed.

Lemma Publish_returns_newest_witness :
  0 < maxEvents (NewEventBus 1)
  /\ exists older,
       jobs.events (snd (Publish 7 Event.zero
                      (snd (Publish 5 Event.zero (NewEventBus 1)))))
       = older ++ [fst (Publish 7 Event.zero
                          (snd (Publish 5 Event.zero (NewEventBus 1))))].
Proof.
  split; [reflexivity|].
  apply (Publish_returns_newest 7 Event.zero
           (snd (Publish 5 Event.zero (NewEventBus 1)))).
  reflexivity.
Defined.

(** X7: reading in steps loses and repeats nothing.  A reader that has
    seen the events of the first [len calls1] calls and passes that
    number to [Since] receives exactly the events published since then,
    in publish order, provided no more of them were published than the
    buffer holds (and the counter stays in the int64 range); with
    nothing new it receives nothing. *)
Theorem Since_incremental (n : Z) (calls1 calls2 : list (Time * Event.t)) :
  len calls1 + len calls2 <= MaxInt64 ->
  len calls2 <= maxEvents (NewEventBus n) ->
  let b1 := snd (publishAll calls1 (NewEventBus n)) in
  let news := fst (publishAll calls2 b1) in
  let b2 := snd (publishAll calls2 b1) in
  Since (len calls1) b2 = news
  /\ Since (len calls1) b1 = []
  /\ Since (nextSeq b2) b2 = [].
Proof.
  intros Hlen Hfit b1 news b2. unfold len in Hlen.
  destruct (publishAll_tracks calls1 (NewEventBus n) [] (tracks_new n))
    as (_ & Hmax1 & Ht1); [unfold len; simpl; lia|].
  simpl in Ht1. fold b1 in Hmax1, Ht1.
  set (h1 := fst (publishAll calls1 (NewEventBus n))) in *.
  assert (Hl1 : List.length h1 = List.length calls1)
    by apply publishAll_length.
  destruct (publishAll_tracks calls2 b1 h1 Ht1)
    as (Hnews & Hmax2 & Ht2); [unfold len; rewrite Hl1; lia|].
  fold news in Hnews, Ht2. fold b2 in Hmax2, Ht2.
  destruct (tracks_ascending b1 h1 Ht1) as (_ & _ & Hr1).
  destruct (tracks_ascending b2 (h1 ++ news) Ht2) as (_ & _ & Hr2).
  assert (Hl2 : List.length news = List.length calls2)
    by apply publishAll_length.
  assert (Hold : forall e, In e h1 ->
            (Event.Seq e >? len calls1) = false).
  { intros e He. apply Hr1 in He. rewrite Z.gtb_ltb. apply Z.ltb_ge.
    unfold len in *. lia. }
  split; [|split].
  - rewrite Since_filter, (tracks_events _ _ Ht2), lastn_app_short
      by (rewrite Hl2, Hmax2, Hmax1; unfold len in Hfit; lia).
    rewrite filter_app, filter_none, filter_all; [reflexivity | |].
    + intros e He. rewrite Hnews in He. apply finalizedFrom_Seq in He.
      rewrite Z.gtb_ltb. apply Z.ltb_lt. unfold len in *. lia.
    + intros e He. apply Hold. apply lastn_In in He. exact He.
  - rewrite Since_filter, (tracks_events _ _ Ht1). apply filter_none.
    intros e He. apply Hold. apply lastn_In in He. exact He.
  - rewrite Since_filter, (tracks_events _ _ Ht2). apply filter_none.
    intros e He. apply lastn_In in He. apply Hr2 in He.
    rewrite (tracks_next _ _ Ht2), Z.gtb_ltb. apply Z.ltb_ge. lia.
Qed.

Lemma Since_incremental_witness :
  let calls1 := [(5, Event.zero); (6, Event.zero)] in
  let calls2 := [(7, Event.zero); (8, Event.zero)] in
  len calls1 + len calls2 <= MaxInt64
  /\ len calls2 <= maxEvents (NewEventBus 3)
  /\ Since (len calls1)
       (snd (publishAll calls2 (snd (publishAll calls1 (NewEventBus 3)))))
     = fst (publishAll calls2 (snd (publishAll calls1 (NewEventBus 3)))).
Proof.
  assert (H1 : len [(5, Event.zero); (6, Event.zero)]
               + len [(7, Event.zero); (8, Event.zero)] <= MaxInt64)
    by (vm_compute; discriminate).
  assert (H2 : len [(7, Event.zero); (8, Event.zero)]
               <= maxEvents (NewEventBus 3))
    by (vm_compute; discriminate).
  split; [exact H1|]. split; [exact H2|].
  apply (Since_incremental 3 [(5, Event.zero); (6, Event.zero)]
           [(7, Event.zero); (8, Event.zero)] H1 H2).
Defined.

End EventBusMore.

(** ** The pipeline, continued *)

Import observe.

Section PipelineMore.

Context {W : Type} (h : handler transcribe.Eff W).

(** One step of the symbolic execution of a pipeline against the
    handler [h], keeping the outcome of every test. *)
Ltac pipeline_step :=
  first
    [ progress cbn [bind perform exec fail]
    | match goal with
      | |- context [h ?X ?e ?w] =>
          let x := fresh "x" in
          let w' := fresh "w" in
          destruct (h X e w) as [x w']
      | |- context [match ?x with inl _ => _ | inr _ => _ end] =>
          is_var x; destruct x
      | |- context [match ?x with Some _ => _ | None => _ end] =>
          is_var x; destruct x
      | |- context [let (_, _) := ?x in _] => is_var x; destruct x
      | |- context [if ?b then _ else _] => destruct b eqn:?
      | |- context [match ?l with [] => _ | _ :: _ => _ end] =>
          destruct l eqn:?
      end ].

(** X8: [Cleanup] removes the workspace at most once.  With no
    workspace recorded it calls nothing and succeeds; otherwise it
    calls [os.RemoveAll] on the workspace and nothing else.  When it
    succeeds the result no longer records a workspace, so that a second
    [Cleanup] calls nothing; when it fails the result still records it.
    The other fields are never touched. *)
Theorem Cleanup_once (r : Result.t) (w : W)
        (tr : list (call transcribe.Eff)) (err : option error)
        (r' : Result.t) (w' : W) :
  exec h (Cleanup r) w = (tr, (err, r'), w') ->
  cleaned tr = (if (Result.tempDir r =? "")%string then []
                else [Result.tempDir r])
  /\ List.length tr = List.length (cleaned tr)
  /\ (Result.tempDir r = "" -> err = None /\ r' = r /\ w' = w)
  /\ (err <> None -> r' = r)
  /\ (err = None ->
      Result.tempDir r' = ""
      /\ forall w2, exec h (Cleanup r') w2 = ([], (None, r'), w2))
  /\ Result.PreprocessedAudioPath r' = Result.PreprocessedAudioPath r
  /\ Result.TextPath r' = Result.TextPath r
  /\ Result.Transcript r' = Result.Transcript r
  /\ Result.Logs r' = Result.Logs r.
Proof.
  unfold Cleanup. destruct (String.eqb_spec (Result.tempDir r) "") as [He | He].
  - cbn [exec]. intros [= <- <- <- <-]. rewrite He. simpl.
    repeat split; reflexivity.
  - cbn [bind perform exec].
    destruct (h _ (os_RemoveAll (Result.tempDir r)) w) as [[e |] w1];
      cbn [exec]; intros [= <- <- <- <-]; simpl;
      repeat split; try reflexivity; try contradiction; try discriminate;
      try (intros H; exfalso; apply H; reflexivity).
Qed.

(** X9: a request is checked before anything is started.  When [Run]
    returns without having created the workspace it has failed, with
    the zero result and a stage-tagged error that carries no command
    log, and it has run no command, removed nothing and called neither
    callback.  A blank input path is refused without a single call; a
    blank model path or output directory never lets a workspace be
    created. *)
Theorem Run_refuses_before_workspace (w : W) (p : Pipeline) (ctx : Context)
        (req : Request.t) (tr : list (call transcribe.Eff))
        (res : Result.t) (err : option error) (w' : W) :
  exec h (Run p ctx req) w = (tr, (res, err), w') ->
  (created tr = [] ->
   res = Result.zero /\ ran tr = [] /\ removed tr = []
   /\ stages tr = [] /\ logged tr = []
   /\ exists stage message cause,
        err = Some (PipelineError stage message noCommandLog cause)
        /\ In stage allStages)
  /\ (strings.TrimSpace (Request.InputPath req) = "" ->
      tr = []
      /\ err = Some (PipelineError "preprocessing"
                       "input media path is required" noCommandLog None))
  /\ (strings.TrimSpace (Request.ModelPath req) = ""
      \/ strings.TrimSpace (Request.OutputDir req) = "" ->
      created tr = [] /\ err <> None).
Proof.
  intros Hexec. pattern tr, res, err.
  match goal with |- ?P _ _ _ => set (spec := P) end.
  revert Hexec. unfold Run, resolveModelPath, emitStage, emitLog.
  repeat pipeline_step.
  all: intros [= <- <- <- <-]; subst spec; cbv beta.
  all: repeat match goal with
       | H : (_ =? _)%string = true |- _ => apply String.eqb_eq in H
       | H : (_ =? _)%string = false |- _ => apply String.eqb_neq in H
       end.
  all: split; [simpl; intros Hc; try discriminate Hc;
               repeat split; unfold allStages;
               repeat eexists; simpl; tauto
              | split; [intros Hb; try contradiction; split; reflexivity
                       | intros [Hb | Hb]; try contradiction;
                         simpl; (split; [reflexivity | discriminate])]].
Qed.

(** X10: what a successful [Run] returns.  The workspace was created
    once and is not removed; exactly two commands ran, both
    successfully; the result records the converted audio inside the
    workspace, the transcript path inside the output directory under
    [transcriptFileName] of the input, the transcript as the content
    read from that path with surrounding white space trimmed, the logs
    of the two commands in order, and the workspace. *)
Theorem Run_success_result (w : W) (p : Pipeline) (ctx : Context)
        (req : Request.t) (tr : list (call transcribe.Eff))
        (res : Result.t) (err : option error) (w' : W) :
  exec h (Run p ctx req) w = (tr, (res, err), w') ->
  err = None ->
  exists tempDir content,
    let textPath :=
      filepath.Join (Request.OutputDir req)
                    (transcriptFileName (Request.InputPath req)) in
    created tr = [tempDir] /\ removed tr = []
    /\ List.length (ran tr) = 2%nat
    /\ Forall (fun c => snd c = None) (ran tr)
    /\ In (Call (readFile textPath) (inl content)) tr
    /\ res = Result.mk (filepath.Join tempDir "preprocessed-16k-mono.wav")
                       textPath (strings.TrimSpace content) (logs tr)
                       tempDir.
Proof.
  intros Hexec. pattern tr, res, err.
  match goal with |- ?P _ _ _ => set (spec := P) end.
  revert Hexec. unfold Run, resolveModelPath, emitStage, emitLog.
  repeat pipeline_step.
  all: intros [= <- <- <- <-]; subst spec; cbv beta.
  all: intros Herr; try discriminate Herr.
  all: eexists; eexists; cbv zeta; simpl.
  all: repeat split; try reflexivity.
  all: try (repeat constructor; reflexivity).
  all: auto 20.
Qed.

(** X11: the callbacks, in the order of the calls.  What a run lets
    see of its progress (the stages handed to [OnStage], the commands
    handed to the runner, the logs handed to [OnLog]) is an initial
    part of: stage preprocessing, the conversion command, its log,
    stage transcribing, the transcription command, its log, stage
    exporting; without the stages when [OnStage] is not set and
    without the logs when [OnLog] is not set.  So every stage is
    announced before its command is run, and every command that ran,
    failed or not, is handed to [OnLog] right after it, with the log
    built from its result, before anything else is announced.  The
    part is empty exactly when no workspace was created, stops after a
    log or after the last stage, and is the whole on success. *)
Theorem Run_callbacks (w : W) (p : Pipeline) (ctx : Context)
        (req : Request.t) (tr : list (call transcribe.Eff))
        (res : Result.t) (err : option error) (w' : W) :
  exec h (Run p ctx req) w = (tr, (res, err), w') ->
  (exists n, stages tr = firstn n allStages)
  /\ (Request.OnStage req = false -> stages tr = [])
  /\ (Request.OnStage req = true ->
      (List.length (ran tr) <= List.length (stages tr))%nat
      /\ (created tr <> [] -> hd_error (stages tr) = Some "preprocessing")
      /\ (err = None -> stages tr = allStages))
  /\ logged tr = (if Request.OnLog req then logs tr else [])
  /\ exists n log1 log2,
       In n [0; 3; 6; 7]%nat
       /\ marks tr
          = filter (visible req)
              (firstn n [Stage "preprocessing"; Command_ (ffmpegPath p);
                         Logged log1;
                         Stage "transcribing"; Command_ (whisperPath p);
                         Logged log2;
                         Stage "exporting"])
       /\ logs tr = firstn (List.length (ran tr)) [log1; log2]
       /\ (n = 0%nat <-> created tr = [])
       /\ (err = None -> n = 7%nat).
Proof.
  intros Hexec. pattern tr, res, err.
  match goal with |- ?P _ _ _ => set (spec := P) end.
  revert Hexec. unfold Run, resolveModelPath, emitStage, emitLog.
  destruct (Request.OnStage req) eqn:HonStage,
           (Request.OnLog req) eqn:HonLog.
  all: repeat pipeline_step.
  all: intros [= <- <- <- <-]; subst spec; cbv beta.
  all: unfold logs, allStages, visible; rewrite ?HonStage, ?HonLog; simpl.
  all: split;
    [ first [ exists 0%nat; reflexivity | exists 1%nat; reflexivity
            | exists 2%nat; reflexivity | exists 3%nat; reflexivity ] |].
  all: split; [intros Hne; first [reflexivity | discriminate Hne]|].
  all: split;
    [ repeat split; try reflexivity; try discriminate; try lia;
      try (intros Hne; exfalso; apply Hne; reflexivity);
      try (intros Hne; discriminate Hne) |].
  all: split; [reflexivity|].
  all: first
    [ solve [ exists 0%nat, noCommandLog, noCommandLog;
              split; [simpl; auto|]; split; [reflexivity|];
              split; [reflexivity|];
              split; [split; intros Hx; first [reflexivity | discriminate Hx]
                     | intros Hx; first [reflexivity | discriminate Hx]] ]
    | solve [ exists 3%nat; eexists; exists noCommandLog;
              split; [simpl; auto|]; split; [reflexivity|];
              split; [reflexivity|];
              split; [split; intros Hx; first [reflexivity | discriminate Hx]
                     | intros Hx; first [reflexivity | discriminate Hx]] ]
    | solve [ exists 6%nat; eexists; eexists;
              split; [simpl; auto 10|]; split; [reflexivity|];
              split; [reflexivity|];
              split; [split; intros Hx; first [reflexivity | discriminate Hx]
                     | intros Hx; first [reflexivity | discriminate Hx]] ]
    | solve [ exists 7%nat; eexists; eexists;
              split; [simpl; auto 10|]; split; [reflexivity|];
              split; [reflexivity|];
              split; [split; intros Hx; first [reflexivity | discriminate Hx]
                     | intros Hx; first [reflexivity | discriminate Hx]] ] ].
Qed.

(** X12: the commands.  [Run] runs at most two commands, each under the
    caller's context: none exactly when no workspace was created; then
    the conversion tool on the input path, writing into the workspace;
    and the transcription tool only after the conversion succeeded, on
    the converted audio. *)
Theorem Run_commands (w : W) (p : Pipeline) (ctx : Context)
        (req : Request.t) (tr : list (call transcribe.Eff))
        (res : Result.t) (err : option error) (w' : W) :
  exec h (Run p ctx req) w = (tr, (res, err), w') ->
  contexts tr = repeat ctx (List.length (ran tr))
  /\ match ran tr with
     | [] => created tr = []
     | (name, args, _, runErr) :: rest =>
         exists tempDir,
           let outPath := filepath.Join tempDir "preprocessed-16k-mono.wav" in
           created tr = [tempDir]
           /\ name = ffmpegPath p
           /\ args = buildFFmpegArgs (Request.InputPath req) outPath
           /\ match rest with
              | [] => err <> None
              | [(name', args', _, _)] =>
                  runErr = None
                  /\ name' = whisperPath p
                  /\ exists modelPath textBase,
                       args' = buildWhisperArgs modelPath outPath textBase
                                                (Request.Language req)
              | _ => False
              end
     end.
Proof.
  intros Hexec. pattern tr, res, err.
  match goal with |- ?P _ _ _ => set (spec := P) end.
  revert Hexec. unfold Run, resolveModelPath, emitStage, emitLog.
  repeat pipeline_step.
  all: intros [= <- <- <- <-]; subst spec; cbv beta.
  all: simpl; split; [reflexivity|]; try reflexivity.
  all: eexists; cbv zeta; repeat split; try reflexivity; try discriminate.
  all: eexists; eexists; reflexivity.
Qed.

(** X14: the stages and the statuses agree.  Every stage name [Run]
    hands to [OnStage] is the name of an active status:
    [mapStageToStatus] maps it to the status of that very name, so the
    goroutine's stage callback never drops an announcement of the
    pipeline. *)
Theorem announced_stages_are_statuses (w : W) (p : Pipeline) (ctx : Context)
        (req : Request.t) (tr : list (call transcribe.Eff))
        (res : Result.t) (err : option error) (w' : W) :
  exec h (Run p ctx req) w = (tr, (res, err), w') ->
  forall stage, In stage (stages tr) ->
  mapStageToStatus stage = (stage, true)
  /\ In stage active /\ isRunning stage = true.
Proof.
  intros Hexec. pattern tr, res, err.
  match goal with |- ?Q _ _ _ => set (spec := Q) end.
  revert Hexec. unfold Run, resolveModelPath, emitStage, emitLog.
  repeat pipeline_step.
  all: intros [= <- <- <- <-]; subst spec; cbv beta.
  all: simpl; intros stage Hin.
  all: repeat match goal with
       | H : _ \/ _ |- _ => destruct H as [<- | H]
       | H : False |- _ => destruct H
       end.
  all: repeat split; unfold active; simpl; tauto.
Qed.

(** X22: [Run] never invents a cancellation.  When its error satisfies
    [errors.Is(err, context.Canceled)], one of its dependencies
    answered with an error that does; a command that merely exits
    unsuccessfully (as one killed on cancellation does, with an
    [*exec.ExitError]) does not make it one. *)
Theorem Run_cancellation_has_a_cause (w : W) (p : Pipeline) (ctx : Context)
        (req : Request.t) (tr : list (call transcribe.Eff))
        (res : Result.t) (err : option error) (w' : W) :
  exec h (Run p ctx req) w = (tr, (res, err), w') ->
  forall e, err = Some e -> errors_Is isCanceled e = true ->
  exists cause, In cause (failures tr)
                /\ errors_Is isCanceled cause = true.
Proof.
  intros Hexec. pattern tr, res, err.
  match goal with |- ?Q _ _ _ => set (spec := Q) end.
  revert Hexec. unfold Run, resolveModelPath, emitStage, emitLog.
  repeat pipeline_step.
  all: intros [= <- <- <- <-]; subst spec; cbv beta.
  all: intros e0 [= <-]; try discriminate.
  all: simpl; intros Hc; try discriminate Hc.
  all: eexists; split; [|exact Hc]; simpl; tauto.
Qed.

End PipelineMore.

Lemma Cleanup_once_witness :
  let w := fake.mkWorld [("/tmp/w/a.wav", "audio"); ("/out/a.txt", "text")]
             ["/tmp/w"; "/out"] [] [] "/tmp/x" in
  let r := Result.mk "/tmp/w/a.wav" "/out/a.txt" "text" [] "/tmp/w" in
  let out := exec fake.handle (Cleanup r) w in
  cleaned (fst (fst out)) = ["/tmp/w"]
  /\ fake.files (snd out) = [("/out/a.txt", "text")].
Proof.
  intros w r out.
  assert (Hout : out = (fst (fst out), (fst (snd (fst out)),
                                        snd (snd (fst out))), snd out))
    by reflexivity.
  split; [|reflexivity].
  apply (Cleanup_once fake.handle r w _ _ _ _ Hout).
Defined.


Lemma Run_refuses_before_workspace_witness :
  let w := fake.mkWorld [("/in/clip.mp4", "media")] [] [] []
             "/tmp/media-transcriber-1" in
  let req := Request.mk "/in/clip.mp4" "/m/missing.bin" "auto" "/out"
                        true true in
  let out := exec fake.handle (Run NewPipeline 0%nat req) w in
  created (fst (fst out)) = []
  /\ ran (fst (fst out)) = []
  /\ stages (fst (fst out)) = [].
Proof.
  intros w req out.
  pose proof (Run_refuses_before_workspace fake.handle w NewPipeline 0%nat
                req (fst (fst out)) (fst (snd (fst out)))
                (snd (snd (fst out))) (snd out) eq_refl) as H.
  split; [reflexivity|].
  destruct H as (H & _). destruct (H eq_refl) as (_ & Hran & _ & Hst & _).
  split; [exact Hran | exact Hst].
Defined.

Lemma Run_success_result_witness :
  let w := fake.mkWorld
             [("/in/clip.mp4", "media"); ("/m/model.bin", "model")] [] []
             [(commandResult.zero, None,
               [("/tmp/media-transcriber-1/preprocessed-16k-mono.wav",
                 "audio")]);
              (commandResult.zero, None, [("/out/clip.txt", " hello ")])]
             "/tmp/media-transcriber-1" in
  let req := Request.mk "/in/clip.mp4" "/m/model.bin" "auto" "/out"
                        true true in
  let out := exec fake.handle (Run NewPipeline 0%nat req) w in
  snd (snd (fst out)) = None
  /\ exists tempDir content,
       created (fst (fst out)) = [tempDir]
       /\ removed (fst (fst out)) = []
       /\ List.length (ran (fst (fst out))) = 2%nat
       /\ Forall (fun c => snd c = None) (ran (fst (fst out)))
       /\ In (Call (readFile "/out/clip.txt") (inl content)) (fst (fst out))
       /\ fst (snd (fst out))
          = Result.mk (filepath.Join tempDir "preprocessed-16k-mono.wav")
                      "/out/clip.txt" (strings.TrimSpace content)
                      (logs (fst (fst out))) tempDir.
Proof.
  intros w req out. split; [reflexivity|].
  exact (Run_success_result fake.handle w NewPipeline 0%nat req
           (fst (fst out)) (fst (snd (fst out))) (snd (snd (fst out)))
           (snd out) eq_refl eq_refl).
Defined.

Lemma Run_callbacks_witness :
  let w := fake.mkWorld
             [("/in/clip.mp4", "media"); ("/m/model.bin", "model")] [] []
             [(commandResult.zero, None,
               [("/tmp/media-transcriber-1/preprocessed-16k-mono.wav",
                 "audio")]);
              (commandResult.mk "" "no model" 2,
               Some (ExitError "exit status 2" 2), [])]
             "/tmp/media-transcriber-1" in
  let req := Request.mk "/in/clip.mp4" "/m/model.bin" "auto" "/out"
                        true true in
  let out := exec fake.handle (Run NewPipeline 0%nat req) w in
  stages (fst (fst out)) = ["preprocessing"; "transcribing"]
  /\ map (fun m => match m with
                   | Stage s => s
                   | Command_ c => c
                   | Logged l => "log of " +++ Command l
                   end) (marks (fst (fst out)))
     = ["preprocessing"; "ffmpeg"; "log of ffmpeg";
        "transcribing"; "whisper.cpp"; "log of whisper.cpp"]
  /\ logged (fst (fst out)) = logs (fst (fst out))
  /\ exists n log1 log2,
       In n [0; 3; 6; 7]%nat
       /\ marks (fst (fst out))
          = filter (visible req)
              (firstn n [Stage "preprocessing"; Command_ "ffmpeg";
                         Logged log1;
                         Stage "transcribing"; Command_ "whisper.cpp";
                         Logged log2;
                         Stage "exporting"])
       /\ logs (fst (fst out))
          = firstn (List.length (ran (fst (fst out)))) [log1; log2]
       /\ (n = 0%nat <-> created (fst (fst out)) = [])
       /\ (snd (snd (fst out)) = None -> n = 7%nat).
Proof.
  intros w req out. split; [reflexivity|]. split; [reflexivity|].
  exact (proj2 (proj2 (proj2
           (Run_callbacks fake.handle w NewPipeline 0%nat req
              (fst (fst out)) (fst (snd (fst out))) (snd (snd (fst out)))
              (snd out) eq_refl)))).
Defined.

Lemma Run_commands_witness :
  let w := fake.mkWorld
             [("/in/clip.mp4", "media"); ("/m/model.bin", "model")] [] []
             [(commandResult.zero, None,
               [("/tmp/media-transcriber-1/preprocessed-16k-mono.wav",
                 "audio")]);
              (commandResult.zero, None, [("/out/clip.txt", " hello ")])]
             "/tmp/media-transcriber-1" in
  let req := Request.mk "/in/clip.mp4" "/m/model.bin" "auto" "/out"
                        true true in
  let out := exec fake.handle (Run NewPipeline 7%nat req) w in
  map (fun c => fst (fst (fst c))) (ran (fst (fst out)))
  = ["ffmpeg"; "whisper.cpp"]
  /\ contexts (fst (fst out)) = [7%nat; 7%nat].
Proof.
  intros w req out. split; [reflexivity|].
  exact (proj1 (Run_commands fake.handle w NewPipeline 7%nat req
                  (fst (fst out)) (fst (snd (fst out)))
                  (snd (snd (fst out))) (snd out) eq_refl)).
Defined.

Lemma announced_stages_are_statuses_witness :
  let w := fake.mkWorld
             [("/in/clip.mp4", "media"); ("/m/model.bin", "model")] [] []
             [(commandResult.zero, None,
               [("/tmp/media-transcriber-1/preprocessed-16k-mono.wav",
                 "audio")]);
              (commandResult.zero, None, [("/out/clip.txt", " hello ")])]
             "/tmp/media-transcriber-1" in
  let req := Request.mk "/in/clip.mp4" "/m/model.bin" "auto" "/out"
                        true true in
  let out := exec fake.handle (Run NewPipeline 0%nat req) w in
  In "exporting" (stages (fst (fst out)))
  /\ mapStageToStatus "exporting" = ("exporting", true).
Proof.
  intros w req out.
  assert (Hin : In "exporting" (stages (fst (fst out))))
    by (right; right; left; reflexivity).
  split; [exact Hin|].
  exact (proj1 (announced_stages_are_statuses fake.handle w NewPipeline
                  0%nat req (fst (fst out)) (fst (snd (fst out)))
                  (snd (snd (fst out))) (snd out) eq_refl
                  "exporting" Hin)).
Defined.

Lemma Run_cancellation_has_a_cause_witness :
  let w := fake.mkWorld
             [("/in/clip.mp4", "media"); ("/m/model.bin", "model")] [] []
             [(commandResult.mk "" "" (-1), Some Canceled, [])]
             "/tmp/media-transcriber-1" in
  let req := Request.mk "/in/clip.mp4" "/m/model.bin" "auto" "/out"
                        true true in
  let out := exec fake.handle (Run NewPipeline 0%nat req) w in
  (exists e, snd (snd (fst out)) = Some e /\ errors_Is isCanceled e = true)
  /\ exists cause, In cause (failures (fst (fst out)))
                   /\ errors_Is isCanceled cause = true.
Proof.
  intros w req out. split.
  - eexists. split; reflexivity.
  - exact (Run_cancellation_has_a_cause fake.handle w NewPipeline 0%nat req
             (fst (fst out)) (fst (snd (fst out))) (snd (snd (fst out)))
             (snd out) eq_refl _ eq_refl eq_refl).
Defined.

(** ** The name of the transcript *)

Section TranscriptName.

Lemma hasSeparator_rev (s acc : string) :
  hasSeparator (strings.rev s acc) = hasSeparator s || hasSeparator acc.
Proof.
  revert acc. induction s as [| c s IH]; intros acc; simpl; [reflexivity|].
  rewrite IH. simpl. destruct (filepath.IsPathSeparator c), (hasSeparator s);
    reflexivity.
Qed.

Lemma hasSeparator_append (a b : string) :
  hasSeparator (a +++ b) = hasSeparator a || hasSeparator b.
Proof.
  induction a as [| c a IH]; simpl; [reflexivity|].
  rewrite IH. apply orb_assoc.
Qed.

Lemma hasSeparator_untilSeparator (r : string) :
  hasSeparator (filepath.untilSeparator r) = false.
Proof.
  induction r as [| c r IH]; simpl; [reflexivity|].
  destruct (filepath.IsPathSeparator c) eqn:Hc; simpl; [reflexivity|].
  rewrite Hc. exact IH.
Qed.

Lemma hasSeparator_Base (path : string) :
  hasSeparator (filepath.Base path) = false \/ filepath.Base path = "/".
Proof.
  unfold filepath.Base. destruct (path =? "")%string; [left; reflexivity|].
  cbv zeta. destruct (_ =? "")%string; [right; reflexivity|]. left.
  rewrite hasSeparator_rev, hasSeparator_untilSeparator. reflexivity.
Qed.

Lemma hasSeparator_tail (c : ascii) (s : string) :
  hasSeparator (String c s) = false -> hasSeparator s = false.
Proof. simpl. intros H. apply orb_false_iff in H. tauto. Qed.

Lemma trimLeftSpace_eq (a : ascii) (s1 : string) :
  strings.trimLeftSpace (String a s1)
  = if strings.isSpace1 a then strings.trimLeftSpace s1
    else match s1 with
         | EmptyString => String a s1
         | String b s2 =>
             if strings.isSpace2 a b then strings.trimLeftSpace s2
             else match s2 with
                  | EmptyString => String a s1
                  | String c s3 =>
                      if strings.isSpace3 a b c
                      then strings.trimLeftSpace s3 else String a s1
                  end
         end.
Proof. destruct s1 as [| b [| c s3]]; reflexivity. Qed.

Lemma trimLeftSpaceRev_eq (a : ascii) (r1 : string) :
  strings.trimLeftSpaceRev (String a r1)
  = if strings.isSpace1 a then strings.trimLeftSpaceRev r1
    else match r1 with
         | EmptyString => String a r1
         | String b r2 =>
             if strings.isSpace2 b a then strings.trimLeftSpaceRev r2
             else match r2 with
                  | EmptyString => String a r1
                  | String c r3 =>
                      if strings.isSpace3 c b a
                      then strings.trimLeftSpaceRev r3 else String a r1
                  end
         end.
Proof. destruct r1 as [| b [| c r3]]; reflexivity. Qed.

Lemma hasSeparator_trimLeftSpace (n : nat) :
  forall s, (String.length s <= n)%nat -> hasSeparator s = false ->
  hasSeparator (strings.trimLeftSpace s) = false.
Proof.
  induction n as [| n IH]; intros s Hn Hs.
  - destruct s; [reflexivity | simpl in Hn; lia].
  - destruct s as [| a s1]; [reflexivity|]. rewrite trimLeftSpace_eq.
    pose proof (hasSeparator_tail _ _ Hs) as H1.
    destruct (strings.isSpace1 a); [apply IH; [simpl in *; lia | exact H1]|].
    destruct s1 as [| b s2]; [exact Hs|].
    pose proof (hasSeparator_tail _ _ H1) as H2.
    destruct (strings.isSpace2 a b);
      [apply IH; [simpl in *; lia | exact H2]|].
    destruct s2 as [| c s3]; [exact Hs|].
    pose proof (hasSeparator_tail _ _ H2) as H3.
    destruct (strings.isSpace3 a b c);
      [apply IH; [simpl in *; lia | exact H3] | exact Hs].
Qed.

Lemma hasSeparator_trimLeftSpaceRev (n : nat) :
  forall s, (String.length s <= n)%nat -> hasSeparator s = false ->
  hasSeparator (strings.trimLeftSpaceRev s) = false.
Proof.
  induction n as [| n IH]; intros s Hn Hs.
  - destruct s; [reflexivity | simpl in Hn; lia].
  - destruct s as [| a s1]; [reflexivity|]. rewrite trimLeftSpaceRev_eq.
    pose proof (hasSeparator_tail _ _ Hs) as H1.
    destruct (strings.isSpace1 a); [apply IH; [simpl in *; lia | exact H1]|].
    destruct s1 as [| b s2]; [exact Hs|].
    pose proof (hasSeparator_tail _ _ H1) as H2.
    destruct (strings.isSpace2 b a);
      [apply IH; [simpl in *; lia | exact H2]|].
    destruct s2 as [| c s3]; [exact Hs|].
    pose proof (hasSeparator_tail _ _ H2) as H3.
    destruct (strings.isSpace3 c b a);
      [apply IH; [simpl in *; lia | exact H3] | exact Hs].
Qed.

Lemma hasSeparator_TrimSpace (s : string) :
  hasSeparator s = false -> hasSeparator (strings.TrimSpace s) = false.
Proof.
  intros Hs. unfold strings.TrimSpace, strings.trimRightSpace.
  rewrite hasSeparator_rev, orb_false_r.
  apply (hasSeparator_trimLeftSpaceRev _ _ (le_n _)).
  rewrite hasSeparator_rev, orb_false_r.
  apply (hasSeparator_trimLeftSpace _ _ (le_n _)). exact Hs.
Qed.

Lemma hasSeparator_dropPrefix (prefix : string) :
  forall s, hasSeparator s = false ->
  hasSeparator (strings.dropPrefix s prefix) = false.
Proof.
  induction prefix as [| p prefix IH]; intros [| c s] Hs;
    cbn [strings.dropPrefix]; try exact Hs.
  apply IH. exact (hasSeparator_tail _ _ Hs).
Qed.

Lemma hasSeparator_TrimSuffix (s suffix : string) :
  hasSeparator s = false ->
  hasSeparator (strings.TrimSuffix s suffix) = false.
Proof.
  intros Hs. unfold strings.TrimSuffix.
  destruct (strings.HasPrefix _ _); [|exact Hs].
  rewrite hasSeparator_rev, orb_false_r. apply hasSeparator_dropPrefix.
  rewrite hasSeparator_rev, orb_false_r. exact Hs.
Qed.

(** X13: the transcript's file name.  Whatever the input path, the name
    is a non-empty stem other than a single dot followed by [.txt], and
    it holds no path separator: joined to the output directory it names
    a file of that directory itself. *)
Theorem transcriptFileName_safe (inputPath : string) :
  hasSeparator (transcriptFileName inputPath) = false
  /\ exists name,
       name <> "" /\ name <> "."
       /\ transcriptFileName inputPath = name +++ ".txt".
Proof.
  unfold transcriptFileName.
  destruct (hasSeparator_Base inputPath) as [Hb | Hb].
  - set (base := filepath.Base inputPath) in *.
    pose proof (hasSeparator_TrimSpace _
                  (hasSeparator_TrimSuffix base (filepath.Ext base) Hb))
      as Hname.
    set (name := strings.TrimSpace _) in *. cbv zeta.
    destruct (String.eqb_spec name "") as [He | He];
      [split; [reflexivity | exists "transcript"; repeat split; discriminate]|].
    destruct (String.eqb_spec name ".") as [Hd | Hd];
      [split; [reflexivity | exists "transcript"; repeat split; discriminate]|].
    destruct (name =? String filepath.Separator "")%string;
      [split; [reflexivity | exists "transcript"; repeat split; discriminate]|].
    cbn [orb]. split.
    + rewrite hasSeparator_append, Hname. reflexivity.
    + exists name. repeat split; assumption.
  - rewrite Hb. split; [reflexivity|].
    exists "transcript". repeat split; discriminate.
Qed.

End TranscriptName.

(** ** The application, one thread at a time *)

Section AppAlone.

Variable P :
  Context -> Request.t -> Prog transcribe.Eff (Result.t * option error).

Lemma skipn_length_app {A} (l l' : list A) :
  skipn (List.length l) (l ++ l') = l'.
Proof. induction l as [| a l IH]; [reflexivity | exact IH]. Qed.

Lemma news_app (s s' : State) (l : list Event.t) :
  published s' = published s ++ l -> news s s' = l.
Proof. intros H. unfold news. rewrite H. apply skipn_length_app. Qed.

Lemma pushed_app (s s' : State) (l : list Event.t) :
  emitted s' = emitted s ++ l -> pushed s s' = l.
Proof. intros H. unfold pushed. rewrite H. apply skipn_length_app. Qed.

Lemma payload_Publish (now : Time) (ev : Event.t) (b : EventBus) :
  payload (fst (Publish now ev b)) = payload ev.
Proof.
  unfold Publish, payload. simpl. destruct (IsZero _); reflexivity.
Qed.

(** The end of a symbolic run: the state reached is explicit; rewrite
    with the recorded outcomes and compare field by field. *)
Ltac alone_finish :=
  unfold with_app, with_active, with_Jobs in *;
  cbn [fst snd app nextCtx cancelled published emitted started caller
       tasks Settings_ Jobs activeJobID cancelFn bootstrap.events
       runtimeCtx with_app with_Jobs with_active];
  repeat match goal with
         | H : Publish ?n ?ev ?b = (_, _) |- _ =>
             let Hp := fresh "Hp" in
             pose proof (payload_Publish n ev b) as Hp; rewrite H in Hp;
             cbn [fst] in Hp; clear H
         end;
  repeat match goal with
         | H : negb _ = true |- _ => apply negb_true_iff in H
         | H : negb _ = false |- _ => apply negb_false_iff in H
         end;
  repeat match goal with
         | H : ?x = _ |- context [?x] => rewrite H
         end;
  unfold news, pushed;
  cbn [fst snd app nextCtx cancelled published emitted started caller
       tasks Settings_ Jobs activeJobID cancelFn bootstrap.events
       runtimeCtx];
  rewrite <- ?app_assoc; rewrite ?skipn_length_app, ?skipn_all;
  cbn [map List.app fst snd];
  repeat match goal with
         | H : payload _ = _ |- _ => rewrite H; clear H
         end;
  repeat split; try reflexivity.

Lemma exec_alone_Vis {X R : Type} (e : bootstrap.Eff X)
      (k : X -> Prog bootstrap.Eff R) (os : nat -> Oracle) (s : State) :
  exec (alone P) (Vis e k) (os, s)
  = let (x, s1) := handle P (os 0%nat) e s in
    let '(tr, r, w) := exec (alone P) (k x) (fun n => os (S n), s1) in
    (Call e x :: tr, r, w).
Proof.
  cbn [exec]. unfold alone at 1. cbn [fst snd].
  destruct (handle P (os 0%nat) e s) as [x s1]. reflexivity.
Qed.

Lemma exec_alone_Ret {R : Type} (r : R) (w : (nat -> Oracle) * State) :
  exec (alone P) (Ret r) w = ([], r, w).
Proof. reflexivity. Qed.

(** One step of a thread running alone: reduce, or split on the next
    answer or test, keeping its outcome. *)
Ltac alone_step :=
  first
    [ rewrite exec_alone_Vis;
      cbn [handle app nextCtx cancelled published emitted started caller
           tasks Settings_ Jobs activeJobID cancelFn bootstrap.events
           runtimeCtx with_app with_Jobs with_active]
    | rewrite exec_alone_Ret
    | progress (unfold publishStatus, publishEvent, clearActiveJob, perform;
                cbn [bind])
    | match goal with
      | |- context [let (_, _) := ?x in _] =>
          lazymatch x with
          | exec _ _ _ => fail
          | (let (_, _) := _ in _) => fail
          | _ => destruct x eqn:?
          end
      | |- context [match ?x with Some _ => _ | None => _ end] =>
          destruct x eqn:?
      | |- context [if ?b then _ else _] => destruct b eqn:?
      end ].

(** The end of such a run: name the outcome. *)
Ltac alone_done :=
  let H := fresh in
  intros H; injection H; clear H; intros; subst.

(** X15: [StartTranscription], run without interference.  When the
    settings cannot be loaded it returns the wrapped error, and when a
    job is running it returns [ErrJobAlreadyRunning]; in both cases the
    zero job is returned and the application is left exactly as it was:
    nothing is published and no goroutine is started.  Otherwise it
    returns the new job, in status preprocessing and named after the
    clock; the manager holds that job, the active job id and a new
    cancel function are recorded, the loaded settings are stored, one
    goroutine is started for the job with these settings, and exactly
    one event is published, the start event, which is pushed to the
    runtime when a runtime context is set. *)
Theorem StartTranscription_outcome (inputPath : string)
        (os : nat -> Oracle) (s : State)
        (tr : list (call bootstrap.Eff)) (job : Job) (err : option error)
        (os' : nat -> Oracle) (s' : State) :
  exec (alone P) (StartTranscription inputPath) (os, s)
  = (tr, (job, err), (os', s')) ->
  match snd (load (os 0%nat)) with
  | Some e =>
      err = Some (wrapError ("load settings: " +++ Error e) e)
      /\ job = noJob /\ s' = s
  | None =>
      let settings := fst (load (os 0%nat)) in
      let jobID := "job-" +++ itoa (unixNano (os 1%nat)) in
      if IsRunning (Jobs (app s)) then
        err = Some ErrJobAlreadyRunning /\ job = noJob /\ s' = s
      else
        err = None
        /\ job = mkJob jobID JobStatusPreprocessing
        /\ Jobs (app s') = mkManager job
        /\ activeJobID (app s') = jobID
        /\ cancelFn (app s') = Some (nextCtx s)
        /\ Settings_ (app s') = settings
        /\ started s' = started s ++ [jobID]
        /\ tasks s'
           = tasks s ++ [(jobID, runTranscriptionJob P (nextCtx s) jobID
                                   inputPath settings)]
        /\ map payload (news s s')
           = [Event.mk 0 0 jobID EventTypeStatus JobStatusPreprocessing
                       "Job started" "" [] 0 "" "" ""]
        /\ pushed s s' = (if runtimeCtx (app s) then news s s' else [])
        /\ cancelled s' = cancelled s
  end.
Proof.
  intros Hexec. pattern job, err, s'.
  match goal with |- ?Q _ _ _ => set (spec := Q) end.
  revert Hexec. unfold StartTranscription.
  destruct s as [[settings0 jobs0 active0 cancel0 bus0 rt0] nextCtx0
                   cancelled0 published0 emitted0 started0 caller0 tasks0].
  repeat alone_step.
  all: alone_done; subst spec; cbv beta.
  all: cbn [fst snd app nextCtx cancelled published emitted started caller
           tasks Settings_ Jobs activeJobID cancelFn bootstrap.events
           runtimeCtx].
  all: unfold IsRunning; unfold Start in *.
  all: destruct (isRunning (Status (current jobs0))); try discriminate.
  all: repeat match goal with H : (_, _) = (_, _) |- _ =>
                injection H; clear H; intros; subst end.
  all: try (repeat split; reflexivity).
  all: match goal with
       | H : Publish ?n ?ev ?b = (_, _) |- _ =>
           pose proof (payload_Publish n ev b) as Hp; rewrite H in Hp;
           cbn [fst] in Hp
       end.
  all: unfold news, pushed; cbn [published emitted];
    rewrite ?skipn_length_app, ?skipn_all.
  all: cbn [map]; rewrite Hp.
  all: repeat split; reflexivity.
Qed.

(** X16: [CancelTranscription], run without interference.  With no
    cancel function recorded it returns [ErrNoRunningJob] and changes
    nothing.  With one recorded it calls it and returns no error,
    whether or not the manager still had a running job: the manager is
    cancelled if it was running and is left as it was otherwise; the
    status event "Cancellation requested" is published for the
    recorded job id (none when that id is empty); the recorded job id
    and cancel function stay, and no goroutine is started. *)
Theorem CancelTranscription_outcome
        (os : nat -> Oracle) (s : State)
        (tr : list (call bootstrap.Eff)) (err : option error)
        (os' : nat -> Oracle) (s' : State) :
  exec (alone P) CancelTranscription (os, s) = (tr, err, (os', s')) ->
  match cancelFn (app s) with
  | None => err = Some ErrNoRunningJob /\ s' = s
  | Some ctx =>
      err = None
      /\ cancelled s' = ctx :: cancelled s
      /\ Jobs (app s')
         = (if IsRunning (Jobs (app s))
            then mkManager (mkJob (ID (current (Jobs (app s))))
                                  JobStatusCancelled)
            else Jobs (app s))
      /\ map payload (news s s')
         = (if (activeJobID (app s) =? "")%string then []
            else [Event.mk 0 0 (activeJobID (app s)) EventTypeStatus
                           JobStatusCancelled "Cancellation requested"
                           "" [] 0 "" "" ""])
      /\ pushed s s' = (if runtimeCtx (app s) then news s s' else [])
      /\ activeJobID (app s') = activeJobID (app s)
      /\ cancelFn (app s') = cancelFn (app s)
      /\ tasks s' = tasks s /\ started s' = started s
  end.
Proof.
  intros Hexec. pattern err, s'.
  match goal with |- ?Q _ _ => set (spec := Q) end.
  revert Hexec. unfold CancelTranscription.
  destruct s as [[settings0 jobs0 active0 cancel0 bus0 rt0] nextCtx0
                   cancelled0 published0 emitted0 started0 caller0 tasks0].
  repeat alone_step.
  all: alone_done; subst spec; cbv beta.
  all: cbn [fst snd app nextCtx cancelled published emitted started caller
           tasks Settings_ Jobs activeJobID cancelFn bootstrap.events
           runtimeCtx].
  all: unfold IsRunning; unfold Cancel in *.
  all: destruct (isRunning (Status (current jobs0))); cbn [negb] in *;
    try discriminate.
  all: repeat match goal with H : (_, _) = (_, _) |- _ =>
                injection H; clear H; intros; subst end.
  all: try discriminate.
  all: try match goal with
       | H : errors_Is _ _ = false |- _ => simpl in H; discriminate H
       end.
  all: try match goal with
       | H : Publish ?n ?ev ?b = (_, _) |- _ =>
           pose proof (payload_Publish n ev b) as Hp; rewrite H in Hp;
           cbn [fst] in Hp
       end.
  all: unfold news, pushed; cbn [published emitted];
    rewrite ?skipn_length_app, ?skipn_all.
  all: repeat match goal with
       | H : negb _ = _ |- _ => rewrite ?negb_true_iff, ?negb_false_iff in H
       end.
  all: repeat match goal with
       | H : (_ =? _)%string = _ |- _ => rewrite H
       end.
  all: cbn [map]; rewrite ?Hp.
  all: try destruct rt0.
  all: repeat split; reflexivity.
Qed.

Lemma during_refl (j : string) (s : State) : during j s s.
Proof.
  unfold during. split; [|repeat split].
  exists []. rewrite !app_nil_r. split; [reflexivity|].
  split; [destruct (runtimeCtx (app s)); rewrite ?app_nil_r; reflexivity|].
  constructor.
Qed.

Lemma during_trans (j : string) (s1 s2 s3 : State) :
  during j s1 s2 -> during j s2 s3 -> during j s1 s3.
Proof.
  unfold during.
  intros ((l & Hp & He & Hl) & H1 & H2 & H3 & H4 & H5 & H6 & H7 & H8 & H9
          & H10 & H11)
         ((l' & Hp' & He' & Hl') & H1' & H2' & H3' & H4' & H5' & H6' & H7'
          & H8' & H9' & H10' & H11').
  split; [|repeat split; congruence].
  exists (l ++ l'). rewrite Hp', Hp, He', He, H5, <- !app_assoc.
  split; [reflexivity|]. split.
  - destruct (runtimeCtx (app s1)); rewrite ?app_nil_r; reflexivity.
  - apply Forall_app. split; assumption.
Qed.

Lemma Transition_ID (status : JobStatus) (m : Manager) :
  ID (current (snd (Transition status m))) = ID (current m).
Proof.
  unfold Transition.
  destruct (_ && _); [reflexivity|]. destruct (_ =? _)%string; [reflexivity|].
  destruct (negb _); reflexivity.
Qed.

Lemma Publish_maxEvents (now : Time) (ev : Event.t) (b : EventBus) :
  maxEvents (snd (Publish now ev b)) = maxEvents b.
Proof. reflexivity. Qed.

(** What [publishEvent] does to the state. *)
Lemma publishEvent_during (j : string) (ev : Event.t)
      (os : nat -> Oracle) (s : State) (tr : list (call bootstrap.Eff))
      (u : unit) (os' : nat -> Oracle) (s' : State) :
  Event.JobID ev = j ->
  Event.Type_ ev = EventTypeLog
  \/ Event.Type_ ev = EventTypeStatus /\ In (Event.Status ev) active ->
  exec (alone P) (publishEvent ev) (os, s) = (tr, u, (os', s')) ->
  during j s s'.
Proof.
  intros Hj Hty.
  destruct s as [[settings0 jobs0 active0 cancel0 bus0 rt0] nextCtx0
                   cancelled0 published0 emitted0 started0 caller0 tasks0].
  repeat alone_step.
  all: alone_done; unfold during;
    cbn [fst snd app nextCtx cancelled published emitted started caller
         tasks Settings_ Jobs activeJobID cancelFn bootstrap.events
         runtimeCtx].
  all: match goal with
       | H : Publish ?n ?ev ?b = (?t, ?b') |- _ =>
           pose proof (finalized_fields (wrap64 (nextSeq b + 1)) (n, ev))
             as (F1 & F2 & F3 & _);
           rewrite <- Publish_finalized, H in F1, F2, F3;
           cbn [fst snd] in F1, F2, F3;
           pose proof (Publish_maxEvents n ev b) as Hm; rewrite H in Hm;
           cbn [snd] in Hm
       end.
  all: split; [|repeat split; assumption].
  all: eexists [_]; split; [reflexivity|];
    split; [rewrite ?app_nil_r; reflexivity|].
  all: constructor; [|constructor].
  all: rewrite F1, F2, F3; split; auto.
Qed.

Lemma callbacks_during (j : string) {X : Type} (e : transcribe.Eff X)
      (os : nat -> Oracle) (s : State) (tr : list (call bootstrap.Eff))
      (x : X) (os' : nat -> Oracle) (s' : State) :
  exec (alone P) (callbacks j X e) (os, s) = (tr, x, (os', s')) ->
  during j s s'.
Proof.
  destruct e; cbn [callbacks].
  9: { apply publishEvent_during; [reflexivity | left; reflexivity]. }
  8: { unfold mapStageToStatus.
       destruct (stage =? "preprocessing")%string;
         [|destruct (stage =? "transcribing")%string;
           [|destruct (stage =? "exporting")%string]];
         cbn [negb].
       4: { rewrite exec_alone_Ret. alone_done. apply during_refl. }
       all: cbn [bind perform]; rewrite exec_alone_Vis; cbn [handle].
       all: match goal with
            | |- context [Transition ?st ?m] =>
                pose proof (Transition_ID st m) as HID;
                destruct (Transition st m) as [[err |] m'] eqn:HT;
                cbn [snd] in HID
            end.
       all: match goal with
            | |- context [exec (alone P) ?p (?os1, ?s1)] =>
                destruct (exec (alone P) p (os1, s1))
                  as [[tr1 u1] [os1' s1']] eqn:Hrest
            end.
       all: alone_done.
       all: try (rewrite exec_alone_Ret in Hrest; injection Hrest as <- <- <- <-).
       all: try (apply (publishEvent_during j) in Hrest;
                 [|reflexivity
                  |right; split; [reflexivity | unfold active; simpl; tauto]]).
       all: eapply during_trans; [|try exact Hrest; try apply during_refl].
       all: destruct s as [[settings0 jobs0 active0 cancel0 bus0 rt0] nextCtx0
                   cancelled0 published0 emitted0 started0 caller0 tasks0].
       all: unfold during; cbn in *.
       all: (split; [exists []; rewrite !app_nil_r; repeat split;
                     [destruct rt0; rewrite ?app_nil_r; reflexivity
                     | constructor]
                    | repeat split; assumption]). }
  all: unfold perform; rewrite exec_alone_Vis; cbn [handle];
    rewrite exec_alone_Ret; alone_done; apply during_refl.
Qed.

Lemma interp_during (j : string) {R : Type} (p : Prog transcribe.Eff R) :
  forall (os : nat -> Oracle) (s : State) (tr : list (call bootstrap.Eff))
         (r : R) (os' : nat -> Oracle) (s' : State),
  exec (alone P) (interp (callbacks j) p) (os, s) = (tr, r, (os', s')) ->
  during j s s'.
Proof.
  induction p as [r0 | X e k IH]; intros os s tr r os' s'; cbn [interp].
  - rewrite exec_alone_Ret. alone_done. apply during_refl.
  - rewrite exec_bind.
    destruct (exec (alone P) (callbacks j X e) (os, s))
      as [[tr1 x] [os1 s1]] eqn:H1.
    destruct (exec (alone P) (interp (callbacks j) (k x)) (os1, s1))
      as [[tr2 r2] [os2 s2]] eqn:H2.
    alone_done.
    eapply during_trans;
      [eapply callbacks_during; exact H1 | eapply IH; exact H2].
Qed.

(** The goroutine after its pipeline has returned. *)
Lemma runTranscriptionJob_tail (ctx : Context) (j inputPath : string)
      (settings : Settings) (os : nat -> Oracle) (s : State)
      (tr1 : list (call bootstrap.Eff)) (result : Result.t)
      (err : option error) (os1 : nat -> Oracle) (s1 : State)
      (tr : list (call bootstrap.Eff)) (u : unit)
      (os2 : nat -> Oracle) (s2 : State) :
  exec (alone P)
       (interp (callbacks j)
          (P ctx (Request.mk inputPath (ModelPath settings)
                             (Language settings) (OutputDir settings)
                             true true)))
       (os, s)
  = (tr1, (result, err), (os1, s1)) ->
  exec (alone P) (runTranscriptionJob P ctx j inputPath settings) (os, s)
  = (tr, u, (os2, s2)) ->
  (match err with
   | Some e =>
       if errors_Is isCanceled e then
         Jobs (app s2) = snd (Transition JobStatusCancelled (Jobs (app s1)))
         /\ map payload (news s1 s2)
            = [Event.mk 0 0 j EventTypeStatus JobStatusCancelled
                        "Job cancelled" "" [] 0 "" "" ""]
       else
         Jobs (app s2) = snd (Transition JobStatusFailed (Jobs (app s1)))
         /\ map payload (news s1 s2)
            = Event.mk 0 0 j EventTypeStatus JobStatusFailed "Job failed"
                       "" [] 0 "" "" ""
              :: Event.mk 0 0 j EventTypeError JobStatusFailed (Error e)
                          "" [] 0 "" "" ""
              :: match errors_As_PipelineError e with
                 | Some log =>
                     if (Command log =? "")%string then []
                     else [logEvent j "Failed command" log]
                 | None => []
                 end
   | None =>
       let cleanup :=
         if (Result.tempDir result =? "")%string then None
         else dep (os1 0%nat) _ (os_RemoveAll (Result.tempDir result)) in
       Jobs (app s2) = snd (Transition JobStatusDone (Jobs (app s1)))
       /\ map payload (news s1 s2)
          = match cleanup with
            | Some cleanupErr =>
                [Event.mk 0 0 j EventTypeError ""
                          ("cleanup temporary files: " +++ Error cleanupErr)
                          "" [] 0 "" "" ""]
            | None => []
            end
            ++ match fst (Transition JobStatusDone (Jobs (app s1))) with
               | None =>
                   [Event.mk 0 0 j EventTypeStatus JobStatusDone
                             "Job completed" "" [] 0 "" "" ""]
               | Some _ => []
               end
            ++ [Event.mk 0 0 j EventTypeResult JobStatusDone
                         "Transcript exported" "" [] 0 "" ""
                         (Result.TextPath result)]
   end)
  /\ published s2 = published s1 ++ news s1 s2
  /\ pushed s1 s2 = (if runtimeCtx (app s1) then news s1 s2 else [])
  /\ activeJobID (app s2)
     = (if (activeJobID (app s1) =? j)%string then ""
        else activeJobID (app s1))
  /\ cancelFn (app s2)
     = (if (activeJobID (app s1) =? j)%string then None
        else cancelFn (app s1))
  /\ Settings_ (app s2) = Settings_ (app s1)
  /\ tasks s2 = tasks s1 /\ started s2 = started s1
  /\ cancelled s2 = cancelled s1.
Proof.
  intros Hpipe Hrun. unfold runTranscriptionJob in Hrun.
  rewrite exec_bind, Hpipe in Hrun. clear Hpipe. revert Hrun.
  destruct (exec _ _ _) as [[tr2 u2] [os2' s2']] eqn:Htail.
  intros Hrun. injection Hrun as _ _ _ <-.
  pattern s2'.
  match goal with |- ?Q _ => set (spec := Q) end.
  revert Htail. unfold Cleanup.
  destruct s1 as [[settings0 jobs0 active0 cancel0 bus0 rt0] nextCtx0
                    cancelled0 published0 emitted0 started0 caller0 tasks0].
  destruct err as [e |]; [destruct (errors_Is isCanceled e) eqn:Hc|].
  all: repeat first [ progress cbn [interp callbacks fst snd] | alone_step ].
  all: alone_done; subst spec; cbv beta zeta.
  all: alone_finish.
Qed.

Lemma payload_JobID (l l' : list Event.t) (j : string) :
  map payload l = l' -> Forall (fun e => Event.JobID e = j) l' ->
  Forall (fun e => Event.JobID e = j) l.
Proof.
  intros <-. induction l as [| e l IH]; intros H; constructor.
  - apply Forall_inv in H. exact H.
  - apply IH. apply Forall_inv_tail in H. exact H.
Qed.

(** X17: how the goroutine reports the pipeline's outcome, run without
    interference from the state [s1] in which the pipeline returned.
    An error that wraps [context.Canceled] asks the manager for
    cancelled and publishes the single status event "Job cancelled".
    Any other error asks for failed and publishes the status event
    "Job failed", then one error event with the error's text, then the
    log of the failed command when the error is a [PipelineError] that
    carries one.  Success removes the workspace (reporting a failure
    to do so as an error event), asks for done, publishes "Job
    completed" only if the manager accepted, and publishes the result
    event with the transcript path in any case.  The manager's
    verdict on the requested status is never reported. *)
Theorem runTranscriptionJob_outcome (ctx : Context) (j inputPath : string)
      (settings : Settings) (os : nat -> Oracle) (s : State)
      (tr1 : list (call bootstrap.Eff)) (result : Result.t)
      (err : option error) (os1 : nat -> Oracle) (s1 : State)
      (tr : list (call bootstrap.Eff)) (u : unit)
      (os2 : nat -> Oracle) (s2 : State) :
  exec (alone P)
       (interp (callbacks j)
          (P ctx (Request.mk inputPath (ModelPath settings)
                             (Language settings) (OutputDir settings)
                             true true)))
       (os, s)
  = (tr1, (result, err), (os1, s1)) ->
  exec (alone P) (runTranscriptionJob P ctx j inputPath settings) (os, s)
  = (tr, u, (os2, s2)) ->
  match err with
  | Some e =>
      if errors_Is isCanceled e then
        Jobs (app s2) = snd (Transition JobStatusCancelled (Jobs (app s1)))
        /\ map payload (news s1 s2)
           = [Event.mk 0 0 j EventTypeStatus JobStatusCancelled
                       "Job cancelled" "" [] 0 "" "" ""]
      else
        Jobs (app s2) = snd (Transition JobStatusFailed (Jobs (app s1)))
        /\ map payload (news s1 s2)
           = Event.mk 0 0 j EventTypeStatus JobStatusFailed "Job failed"
                      "" [] 0 "" "" ""
             :: Event.mk 0 0 j EventTypeError JobStatusFailed (Error e)
                         "" [] 0 "" "" ""
             :: match errors_As_PipelineError e with
                | Some log =>
                    if (Command log =? "")%string then []
                    else [logEvent j "Failed command" log]
                | None => []
                end
  | None =>
      let cleanup :=
        if (Result.tempDir result =? "")%string then None
        else dep (os1 0%nat) _ (os_RemoveAll (Result.tempDir result)) in
      Jobs (app s2) = snd (Transition JobStatusDone (Jobs (app s1)))
      /\ map payload (news s1 s2)
         = match cleanup with
           | Some cleanupErr =>
               [Event.mk 0 0 j EventTypeError ""
                         ("cleanup temporary files: " +++ Error cleanupErr)
                         "" [] 0 "" "" ""]
           | None => []
           end
           ++ match fst (Transition JobStatusDone (Jobs (app s1))) with
              | None =>
                  [Event.mk 0 0 j EventTypeStatus JobStatusDone
                            "Job completed" "" [] 0 "" "" ""]
              | Some _ => []
              end
           ++ [Event.mk 0 0 j EventTypeResult JobStatusDone
                        "Transcript exported" "" [] 0 "" ""
                        (Result.TextPath result)]
  end
  /\ pushed s1 s2 = (if runtimeCtx (app s1) then news s1 s2 else []).
Proof.
  intros Hpipe Hrun.
  destruct (runTranscriptionJob_tail _ _ _ _ _ _ _ _ _ _ _ _ _ _ _
              Hpipe Hrun) as (H & _ & Hpush & _).
  split; [exact H | exact Hpush].
Qed.

(** X18: a goroutine keeps to its job, whatever pipeline it runs (any
    program over the dependencies and the two callbacks).  Run to its
    end without interference, it publishes only events that carry its
    own job id; it clears the recorded job id and cancel function when
    they are those of its job and leaves them alone when a newer job
    has replaced them; it never changes the job id the manager holds,
    the settings, the goroutines or the contexts cancelled. *)
Theorem goroutine_keeps_to_its_job (ctx : Context) (j inputPath : string)
      (settings : Settings) (os : nat -> Oracle) (s : State)
      (tr : list (call bootstrap.Eff)) (u : unit)
      (os2 : nat -> Oracle) (s2 : State) :
  exec (alone P) (runTranscriptionJob P ctx j inputPath settings) (os, s)
  = (tr, u, (os2, s2)) ->
  published s2 = published s ++ news s s2
  /\ Forall (fun e => Event.JobID e = j) (news s s2)
  /\ activeJobID (app s2)
     = (if (activeJobID (app s) =? j)%string then ""
        else activeJobID (app s))
  /\ cancelFn (app s2)
     = (if (activeJobID (app s) =? j)%string then None
        else cancelFn (app s))
  /\ ID (current (Jobs (app s2))) = ID (current (Jobs (app s)))
  /\ Settings_ (app s2) = Settings_ (app s)
  /\ tasks s2 = tasks s /\ started s2 = started s
  /\ cancelled s2 = cancelled s.
Proof.
  intros Hrun.
  destruct (exec (alone P)
              (interp (callbacks j)
                 (P ctx (Request.mk inputPath (ModelPath settings)
                           (Language settings) (OutputDir settings)
                           true true))) (os, s))
    as [[tr1 [result err]] [os1 s1]] eqn:Hpipe.
  pose proof (interp_during j _ _ _ _ _ _ _ Hpipe)
    as ((l & Hp & _ & Hl) & HID & Hact & Hcf & Hset & _ & _ & _ & Hcan
        & Hst & _ & Hts).
  destruct (runTranscriptionJob_tail _ _ _ _ _ _ _ _ _ _ _ _ _ _ _
              Hpipe Hrun)
    as (H & Hp2 & _ & Hact2 & Hcf2 & Hset2 & Hts2 & Hst2 & Hcan2).
  assert (Hnews : news s s2 = l ++ news s1 s2)
    by (apply news_app; rewrite Hp2, Hp, app_assoc; reflexivity).
  assert (Htail : Forall (fun e => Event.JobID e = j) (news s1 s2)
                  /\ ID (current (Jobs (app s2)))
                     = ID (current (Jobs (app s1)))).
  { destruct err as [e |]; [destruct (errors_Is isCanceled e)|];
      cbv zeta in H; destruct H as (HJ & HN); rewrite HJ, Transition_ID;
      (split; [|reflexivity]); apply (payload_JobID _ _ _ HN).
    - repeat constructor.
    - destruct (errors_As_PipelineError e) as [log |];
        [destruct (Command log =? "")%string|]; repeat constructor.
    - destruct (if (Result.tempDir result =? "")%string then None else _);
        destruct (fst (Transition JobStatusDone (Jobs (app s1))));
        repeat constructor. }
  destruct Htail as (Htail & HID2).
  rewrite Hnews, Hp2, Hp, Hact2, Hcf2, Hact, Hcf, HID2, HID, Hset2, Hset,
    Hts2, Hts, Hst2, Hst, Hcan2, Hcan, app_assoc.
  repeat split; try reflexivity.
  apply Forall_app. split; [|exact Htail].
  eapply Forall_impl; [|exact Hl]. intros e (He & _). exact He.
Qed.

(** X19: while the pipeline runs, whatever it does, the two callbacks
    are its only way to the application: between the start of the
    pipeline and its return only log events and status events of the
    three active statuses are published, all for the goroutine's job
    and each pushed to the runtime when a runtime context is set; the
    manager keeps its job id; the recorded job id and cancel function,
    the settings, the goroutines and the contexts stay as they
    are. *)
Theorem pipeline_callbacks_frame (j : string) {R : Type}
      (p : Prog transcribe.Eff R)
      (os : nat -> Oracle) (s : State) (tr : list (call bootstrap.Eff))
      (r : R) (os' : nat -> Oracle) (s' : State) :
  exec (alone P) (interp (callbacks j) p) (os, s) = (tr, r, (os', s')) ->
  published s' = published s ++ news s s'
  /\ Forall (fun e =>
               Event.JobID e = j
               /\ (Event.Type_ e = EventTypeLog
                   \/ Event.Type_ e = EventTypeStatus
                      /\ In (Event.Status e) active)) (news s s')
  /\ pushed s s' = (if runtimeCtx (app s) then news s s' else [])
  /\ ID (current (Jobs (app s'))) = ID (current (Jobs (app s)))
  /\ activeJobID (app s') = activeJobID (app s)
  /\ cancelFn (app s') = cancelFn (app s)
  /\ Settings_ (app s') = Settings_ (app s)
  /\ tasks s' = tasks s /\ started s' = started s
  /\ cancelled s' = cancelled s.
Proof.
  intros Hexec.
  pose proof (interp_during j _ _ _ _ _ _ _ Hexec)
    as ((l & Hp & He & Hl) & HID & Hact & Hcf & Hset & _ & _ & _ & Hcan
        & Hst & _ & Hts).
  rewrite (news_app _ _ _ Hp).
  rewrite (pushed_app _ _ _ He).
  repeat split; assumption.
Qed.

Lemma Transition_error (status : JobStatus) (m m' : Manager) (e : error) :
  Transition status m = (Some e, m') -> m' = m.
Proof.
  unfold Transition. destruct (_ && _); [intros [= _ <-]; reflexivity|].
  destruct (_ =? _)%string; [discriminate|].
  destruct (negb _); [intros [= _ <-]; reflexivity | discriminate].
Qed.

(** X20: the stage callback of the goroutine.  A stage name other than
    preprocessing, transcribing and exporting changes nothing.  For one
    of these the manager is asked for the status of that name: when it
    accepts, the status event "Running ... stage" of the job is
    published; when it refuses (the job was cancelled or replaced
    meanwhile and the status is not reachable from where the manager
    stands) nothing is published and the application is left exactly
    as it was. *)
Theorem stage_callback_outcome (j stage : string)
      (os : nat -> Oracle) (s : State) (tr : list (call bootstrap.Eff))
      (u : unit) (os' : nat -> Oracle) (s' : State) :
  exec (alone P) (callbacks j unit (transcribe.OnStage stage)) (os, s)
  = (tr, u, (os', s')) ->
  if existsb (String.eqb stage) allStages then
    match fst (Transition stage (Jobs (app s))) with
    | None =>
        Jobs (app s') = snd (Transition stage (Jobs (app s)))
        /\ map payload (news s s')
           = [Event.mk 0 0 j EventTypeStatus stage
                       ("Running " +++ stage +++ " stage") "" [] 0 "" "" ""]
        /\ pushed s s' = (if runtimeCtx (app s) then news s s' else [])
    | Some _ => s' = s
    end
  else s' = s.
Proof.
  intros Hexec. pattern s'.
  match goal with |- ?Q _ => set (spec := Q) end.
  revert Hexec. cbn [callbacks]. unfold mapStageToStatus, allStages.
  unfold JobStatusPreprocessing, JobStatusTranscribing, JobStatusExporting.
  destruct s as [[settings0 jobs0 active0 cancel0 bus0 rt0] nextCtx0
                   cancelled0 published0 emitted0 started0 caller0 tasks0].
  destruct (String.eqb_spec stage "preprocessing") as [-> | H1];
    [|destruct (String.eqb_spec stage "transcribing") as [-> | H2];
      [|destruct (String.eqb_spec stage "exporting") as [-> | H3]]];
    cbn [negb].
  all: repeat alone_step.
  all: alone_done; subst spec; cbv beta.
  all: unfold allStages; cbn [existsb String.eqb Ascii.eqb Bool.eqb orb andb].
  all: try (apply String.eqb_neq in H1; apply String.eqb_neq in H2;
            apply String.eqb_neq in H3; rewrite H1, H2, H3);
    cbn [orb].
  all: try match goal with
       | H : Transition _ _ = (Some _, _) |- _ =>
           pose proof (Transition_error _ _ _ _ H); subst
       end.
  all: alone_finish.
Qed.

End AppAlone.

Lemma StartTranscription_outcome_witness :
  let out := exec (alone scenario.production)
                  (StartTranscription "/in/clip.mp4")
                  (fun _ => scenario.world, init 100) in
  fst (snd (fst out)) = mkJob "job-1" JobStatusPreprocessing
  /\ activeJobID (app (snd (snd out))) = "job-1"
  /\ List.length (tasks (snd (snd out))) = 1%nat.
Proof.
  intros out.
  pose proof (StartTranscription_outcome scenario.production "/in/clip.mp4"
                (fun _ => scenario.world) (init 100)
                (fst (fst out)) (fst (snd (fst out))) (snd (snd (fst out)))
                (fst (snd out)) (snd (snd out)) eq_refl) as H.
  hnf in H.
  destruct H as (_ & Hjob & _ & Hact & _ & _ & _ & Htasks & _).
  split; [exact Hjob|]. split; [exact Hact|].
  exact (f_equal (@List.length _) Htasks).
Defined.

Lemma CancelTranscription_outcome_witness :
  let s := mkState (mkApp scenario.settings
                          (mkManager (mkJob "job-1" JobStatusPreprocessing))
                          "job-1" (Some 1%nat) (NewEventBus 100) false)
                   2%nat [] [] [] ["job-1"] None [] in
  let out := exec (alone scenario.production) CancelTranscription
                  (fun _ => scenario.world, s) in
  cancelFn (app s) = Some 1%nat
  /\ snd (fst out) = None
  /\ cancelled (snd (snd out)) = [1%nat]
  /\ Jobs (app (snd (snd out))) = mkManager (mkJob "job-1" JobStatusCancelled).
Proof.
  intros s. cbv zeta.
  destruct (exec (alone scenario.production) CancelTranscription _)
    as [[tr err] [os' s']] eqn:Hout.
  pose proof (CancelTranscription_outcome scenario.production _ _ _ _ _ _
                Hout) as H.
  hnf in H. destruct H as (Herr & Hc & Hjobs & _).
  split; [reflexivity|]. split; [exact Herr|]. split; [exact Hc|].
  exact Hjobs.
Defined.

Lemma runTranscriptionJob_outcome_witness :
  let s := mkState (mkApp scenario.settings
                          (mkManager (mkJob "job-1" JobStatusPreprocessing))
                          "job-1" (Some 1%nat) (NewEventBus 100) false)
                   2%nat [] [] [] ["job-1"] None [] in
  let req := Request.mk "/in/clip.mp4" (ModelPath scenario.settings)
                        (Language scenario.settings)
                        (OutputDir scenario.settings) true true in
  let out1 := exec (alone scenario.production)
                   (interp (callbacks "job-1") (scenario.production 1%nat req))
                   (fun _ => scenario.world, s) in
  let out := exec (alone scenario.production)
                  (runTranscriptionJob scenario.production 1%nat "job-1"
                                       "/in/clip.mp4" scenario.settings)
                  (fun _ => scenario.world, s) in
  snd (snd (fst out1)) = None
  /\ Jobs (app (snd (snd out)))
     = snd (Transition JobStatusDone (Jobs (app (snd (snd out1)))))
  /\ pushed (snd (snd out1)) (snd (snd out))
     = (if runtimeCtx (app (snd (snd out1)))
        then news (snd (snd out1)) (snd (snd out)) else []).
Proof.
  intros s req out1 out.
  assert (Herr : snd (snd (fst out1)) = None) by (vm_compute; reflexivity).
  split; [exact Herr|]. revert Herr. subst out1 out.
  destruct (exec (alone scenario.production) (interp _ _) _)
    as [[tr1 [result err]] [os1 s1]] eqn:Hpipe.
  destruct (exec (alone scenario.production) (runTranscriptionJob _ _ _ _ _) _)
    as [[tr u] [os2 s2]] eqn:Hrun.
  cbn [fst snd]. intros ->.
  pose proof (runTranscriptionJob_outcome scenario.production 1%nat "job-1"
                "/in/clip.mp4" scenario.settings _ _ _ _ _ _ _ _ _ _ _
                Hpipe Hrun) as ((HJ & _) & Hpush).
  split; [exact HJ|].
  exact Hpush.
Defined.

Lemma goroutine_keeps_to_its_job_witness :
  let s := mkState (mkApp scenario.settings
                          (mkManager (mkJob "job-1" JobStatusPreprocessing))
                          "job-1" (Some 1%nat) (NewEventBus 100) false)
                   2%nat [] [] [] ["job-1"] None [] in
  let out := exec (alone scenario.production)
                  (runTranscriptionJob scenario.production 1%nat "job-1"
                                       "/in/clip.mp4" scenario.settings)
                  (fun _ => scenario.world, s) in
  Forall (fun e => Event.JobID e = "job-1") (news s (snd (snd out)))
  /\ activeJobID (app (snd (snd out))) = ""
  /\ cancelFn (app (snd (snd out))) = None.
Proof.
  intros s. cbv zeta.
  destruct (exec (alone scenario.production) (runTranscriptionJob _ _ _ _ _) _)
    as [[tr u] [os2 s2]] eqn:Hrun.
  pose proof (goroutine_keeps_to_its_job scenario.production 1%nat "job-1"
                "/in/clip.mp4" scenario.settings _ _ _ _ _ _ Hrun)
    as (_ & Hall & Hact & Hcf & _).
  split; [exact Hall|]. split; [exact Hact | exact Hcf].
Defined.

Lemma pipeline_callbacks_frame_witness :
  let s := mkState (mkApp scenario.settings
                          (mkManager (mkJob "job-1" JobStatusPreprocessing))
                          "job-1" (Some 1%nat) (NewEventBus 100) false)
                   2%nat [] [] [] ["job-1"] None [] in
  let req := Request.mk "/in/clip.mp4" "/m/model.bin" "auto" "/out"
                        true true in
  let out := exec (alone scenario.production)
                  (interp (callbacks "job-1") (scenario.production 1%nat req))
                  (fun _ => scenario.world, s) in
  Forall (fun e =>
            Event.JobID e = "job-1"
            /\ (Event.Type_ e = EventTypeLog
                \/ Event.Type_ e = EventTypeStatus
                   /\ In (Event.Status e) active)) (news s (snd (snd out)))
  /\ activeJobID (app (snd (snd out))) = "job-1".
Proof.
  intros s req. cbv zeta.
  destruct (exec (alone scenario.production) (interp _ _) _)
    as [[tr r] [os' s']] eqn:Hexec.
  pose proof (pipeline_callbacks_frame scenario.production "job-1"
                (scenario.production 1%nat req) _ _ _ _ _ _ Hexec)
    as (_ & Hall & _ & _ & Hact & _).
  split; [exact Hall | exact Hact].
Defined.

Lemma stage_callback_outcome_witness :
  let s := mkState (mkApp scenario.settings
                          (mkManager (mkJob "job-1" JobStatusPreprocessing))
                          "job-1" (Some 1%nat) (NewEventBus 100) false)
                   2%nat [] [] [] ["job-1"] None [] in
  let out := exec (alone scenario.production)
                  (callbacks "job-1" unit (transcribe.OnStage "transcribing"))
                  (fun _ => scenario.world, s) in
  Jobs (app (snd (snd out)))
  = mkManager (mkJob "job-1" JobStatusTranscribing)
  /\ map payload (news s (snd (snd out)))
     = [Event.mk 0 0 "job-1" EventTypeStatus "transcribing"
                 "Running transcribing stage" "" [] 0 "" "" ""].
Proof.
  intros s. cbv zeta.
  destruct (exec (alone scenario.production) (callbacks _ _ _) _)
    as [[tr u] [os' s']] eqn:Hexec.
  pose proof (stage_callback_outcome scenario.production "job-1"
                "transcribing" _ _ _ _ _ _ Hexec) as H.
  hnf in H. destruct H as (HJ & HN & _).
  split; [exact HJ | exact HN].
Defined.

(** ** The application under every interleaving *)

Section AppInvariant.

Variable P :
  Context -> Request.t -> Prog transcribe.Eff (Result.t * option error).

(** One critical section keeps the manager in a state its own methods
    reach, the buffer the end of the history, and a recorded job id
    paired with a cancel function. *)
Lemma handle_steady (o : Oracle) {X : Type} (e : bootstrap.Eff X) (s : State) :
  jobs.reachable (Jobs (app s))
  /\ 0 < maxEvents (bootstrap.events (app s))
  /\ jobs.events (bootstrap.events (app s))
     = lastn (Z.to_nat (maxEvents (bootstrap.events (app s)))) (published s)
  /\ (cancelFn (app s) = None -> activeJobID (app s) = "") ->
  let s' := snd (handle P o e s) in
  jobs.reachable (Jobs (app s'))
  /\ 0 < maxEvents (bootstrap.events (app s'))
  /\ jobs.events (bootstrap.events (app s'))
     = lastn (Z.to_nat (maxEvents (bootstrap.events (app s')))) (published s')
  /\ (cancelFn (app s') = None -> activeJobID (app s') = "")
  /\ maxEvents (bootstrap.events (app s'))
     = maxEvents (bootstrap.events (app s)).
Proof.
  intros (Hm & Hcap & Hev & Hact).
  destruct s as [[settings0 jobs0 active0 cancel0 bus0 rt0] nextCtx0
                   cancelled0 published0 emitted0 started0 caller0 tasks0].
  cbn [app Jobs bootstrap.events published cancelFn activeJobID] in *.
  destruct e; cbn [handle app Jobs bootstrap.events published cancelFn
                   activeJobID Settings_ runtimeCtx nextCtx cancelled emitted
                   started caller tasks];
    unfold with_app, with_Jobs, with_active;
    try (cbn; repeat split; try assumption; discriminate).
  - pose proof (reach_Start jobID jobs0 Hm) as Hr.
    destruct (Start jobID jobs0) as [err m]. cbn in *.
    repeat split; assumption.
  - pose proof (reach_Transition status jobs0 Hm) as Hr.
    destruct (Transition status jobs0) as [err m]. cbn in *.
    repeat split; assumption.
  - pose proof (reach_Cancel jobs0 Hm) as Hr.
    destruct (Cancel jobs0) as [err m]. cbn in *.
    repeat split; assumption.
  - destruct (Publish_retains (now o) event bus0 published0 Hcap Hev)
      as (Hmax & Hev').
    destruct (Publish (now o) event bus0) as [p b']. cbn in *.
    rewrite Hmax. repeat split; assumption.
  - destruct (active0 =? jobID)%string; cbn;
      repeat split; try assumption; reflexivity.
Qed.

(** X21: in every state the application reaches, however the caller
    and the goroutines interleave and whatever the outside answers,
    the manager is in a state its own methods reach, so its status is
    one of the seven; the bus keeps the capacity it was created with
    and holds exactly the last events of the history, never more than
    its capacity; and a job id is recorded only together with a cancel
    function. *)
Theorem app_steady (cap : Z) (s : State) :
  bootstrap.reachable P cap s ->
  jobs.reachable (Jobs (app s))
  /\ In (Status (current (Jobs (app s)))) statuses
  /\ maxEvents (bootstrap.events (app s)) = (if cap <=? 0 then 500 else cap)
  /\ jobs.events (bootstrap.events (app s))
     = lastn (Z.to_nat (maxEvents (bootstrap.events (app s)))) (published s)
  /\ len (jobs.events (bootstrap.events (app s)))
     <= maxEvents (bootstrap.events (app s))
  /\ (cancelFn (app s) = None -> activeJobID (app s) = "").
Proof.
  intros Hreach.
  assert (H : (jobs.reachable (Jobs (app s))
               /\ 0 < maxEvents (bootstrap.events (app s))
               /\ jobs.events (bootstrap.events (app s))
                  = lastn (Z.to_nat (maxEvents (bootstrap.events (app s))))
                          (published s)
               /\ (cancelFn (app s) = None -> activeJobID (app s) = ""))
              /\ maxEvents (bootstrap.events (app s))
                 = (if cap <=? 0 then 500 else cap)).
  { induction Hreach as [| c s s' _ IH Hstep].
    - cbn. split; [|reflexivity]. split; [apply reach_new|].
      split; [destruct (Z.leb_spec cap 0); lia|]. split; reflexivity.
    - destruct IH as (IH & Hcap). destruct c as [api | o | i o]; cbn in Hstep.
      + destruct (idle s); [|discriminate]. injection Hstep as <-.
        cbn. split; assumption.
      + destruct (caller s) as [[R [r | X e k]] |]; try discriminate.
        pose proof (handle_steady o e s IH) as H.
        destruct (handle P o e s) as [x s1]. injection Hstep as <-.
        cbn in *. destruct H as (H1 & H2 & H3 & H4 & H5).
        split; [repeat split; assumption | congruence].
      + destruct (nth_error (tasks s) i) as [[j [r | X e k]] |];
          try discriminate.
        pose proof (handle_steady o e s IH) as H.
        destruct (handle P o e s) as [x s1]. injection Hstep as <-.
        cbn in *. destruct H as (H1 & H2 & H3 & H4 & H5).
        split; [repeat split; assumption | congruence]. }
  destruct H as ((Hm & Hpos & Hev & Hact) & Hcap).
  split; [exact Hm|]. split; [apply reachable_status; exact Hm|].
  split; [exact Hcap|]. split; [exact Hev|]. split; [|exact Hact].
  rewrite Hev. unfold len. rewrite lastn_length. lia.
Qed.

End AppInvariant.

Lemma app_steady_witness :
  In (Status (current (Jobs (app (scenario.after scenario.untilTranscribing)))))
     statuses
  /\ len (jobs.events (bootstrap.events
                         (app (scenario.after scenario.untilTranscribing))))
     <= 100.
Proof.
  assert (Hr : bootstrap.reachable scenario.production 100
                 (scenario.after scenario.untilTranscribing)).
  { apply (run_reachable scenario.production 100 scenario.untilTranscribing
             (init 100)); [apply reach_init|].
    apply after_run. vm_compute. discriminate. }
  destruct (app_steady scenario.production 100 _ Hr)
    as (_ & Hst & Hcap & _ & Hlen & _).
  split; [exact Hst|]. rewrite Hcap in Hlen. exact Hlen.
Defined.
